(** * vscode-journal: template resolution and document injection

    A shallow embedding of the configuration access layer
    ([Configuration], the scoped pattern and template resolvers) and of the
    injection layer ([Inject]) of the journal extension, with the
    properties of the specification stated and proved over it.

    Strings are [string]; the JavaScript string built-ins the code calls
    ([indexOf], [startsWith], [substring], [replace] with its replacement
    patterns, [search] with a pattern source) are modelled in [JS] and
    [RegExp].  The settings object is a finite map from setting names to
    values.  Node's [os] and [path], moment.js and the editor are an
    interface ([Platform]) the resolvers are parameterised by. *)

From Stdlib Require Import ZArith Ascii String Lia Bool List.
From stdpp Require Import base option strings pretty gmap.
Import ListNotations.

#[local] Arguments String.append : simpl nomatch.
#[local] Open Scope Z_scope.

(** ** Outcomes of fallible code

    A thrown [Error], a rejected promise and a [TypeError] raised by the
    runtime all end up as a rejection of the promise the operation returns:
    [Err] carries the message. *)

Inductive result (A : Type) : Type :=
| Ok (a : A)
| Err (msg : string).
Arguments Ok {A} a.
Arguments Err {A} msg.

Definition bind {A B : Type} (r : result A) (k : A -> result B) : result B :=
  match r with
  | Ok a => k a
  | Err e => Err e
  end.

Notation "x <- r ;; k" := (bind r (fun x => k))
  (at level 100, r at next level, right associativity).

(** ** JavaScript string built-ins *)

Module JS.

(** The line feed a template literal writes as a backslash followed by n. *)
Definition LF : string := String (ascii_of_nat 10) "".

(** [s.startsWith(p)] *)
Fixpoint startsWith (p s : string) : bool :=
  match p with
  | EmptyString => true
  | String a p' =>
      match s with
      | EmptyString => false
      | String b s' => if decide (a = b) then startsWith p' s' else false
      end
  end.

(** Index of the first occurrence of [needle] in [hay], if any. *)
Fixpoint find (needle hay : string) : option nat :=
  if startsWith needle hay then Some 0%nat
  else match hay with
       | EmptyString => None
       | String _ hay' => S <$> find needle hay'
       end.

(** [hay.indexOf(needle)]: the index, or -1. *)
Definition indexOf (needle hay : string) : Z :=
  match find needle hay with
  | Some i => Z.of_nat i
  | None => -1
  end.

(** [hay.includes(needle)] *)
Definition includes (needle hay : string) : bool :=
  match find needle hay with
  | Some _ => true
  | None => false
  end.

Fixpoint take (n : nat) (s : string) : string :=
  match n, s with
  | S n', String c s' => String c (take n' s')
  | _, _ => ""
  end.

Fixpoint drop (n : nat) (s : string) : string :=
  match n, s with
  | S n', String _ s' => drop n' s'
  | _, _ => s
  end.

(** [s.substring(from, to)] for numeric arguments: negative arguments
    count as 0, arguments past the end as the length, and the two are
    swapped when [from > to]. *)
Definition substring (from to : Z) (s : string) : string :=
  let len := Z.of_nat (String.length s) in
  let a := Z.min (Z.max from 0) len in
  let b := Z.min (Z.max to 0) len in
  let lo := Z.to_nat (Z.min a b) in
  let hi := Z.to_nat (Z.max a b) in
  take (hi - lo) (drop lo s).

(** GetSubstitution for a string pattern (no capture groups): in the
    replacement text a dollar followed by a dollar stands for one dollar,
    followed by an ampersand for the matched text, by a backquote for the
    text before the match and by a quote for the text after it; any
    other dollar is literal. *)
Fixpoint expand (matched before after : string) (r : string) : string :=
  match r with
  | EmptyString => ""
  | String c rest =>
      if decide (c = "$"%char) then
        match rest with
        | EmptyString => "$"
        | String d rest' =>
            if decide (d = "$"%char) then "$" +:+ expand matched before after rest'
            else if decide (d = "&"%char) then matched +:+ expand matched before after rest'
            else if decide (d = "`"%char) then before +:+ expand matched before after rest'
            else if decide (d = "'"%char) then after +:+ expand matched before after rest'
            else String c (expand matched before after rest)
        end
      else String c (expand matched before after rest)
  end.

(** [s.replace(pattern, replacement)] with a string pattern: only the
    first occurrence is replaced. *)
Definition replace (pattern replacement s : string) : string :=
  match find pattern s with
  | None => s
  | Some i =>
      let before := take i s in
      let after := drop (i + String.length pattern) s in
      before +:+ expand pattern before after replacement +:+ after
  end.

(** [parts.join(sep)] *)
Fixpoint join (sep : string) (parts : list string) : string :=
  match parts with
  | [] => ""
  | [p] => p
  | p :: rest => p +:+ sep +:+ join sep rest
  end.

(** No dollar sign in a text. *)
Fixpoint dollarFree (s : string) : bool :=
  match s with
  | EmptyString => true
  | String c s' => if decide (c = "$"%char) then false else dollarFree s'
  end.

End JS.

(** ** The fragment of regular expressions built from a variable name

    [template.search(source)] compiles [source] to a regular expression.
    The sources the configuration layer builds are an escaped dollar and
    brace, the variable name, and an escaped closing brace.  The fragment
    modelled here covers ordinary characters, escaped syntax characters,
    the dot and the postfix quantifiers on a single character; [compile]
    answers [None] outside it (groups, classes, alternation, assertions,
    class escapes, braces, and the sources [RegExp] rejects). *)

Module RegExp.

Inductive atom : Type :=
| AChar (c : ascii)
| AAny.

Inductive quant : Type := One | Star | Plus | Opt.

Inductive token : Type :=
| TAtom (a : atom)
| TQuant (q : quant).

Definition pattern : Type := list (atom * quant).

(** The syntax characters of the pattern grammar. *)
Definition isSyntaxChar (c : ascii) : bool :=
  bool_decide (c ∈ ["^"; "$"; "\"; "."; "*"; "+"; "?"; "("; ")"; "["; "]"; "{"; "}"; "|"]%char).

Fixpoint lex (escaped : bool) (s : string) : option (list token) :=
  match s with
  | EmptyString => if escaped then None else Some []
  | String c rest =>
      if escaped then
        if isSyntaxChar c then (TAtom (AChar c) ::.) <$> lex false rest else None
      else if decide (c = "\"%char) then lex true rest
      else if decide (c = "."%char) then (TAtom AAny ::.) <$> lex false rest
      else if decide (c = "*"%char) then (TQuant Star ::.) <$> lex false rest
      else if decide (c = "+"%char) then (TQuant Plus ::.) <$> lex false rest
      else if decide (c = "?"%char) then (TQuant Opt ::.) <$> lex false rest
      else if isSyntaxChar c then None
      else (TAtom (AChar c) ::.) <$> lex false rest
  end.

Fixpoint group (ts : list token) : option pattern :=
  match ts with
  | [] => Some []
  | TQuant _ :: _ => None
  | TAtom a :: rest =>
      match rest with
      | TQuant q :: rest' => ((a, q) ::.) <$> group rest'
      | _ => ((a, One) ::.) <$> group rest
      end
  end.

Definition compile (source : string) : option pattern :=
  lex false source ≫= group.

(** The dot matches every character but the line terminators. *)
Definition atomMatches (a : atom) (c : ascii) : bool :=
  match a with
  | AChar d => bool_decide (c = d)
  | AAny => negb (bool_decide (c = ascii_of_nat 10) || bool_decide (c = ascii_of_nat 13))
  end.

(** Is there a match of the pattern starting at the head of the text? *)
Fixpoint matchHere (p : pattern) (s : string) : bool :=
  match p with
  | [] => true
  | (a, q) :: p' =>
      let star := fix star (t : string) : bool :=
        matchHere p' t ||
        match t with
        | EmptyString => false
        | String c t' => atomMatches a c && star t'
        end in
      match q with
      | One =>
          match s with
          | EmptyString => false
          | String c s' => atomMatches a c && matchHere p' s'
          end
      | Opt =>
          matchHere p' s ||
          match s with
          | EmptyString => false
          | String c s' => atomMatches a c && matchHere p' s'
          end
      | Star => star s
      | Plus =>
          match s with
          | EmptyString => false
          | String c s' => atomMatches a c && star s'
          end
      end
  end.

Fixpoint searchFrom (p : pattern) (s : string) : option nat :=
  if matchHere p s then Some 0%nat
  else match s with
       | EmptyString => None
       | String _ s' => S <$> searchFrom p s'
       end.

(** [text.search(source)]: the index of the first match, or -1. *)
Definition search (source text : string) : option Z :=
  p ← compile source;
  Some (match searchFrom p text with
        | Some i => Z.of_nat i
        | None => -1
        end).

(** The pattern and the tokens of a text taken literally. *)
Fixpoint literal (s : string) : pattern :=
  match s with
  | EmptyString => []
  | String c s' => (AChar c, One) :: literal s'
  end.

Fixpoint atoms (s : string) : list token :=
  match s with
  | EmptyString => []
  | String c s' => TAtom (AChar c) :: atoms s'
  end.

(** Names without any character that is special in a pattern. *)
Fixpoint plain (s : string) : bool :=
  match s with
  | EmptyString => true
  | String c s' =>
      negb (isSyntaxChar c) && plain s'
  end.

End RegExp.

(** ** The platform the extension runs on

    What the code obtains from Node ([os.homedir], [path.normalize],
    [path.format] of [path.parse], [path.resolve]), from the editor (the
    first workspace folder), from moment.js (the text of a date under a
    format code, with the locale in force) and from the clock. *)

Definition Date : Type := Z.

Class Platform : Type := {
  homedir : string;
  workspaceRoot : string;
  pathNormalize : string -> string;
  pathFormatParse : string -> string;
  pathResolve : string -> string -> string;
  momentFormat : Date -> string -> string;
  currentDate : Date;
}.

(** ** Settings

    The templates are objects whose fields may be undefined at run time
    (the resolvers guard against it, or raise); hence the options. *)

Record ScopedTemplate : Type := {
  name : option string;
  scope : option string;
  template : option string;
  value : option string;
}.

(** [InlineTemplate extends ScopedTemplate] with the anchor [after]. *)
Record InlineTemplate : Type := {
  scoped :> ScopedTemplate;
  after : option string;
}.

(** One of [notes] and [entries] of a pattern definition. *)
Record PathFile : Type := {
  path : option string;
  file : option string;
}.

Record PatternDefinition : Type := {
  notes : option PathFile;
  entries : option PathFile;
}.

Record ScopeDefinition : Type := {
  sd_name : string;
  sd_base : string;
  sd_patterns : option PatternDefinition;
  sd_templates : option (list InlineTemplate);
}.

(** A value of the settings object, by the type the code reads it at. *)
Inductive Setting : Type :=
| SString (s : string)
| SBool (b : bool)
| SPatterns (p : PatternDefinition)
| SScopes (l : list ScopeDefinition)
| STemplates (l : list InlineTemplate).

(** [vscode.WorkspaceConfiguration]: setting name to value. *)
Abbreviation Config := (gmap string Setting).

Definition getString (config : Config) (key : string) : option string :=
  match config !! key with Some (SString s) => Some s | _ => None end.

Definition getPatternDefinition (config : Config) (key : string) : option PatternDefinition :=
  match config !! key with Some (SPatterns p) => Some p | _ => None end.

Definition getScopeDefinitions (config : Config) (key : string) : option (list ScopeDefinition) :=
  match config !! key with Some (SScopes l) => Some l | _ => None end.

Definition getInlineTemplates (config : Config) (key : string) : option (list InlineTemplate) :=
  match config !! key with Some (STemplates l) => Some l | _ => None end.

(** Whether [config.get(key)] holds a value that is not an array: an
    object, as the {} the scopes setting ships with, a string or a
    boolean.  Such a value has no [filter], so the call
    [config.get(key)?.filter(...)] raises a TypeError on it; the [?.] lets
    only a missing value through.  The two getters above give the array
    when there is one (its elements being of the kind the key declares). *)
Definition notAnArray (config : Config) (key : string) : bool :=
  match config !! key with
  | None | Some (SScopes _) | Some (STemplates _) => false
  | Some _ => true
  end.

(** Modelled from the spec: [Util.stringIsNotEmpty], whose module is not
    among the sources; the legacy keys count when their value is a
    non-empty string. *)
Definition stringIsNotEmpty (v : option string) : bool :=
  match v with
  | Some s => negb (String.length s =? 0)%nat
  | None => false
  end.


(** ** The configuration layer *)

Module Conf.

Definition SCOPE_DEFAULT : string := "default".

Module DefaultPatternDefinition.
Module notes.
Definition path : string := "${base}/notes".
Definition file : string := "N${year}${month}${day}_${input}.${ext}".
End notes.
Module entries.
Definition path : string := "${base}/entries".
Definition file : string := "${year}-${month}-${day} ${weekday}.${ext}".
End entries.
End DefaultPatternDefinition.

(** *** Date tokens

    [regExpDateFormats] is a dollar and an opening brace, then one of the
    names year, month, day, localTime, localDate, weekday, or the letter
    d, a colon and a shortest non-empty run of arbitrary characters, then
    a closing brace; it is used with the global flag. *)

Definition dateTokenNames : list string :=
  ["year"; "month"; "day"; "localTime"; "localDate"; "weekday"].

(** The characters before the first closing brace, when there is one. *)
Fixpoint untilBrace (s : string) : option string :=
  match s with
  | EmptyString => None
  | String c s' =>
      if decide (c = "}"%char) then Some ""
      else String c <$> untilBrace s'
  end.

Fixpoint firstName (names : list string) (body : string) : option string :=
  match names with
  | [] => None
  | n :: names' =>
      if JS.startsWith (n +:+ "}") body then Some n else firstName names' body
  end.

(** The match of [regExpDateFormats] that starts at the head of [s]. *)
Definition tokenAt (s : string) : option string :=
  if JS.startsWith "${" s then
    let body := JS.drop 2 s in
    match firstName dateTokenNames body with
    | Some n => Some ("${" +:+ n +:+ "}")
    | None =>
        if JS.startsWith "d:" body then
          match JS.drop 2 body with
          | EmptyString => None
          | String c rest =>
              match untilBrace rest with
              | Some x => Some ("${d:" +:+ String c x +:+ "}")
              | None => None
              end
          end
        else None
    end
  else None.

(** [template.match(regExpDateFormats) || []]: the matches from left to
    right, each search resuming behind the previous match.  [skip] counts
    the characters of the last match still to be passed over. *)
Fixpoint matchAll (skip : nat) (s : string) : list string :=
  match s with
  | EmptyString => []
  | String _ s' =>
      match skip with
      | S k => matchAll k s'
      | O =>
          match tokenAt s with
          | Some m => m :: matchAll (String.length m - 1) s'
          | None => matchAll 0 s'
          end
      end
  end.

Section WithPlatform.
Context `{P : Platform}.

(** The body of the [forEach] over the matches: the [switch] on the
    matched text. *)
Definition replaceDateFormat (date : Date) (template match_ : string) : string :=
  if decide (match_ = "${year}") then JS.replace match_ (momentFormat date "YYYY") template
  else if decide (match_ = "${month}") then JS.replace match_ (momentFormat date "MM") template
  else if decide (match_ = "${day}") then JS.replace match_ (momentFormat date "DD") template
  else if decide (match_ = "${localTime}") then JS.replace match_ (momentFormat date "LT") template
  else if decide (match_ = "${localDate}") then JS.replace match_ (momentFormat date "LL") template
  else if decide (match_ = "${weekday}") then JS.replace match_ (momentFormat date "dddd") template
  else if JS.startsWith "${d:" match_ then
    let modifier :=
      JS.substring (JS.indexOf "d:" match_ + 2)
                   (Z.of_nat (String.length match_) - 1) match_ in
    JS.replace match_ (momentFormat date modifier) template
  else template.

(** [replaceDateFormats(template, date)].  The call that switches the
    locale of moment.js has no part in the result beyond the texts
    [momentFormat] stands for. *)
Definition replaceDateFormats (template : string) (date : Date) : string :=
  fold_left (replaceDateFormat date) (matchAll 0 template) template.

(** [replaceVariableValue(key, value, template)]: the test compiles a
    pattern from the key, the replacement looks for the literal text.  A
    key whose pattern is outside the fragment of [RegExp] is answered by a
    rejection (the resolvers pass homeDir, base, ext and input only). *)
Definition replaceVariableValue (key value template : string) : result string :=
  match RegExp.search ("\$\{" +:+ key +:+ "\}") template with
  | None => Err "Invalid regular expression"
  | Some i =>
      if 0 <=? i then Ok (JS.replace ("${" +:+ key +:+ "}") value template)
      else Ok template
  end.

Definition resolveScope (_scopeId : option string) : string :=
  match _scopeId with
  | None => SCOPE_DEFAULT
  | Some s => if (String.length s =? 0)%nat then SCOPE_DEFAULT else s
  end.

(** The branch of [getBasePath] for the default scope, which the
    scoped branch calls again when no scope of that name exists. *)
Definition defaultBasePath (config : Config) : string :=
  match getString config "base" with
  | Some base =>
      if (0 <? String.length base)%nat then
        pathFormatParse (pathNormalize
          (JS.replace "${workspaceRoot}" workspaceRoot
             (JS.replace "${homeDir}" homedir base)))
      else pathResolve homedir "Journal"
  | None => pathResolve homedir "Journal"
  end.

Definition getBasePath (_scopeId : option string) (config : Config) : result string :=
  let scope := resolveScope _scopeId in
  if decide (scope = SCOPE_DEFAULT) then Ok (defaultBasePath config)
  else if notAnArray config "scopes"
  then Err "TypeError: scopes.filter is not a function"
  else
    match getScopeDefinitions config "scopes" with
    | Some scopes =>
        let base :=
          (fun sd => pathFormatParse (pathNormalize
                       (JS.replace "${homeDir}" homedir (sd_base sd))))
            <$> filter (fun v => sd_name v = scope) scopes in
        match base with
        | [] => Ok (defaultBasePath config)
        | b :: _ => Ok b
        end
    | None => Err "Failed to resolve base path"
    end.

(** [getFileExtension]: with the setting absent, the test reads the
    length of an undefined value and raises; a value that is not a string
    has no [startsWith]. *)
Definition getFileExtension (config : Config) : result string :=
  match config !! "ext" with
  | None => Err "TypeError: Cannot read properties of undefined (reading 'length')"
  | Some (SString ext) =>
      if JS.startsWith "." ext
      then Ok (JS.substring 1 (Z.of_nat (String.length ext)) ext)
      else Ok ext
  | Some _ => Err "TypeError: ext.startsWith is not a function"
  end.

(** What the call [config.get(key)?.filter(...)] raises on a value
    without [filter]. *)
Definition filterError : string :=
  "TypeError: this.config.get(...)?.filter is not a function".

(** The head of the look-up of a scoped resolver,
    [config.get("scopes")?.filter(...)]: in the default scope the scopes
    are not read; for a requested scope the call goes through on a missing
    value and on an array, and raises on any other value. *)
Definition scopedLookUp (_scopeId : option string) (config : Config) : result unit :=
  if bool_decide (resolveScope _scopeId = SCOPE_DEFAULT) then Ok tt
  else if notAnArray config "scopes" then Err filterError
  else Ok tt.

(** The scope definition the scoped resolvers read once that call has
    gone through: the last one of the requested name. *)
Definition scopeDefinition (config : Config) (_scopeId : option string)
  : option ScopeDefinition :=
  getScopeDefinitions config "scopes" ≫=
    (fun l => last (filter (fun sd => Some (sd_name sd) = _scopeId) l)).

(** The hard-coded pattern stands in for a definition that is missing or
    the empty string. *)
Definition orDefault (definition : option string) (fallback : string) : string :=
  match definition with
  | Some d => if (String.length d =? 0)%nat then fallback else d
  | None => fallback
  end.

(** The values of the look-ups at the head of the four pattern resolvers,
    behind [scopedLookUp]: the setting read for the default scope, or the
    pattern of the requested scope. *)
Definition notesPathDefinition (_scopeId : option string) (config : Config)
  : option string :=
  if bool_decide (resolveScope _scopeId = SCOPE_DEFAULT)
  then (getPatternDefinition config "pattern" ≫= notes) ≫= path
  else ((scopeDefinition config _scopeId ≫= sd_patterns) ≫= notes) ≫= path.

Definition notesFileDefinition (_scopeId : option string) (config : Config)
  : option string :=
  if bool_decide (resolveScope _scopeId = SCOPE_DEFAULT)
  then (getPatternDefinition config "pattern" ≫= notes) ≫= file
  else ((scopeDefinition config _scopeId ≫= sd_patterns) ≫= notes) ≫= file.

Definition entryPathDefinition (_scopeId : option string) (config : Config)
  : option string :=
  if bool_decide (resolveScope _scopeId = SCOPE_DEFAULT)
  then (getPatternDefinition config "patterns" ≫= entries) ≫= path
  else ((scopeDefinition config _scopeId ≫= sd_patterns) ≫= entries) ≫= path.

Definition entryFileDefinition (_scopeId : option string) (config : Config)
  : option string :=
  if bool_decide (resolveScope _scopeId = SCOPE_DEFAULT)
  then (getPatternDefinition config "patterns" ≫= entries) ≫= file
  else ((scopeDefinition config _scopeId ≫= sd_patterns) ≫= entries) ≫= file.

(** The scope a resolver records in its result. *)
Definition recordedScope (_scopeId : option string) : option string :=
  if bool_decide (resolveScope _scopeId = SCOPE_DEFAULT)
  then Some SCOPE_DEFAULT else _scopeId.

Definition getNotesPathPattern (date : Date) (_scopeId : option string)
    (config : Config) : result ScopedTemplate :=
  _ <- scopedLookUp _scopeId config ;;
  let definition :=
    orDefault (notesPathDefinition _scopeId config)
      DefaultPatternDefinition.notes.path in
  v1 <- replaceVariableValue "homeDir" homedir definition ;;
  base <- getBasePath _scopeId config ;;
  v2 <- replaceVariableValue "base" base v1 ;;
  Ok {| name := None;
        scope := recordedScope _scopeId;
        template := Some definition;
        value := Some (replaceDateFormats v2 date) |}.

Definition getNotesFilePattern (date : Date) (input : string)
    (_scopeId : option string) (config : Config) : result ScopedTemplate :=
  _ <- scopedLookUp _scopeId config ;;
  let definition :=
    orDefault (notesFileDefinition _scopeId config)
      DefaultPatternDefinition.notes.file in
  ext <- getFileExtension config ;;
  v1 <- replaceVariableValue "ext" ext definition ;;
  v2 <- replaceVariableValue "input" input v1 ;;
  Ok {| name := None;
        scope := recordedScope _scopeId;
        template := Some definition;
        value := Some (replaceDateFormats v2 date) |}.

Definition getEntryPathPattern (date : Date) (_scopeId : option string)
    (config : Config) : result ScopedTemplate :=
  _ <- scopedLookUp _scopeId config ;;
  let definition :=
    orDefault (entryPathDefinition _scopeId config)
      DefaultPatternDefinition.entries.path in
  base <- getBasePath _scopeId config ;;
  v1 <- replaceVariableValue "base" base definition ;;
  Ok {| name := None;
        scope := recordedScope _scopeId;
        template := Some definition;
        value := Some (pathNormalize (replaceDateFormats v1 date)) |}.

Definition getEntryFilePattern (date : Date) (_scopeId : option string)
    (config : Config) : result ScopedTemplate :=
  _ <- scopedLookUp _scopeId config ;;
  let definition :=
    orDefault (entryFileDefinition _scopeId config)
      DefaultPatternDefinition.entries.file in
  ext <- getFileExtension config ;;
  v1 <- replaceVariableValue "ext" ext definition ;;
  Ok {| name := None;
        scope := recordedScope _scopeId;
        template := Some definition;
        value := Some (replaceDateFormats v1 date) |}.

(** *** Inline templates *)

Definition hardCoded (_id _defaultValue : string) : InlineTemplate :=
  {| scoped := {| name := Some _id;
                  scope := Some SCOPE_DEFAULT;
                  template := Some _defaultValue;
                  value := None |};
     after := Some "" |}.

(** The look-up of [getInlineTemplate] in the default scope: the last
    template of the name in the templates setting. *)
Definition namedTemplate (_id : string) (config : Config)
  : result (option InlineTemplate) :=
  if notAnArray config "templates" then Err filterError
  else Ok (getInlineTemplates config "templates" ≫=
             (fun l => last (filter (fun tpl : InlineTemplate => name tpl = Some _id) l))).

(** The look-up of [getInlineTemplate] for a requested scope.  The
    callback of its first [filter] is the assignment [sd.name = scope],
    whose value, the scope, is not empty: every scope definition passes,
    and [pop] takes the last one of the setting, whatever its name.  (The
    settings are taken to be unaffected by the assignment: the values are
    the editor's.) *)
Definition scopedTemplate (_id : string) (config : Config)
  : result (option InlineTemplate) :=
  if notAnArray config "scopes" then Err filterError
  else Ok (((getScopeDefinitions config "scopes" ≫= last) ≫= sd_templates) ≫=
             (fun l => last (filter (fun tpl : InlineTemplate => name tpl = Some _id) l))).

(** [getInlineTemplate(_id, _defaultValue, _scopeId)].  In the branch
    for a requested scope the source evaluates the look-up in the
    scope's template list as an expression statement: it may raise, but
    nothing is assigned to [pattern], which stays undefined there. *)
Definition getInlineTemplate (_id _defaultValue _scopeId : string)
    (config : Config) : result InlineTemplate :=
  let scope := resolveScope (Some _scopeId) in
  if stringIsNotEmpty (getString config ("tpl-" +:+ _id)) then
    Ok {| scoped := {| name := Some _id;
                       scope := Some SCOPE_DEFAULT;
                       template := getString config ("tpl-" +:+ _id);
                       value := None |};
          after :=
            if stringIsNotEmpty (getString config (_id +:+ "-after"))
            then getString config (_id +:+ "-after")
            else Some "" |}
  else
    pattern <-
      (if decide (scope = SCOPE_DEFAULT) then namedTemplate _id config
       else _ <- scopedTemplate _id config ;; Ok None) ;;
    match pattern with
    | None => Ok (hardCoded _id _defaultValue)
    | Some pattern =>
        let after1 := match after pattern with None => Some "" | a => a end in
        let after2 := match template pattern with None => Some _defaultValue | _ => after1 end in
        Ok {| scoped := scoped pattern; after := after2 |}
    end.

Definition undefinedTemplate : string :=
  "TypeError: Cannot read properties of undefined (reading 'replace')".

Definition getEntryTemplate (date : Date) (_scopeId : option string)
    (config : Config) : result InlineTemplate :=
  sp <- getInlineTemplate "entry" ("# ${localDate}" +:+ JS.LF +:+ JS.LF)
          (resolveScope _scopeId) config ;;
  match template sp with
  | None => Err undefinedTemplate
  | Some t =>
      let t' := JS.replace "{content}" "${localDate}" t in
      let v := replaceDateFormats t' date in
      base <- getBasePath _scopeId config ;;
      v' <- replaceVariableValue "base" base v ;;
      Ok {| scoped := {| name := name sp; scope := scope sp;
                         template := Some t'; value := Some v' |};
            after := after sp |}
  end.

Definition getNotesTemplate (_scopeId : option string)
    (config : Config) : result InlineTemplate :=
  res <- getInlineTemplate "note" ("# ${input}" +:+ JS.LF +:+ "${tags}" +:+ JS.LF)
              (resolveScope _scopeId) config ;;
  match template res with
  | None => Err undefinedTemplate
  | Some t =>
      let t' := JS.replace "{content}" "${input}" t in
      Ok {| scoped := {| name := name res; scope := scope res;
                         template := Some t';
                         value := Some (replaceDateFormats t' currentDate) |};
            after := after res |}
  end.

End WithPlatform.

End Conf.

(** ** The editor's documents

    The part of the editor's API the injection layer calls, over a document
    given by its text with line feeds between the lines. *)

Module Position.

Record t : Type := { line : nat; character : nat }.

(** [position.translate(lineDelta)] *)
Definition translate (lineDelta : nat) (p : t) : t :=
  {| line := line p + lineDelta; character := character p |}.

(** [position.isAfterOrEqual(other)] *)
Definition isAfterOrEqual (p other : t) : bool :=
  (line other <? line p)%nat ||
  ((line p =? line other)%nat && (character other <=? character p)%nat).

End Position.

Module TextDocument.

Record t : Type := { uri : string; text : string }.

Definition isLF (c : ascii) : bool := bool_decide (c = ascii_of_nat 10).

(** The lines of a text; a text always has at least one line. *)
Fixpoint splitLines (s : string) : list string :=
  match s with
  | EmptyString => [""]
  | String c s' =>
      if isLF c then "" :: splitLines s'
      else match splitLines s' with
           | l :: ls => String c l :: ls
           | [] => [String c ""]
           end
  end.

Definition lines (doc : t) : list string := splitLines (text doc).

Definition lineCount (doc : t) : nat := length (lines doc).

(** [doc.lineAt(n).text]; the editor raises for a line out of range. *)
Definition lineAt (doc : t) (n : nat) : result string :=
  match lines doc !! n with
  | Some l => Ok l
  | None => Err "Illegal value for `line`"
  end.

(** The white space of a regular expression, [\s], among the code units
    up to 255: tab, line feed, vertical tab, form feed, carriage return,
    space and no-break space. *)
Definition isWhiteSpace (c : ascii) : bool :=
  bool_decide (nat_of_ascii c ∈ [9; 10; 11; 12; 13; 32; 160]%nat).

(** [line.isEmptyOrWhitespace]: no character of the line but white space,
    which the editor defines through [\s]. *)
Fixpoint isEmptyOrWhitespace (l : string) : bool :=
  match l with
  | EmptyString => true
  | String c l' => isWhiteSpace c && isEmptyOrWhitespace l'
  end.

(** [text.search] of the pattern for a markdown header (one or more
    hashes, one or more white-space characters, any characters up to the
    end) answers an index. *)
Fixpoint noLineTerminator (l : string) : bool :=
  match l with
  | EmptyString => true
  | String c l' =>
      negb (bool_decide (c = ascii_of_nat 10) || bool_decide (c = ascii_of_nat 13))
      && noLineTerminator l'
  end.

Fixpoint afterSpaces (l : string) : bool :=
  match l with
  | EmptyString => true
  | String c l' =>
      (isWhiteSpace c && afterSpaces l') || noLineTerminator l
  end.

Fixpoint dropHashes (l : string) : string :=
  match l with
  | String c l' => if decide (c = "#"%char) then dropHashes l' else l
  | EmptyString => ""
  end.

Definition isHeader (l : string) : bool :=
  match l with
  | String c l' =>
      if decide (c = "#"%char) then
        match dropHashes l' with
        | String d rest => isWhiteSpace d && afterSpaces rest
        | EmptyString => false
        end
      else false
  | EmptyString => false
  end.

(** [doc.positionAt(offset)]: offsets past the end are the end. *)
Fixpoint positionFrom (s : string) (offset l c : nat) : Position.t :=
  match offset, s with
  | S k, String a s' =>
      if isLF a then positionFrom s' k (S l) 0
      else positionFrom s' k l (S c)
  | _, _ => {| Position.line := l; Position.character := c |}
  end.

Definition positionAt (doc : t) (offset : Z) : Position.t :=
  positionFrom (text doc) (Z.to_nat offset) 0 0.

(** [doc.validatePosition(p)]: a line past the last one becomes the end
    of the last line, a character past the end of its line becomes the
    end of that line. *)
Definition validatePosition (doc : t) (p : Position.t) : Position.t :=
  match lines doc !! Position.line p with
  | Some l =>
      {| Position.line := Position.line p;
         Position.character := Nat.min (Position.character p) (String.length l) |}
  | None =>
      {| Position.line := lineCount doc - 1;
         Position.character :=
           String.length (default "" (last (lines doc))) |}
  end.

(** [doc.lineAt(doc.lineCount - 1).range.end] *)
Definition endOfDocument (doc : t) : result Position.t :=
  l <- lineAt doc (lineCount doc - 1) ;;
  Ok {| Position.line := lineCount doc - 1;
        Position.character := String.length l |}.

(** [doc.offsetAt(p)] of a valid position. *)
Fixpoint offsetIn (ls : list string) (l c : nat) : nat :=
  match l, ls with
  | O, _ => c
  | S l', x :: ls' => String.length x + 1 + offsetIn ls' l' c
  | S _, [] => c
  end.

Definition offsetAt (doc : t) (p : Position.t) : nat :=
  let q := validatePosition doc p in
  offsetIn (lines doc) (Position.line q) (Position.character q).

End TextDocument.

(** ** Workspace edits

    A [WorkspaceEdit] collects insertions; [applyEdit] applies them as one
    transaction: every position refers to the text as it is before the
    edit, is validated against that text, and insertions at one place keep
    the order they were added in. *)

Module WorkspaceEdit.

Record insertion : Type := {
  target : string;
  at_ : Position.t;
  newText : string;
}.

Definition t : Type := list insertion.

(** The texts inserted at an offset, in the order they were added. *)
Fixpoint textsAt (edits : list (nat * string)) (offset : nat) : string :=
  match edits with
  | [] => ""
  | (o, s) :: edits' =>
      if (o =? offset)%nat then s +:+ textsAt edits' offset
      else textsAt edits' offset
  end.

(** The text with every insertion made at its offset in the original. *)
Fixpoint weave (edits : list (nat * string)) (offset : nat) (s : string) : string :=
  textsAt edits offset +:+
  match s with
  | EmptyString => ""
  | String c s' => String c (weave edits (S offset) s')
  end.

(** The insertions of an edit that concern a document, by offset. *)
Definition insertionsFor (doc : TextDocument.t) (edit : t) : list (nat * string) :=
  (fun i => (TextDocument.offsetAt doc (at_ i), newText i))
    <$> filter (fun i => target i = TextDocument.uri doc) edit.

(** The document after the edit has been applied. *)
Definition applyTo (doc : TextDocument.t) (edit : t) : TextDocument.t :=
  {| TextDocument.uri := TextDocument.uri doc;
     TextDocument.text := weave (insertionsFor doc edit) 0 (TextDocument.text doc) |}.

End WorkspaceEdit.

(** Whether [vscode.workspace.applyEdit] reports the edit as applied is
    the editor's answer. *)
Class Editor : Type := {
  applyEditSucceeds : WorkspaceEdit.t -> bool;
}.

(** ** The injection layer *)

Module InlineString.
Record t : Type := {
  position : option Position.t;
  value : string;
  document : TextDocument.t;
}.
End InlineString.

(** The fields of [J.Model.Input] that [buildNoteContent] reads. *)
Module Input.
Record t : Type := {
  text : string;
  tags : list string;
  scope : option string;
}.
End Input.

Module Inject.

Definition line1 : Position.t :=
  {| Position.line := 1; Position.character := 0 |}.

(** The [forEach] over the pairs of a text and its replacement. *)
Definition replaceValues (content : string) (values : list (string * string)) : string :=
  fold_left (fun content val => JS.replace val.1 val.2 content) values content.

(** [buildInlineString(doc, tpl, ...values)].  The template is a resolved
    one (the source asserts [tpl.value!] and reads [tpl.after.length]);
    an undefined value or anchor is rejected here. *)
Definition buildInlineString (doc : TextDocument.t) (tpl : InlineTemplate)
    (values : list (string * string)) : result InlineString.t :=
  match value tpl, after tpl with
  | Some v, Some anchor =>
      let content := replaceValues v values in
      if negb (String.length anchor =? 0)%nat then
        let offset := JS.indexOf anchor (TextDocument.text doc) in
        let content := if JS.startsWith "#" anchor then JS.LF +:+ content else content in
        let position :=
          if 0 <? offset
          then Position.translate 1
                 (TextDocument.validatePosition doc (TextDocument.positionAt doc offset))
          else line1 in
        Ok {| InlineString.position := Some position;
              InlineString.value := content;
              InlineString.document := doc |}
      else
        Ok {| InlineString.position := Some line1;
              InlineString.value := JS.LF +:+ content;
              InlineString.document := doc |}
  | _, _ => Err "TypeError: Cannot read properties of undefined"
  end.

(** The first stage of [injectInlineString]: the position and text of the
    leading insertion. *)
Definition prepare (content : InlineString.t) : result (Position.t * string) :=
  let doc := InlineString.document content in
  let position0 := default line1 (InlineString.position content) in
  let newLine := (Position.character position0 =? 0)%nat in
  let position := TextDocument.validatePosition doc position0 in
  target <- TextDocument.lineAt doc (Position.line position) ;;
  value1 <-
    (if newLine && negb (TextDocument.isEmptyOrWhitespace target) then
       end_ <- TextDocument.endOfDocument doc ;;
       let v := InlineString.value content in
       let v := if Position.isAfterOrEqual position end_ then JS.LF +:+ v else v in
       Ok (v +:+ JS.LF)
     else Ok (InlineString.value content)) ;;
  if newLine && (Position.line (Position.translate 1 position) <? TextDocument.lineCount doc)%nat then
    next <- TextDocument.lineAt doc (Position.line position + 1) ;;
    Ok (position, if TextDocument.isHeader next then value1 +:+ JS.LF else value1)
  else Ok (position, value1).

(** The second stage: one edit holding the leading insertion and one
    insertion, with a line feed appended, for each further entry. *)
Fixpoint furtherInsertions (other : list InlineString.t) : result WorkspaceEdit.t :=
  match other with
  | [] => Ok []
  | content :: other' =>
      match InlineString.position content with
      | None => Err "Invalid arguments"
      | Some p =>
          rest <- furtherInsertions other' ;;
          Ok ({| WorkspaceEdit.target := TextDocument.uri (InlineString.document content);
                 WorkspaceEdit.at_ := p;
                 WorkspaceEdit.newText := InlineString.value content +:+ JS.LF |} :: rest)
      end
  end.

Definition collect (content : InlineString.t) (other : list InlineString.t)
    : result WorkspaceEdit.t :=
  first <- prepare content ;;
  rest <- furtherInsertions other ;;
  Ok ({| WorkspaceEdit.target := TextDocument.uri (InlineString.document content);
         WorkspaceEdit.at_ := first.1;
         WorkspaceEdit.newText := first.2 |} :: rest).

Section WithEditor.
Context `{E : Editor}.

(** [injectInlineString(content, ...other)]: resolves with the document
    of the leading entry once the edit has been applied. *)
Definition injectInlineString (content : InlineString.t)
    (other : list InlineString.t) : result TextDocument.t :=
  edit <- collect content other ;;
  if applyEditSucceeds edit
  then Ok (WorkspaceEdit.applyTo (InlineString.document content) edit)
  else Err "Failed to applied edit".

Definition injectString (doc : TextDocument.t) (content : string)
    (position : Position.t) : result TextDocument.t :=
  injectInlineString
    {| InlineString.document := doc;
       InlineString.position := Some position;
       InlineString.value := content |} [].

Definition injectHeader (doc : TextDocument.t) (content : string)
    : result TextDocument.t :=
  injectString doc content {| Position.line := 0; Position.character := 0 |}.

End WithEditor.

(** [buildNoteContent(input)] *)
Definition buildNoteContent `{P : Platform} (input : Input.t) (config : Config)
    : result string :=
  ft <- Conf.getNotesTemplate (Input.scope input) config ;;
  match value ft with
  | None => Err "TypeError: Cannot read properties of undefined (reading 'replace')"
  | Some v =>
      let v := JS.replace "${input}" (Input.text input) v in
      Ok (JS.replace "${tags}" (JS.join " " (Input.tags input) +:+ JS.LF) v)
  end.

End Inject.

(** ** Values on lines of their own *)

Module Lines.







End Lines.

(** ** Templates as sequences of segments

    A template in which every dollar sign either starts a date token or
    starts a variable in braces that is not a date token: the shape of the
    patterns and templates of the settings. *)

Module Segments.

Inductive segment : Type :=
| Plain (s : string)
| Unknown (name : string)
| Fixed (name : string)
| Custom (spec : string).

Fixpoint braceFree (s : string) : bool :=
  match s with
  | EmptyString => true
  | String c s' => if decide (c = "}"%char) then false else braceFree s'
  end.

Definition wellFormed (seg : segment) : bool :=
  match seg with
  | Plain s => JS.dollarFree s
  | Unknown name =>
      JS.dollarFree name && braceFree name
      && negb (bool_decide (name ∈ Conf.dateTokenNames))
      && negb (JS.startsWith "d:" name)
  | Fixed name => bool_decide (name ∈ Conf.dateTokenNames)
  | Custom spec => negb (String.length spec =? 0)%nat && braceFree spec
  end.

(** The text of a segment in the template. *)
Definition source (seg : segment) : string :=
  match seg with
  | Plain s => s
  | Unknown name => "${" +:+ name +:+ "}"
  | Fixed name => "${" +:+ name +:+ "}"
  | Custom spec => "${d:" +:+ spec +:+ "}"
  end.

Fixpoint render (segs : list segment) : string :=
  match segs with
  | [] => ""
  | seg :: segs' => source seg +:+ render segs'
  end.

Definition isToken (seg : segment) : bool :=
  match seg with
  | Fixed _ | Custom _ => true
  | Plain _ | Unknown _ => false
  end.

(** The date tokens of a template, from left to right. *)
Fixpoint tokens (segs : list segment) : list string :=
  match segs with
  | [] => []
  | seg :: segs' =>
      if isToken seg then source seg :: tokens segs' else tokens segs'
  end.

(** The format code a fixed date token stands for. *)
Definition codeOf (name : string) : string :=
  if decide (name = "year") then "YYYY"
  else if decide (name = "month") then "MM"
  else if decide (name = "day") then "DD"
  else if decide (name = "localTime") then "LT"
  else if decide (name = "localDate") then "LL"
  else "dddd".

Section WithPlatform.
Context `{P : Platform}.

(** The text of a segment once the date tokens are resolved. *)
Definition resolved (date : Date) (seg : segment) : string :=
  match seg with
  | Plain s => s
  | Unknown name => "${" +:+ name +:+ "}"
  | Fixed name => momentFormat date (codeOf name)
  | Custom spec => momentFormat date spec
  end.

Fixpoint renderResolved (date : Date) (segs : list segment) : string :=
  match segs with
  | [] => ""
  | seg :: segs' => resolved date seg +:+ renderResolved date segs'
  end.

(** The formatted texts of the tokens of a template hold no dollar. *)
Definition inert (date : Date) (segs : list segment) : bool :=
  forallb (fun seg => negb (isToken seg) || JS.dollarFree (resolved date seg)) segs.

End WithPlatform.

End Segments.

(** ** A sample platform and sample inputs *)

Module Sample.

(** Text escaped in square brackets, as moment.js prints it. *)
Fixpoint bracketed (s : string) : option string :=
  match s with
  | EmptyString => None
  | String c s' =>
      if decide (c = "]"%char)
      then (if decide (s' = "") then Some "" else None)
      else String c <$> bracketed s'
  end.

(** The texts of moment.js on 2 November 2026, a Monday, in English for
    the format codes of the fixed tokens and for escaped text. *)
Definition format (_ : Date) (code : string) : string :=
  if decide (code = "YYYY") then "2026"
  else if decide (code = "MM") then "11"
  else if decide (code = "DD") then "02"
  else if decide (code = "LT") then "3:06 PM"
  else if decide (code = "LL") then "November 2, 2026"
  else if decide (code = "dddd") then "Monday"
  else match code with
       | String c rest =>
           if decide (c = "["%char) then default code (bracketed rest) else code
       | EmptyString => ""
       end.

(** Runs of slashes become one slash, the part of [path.normalize] the
    examples show. *)
Fixpoint collapse (s : string) : string :=
  match s with
  | EmptyString => ""
  | String c s' =>
      match s' with
      | String d _ =>
          if decide (c = "/"%char) then
            if decide (d = "/"%char) then collapse s' else String c (collapse s')
          else String c (collapse s')
      | EmptyString => String c ""
      end
  end.

Definition posix : Platform := {|
  homedir := "/home/ada";
  workspaceRoot := "";
  pathNormalize := collapse;
  pathFormatParse := fun p => p;
  pathResolve := fun a b => a +:+ "/" +:+ b;
  momentFormat := format;
  currentDate := 1793664000000;
|}.

Definition editor : Editor := {| applyEditSucceeds := fun _ => true |}.

Definition today : Date := 1793664000000.

Definition mkTemplate (v anchor : string) : InlineTemplate :=
  {| scoped := {| name := Some "memo"; scope := Some "default";
                  template := Some v; value := Some v |};
     after := Some anchor |}.

Definition journalPage : TextDocument.t :=
  {| TextDocument.uri := "file:///home/ada/Journal/2026/11/02.md";
     TextDocument.text :=
       "# Monday" +:+ JS.LF +:+ JS.LF +:+ "## Tasks" +:+ JS.LF +:+ "- [ ] water the plants" |}.

Definition oneLine : TextDocument.t :=
  {| TextDocument.uri := "file:///home/ada/Journal/notes.md";
     TextDocument.text := "abc" |}.

Definition at_ (l c : nat) : option Position.t :=
  Some {| Position.line := l; Position.character := c |}.

Definition entry (p : option Position.t) (v : string) (doc : TextDocument.t)
  : InlineString.t :=
  {| InlineString.position := p; InlineString.value := v; InlineString.document := doc |}.

(** Settings with the patterns of the default scope overridden. *)
Definition overridden : Config :=
  {[ "ext" := SString "md";
     "patterns" := SPatterns
       {| notes := Some {| path := Some "${base}/my-notes";
                           file := Some "${input}.${ext}" |};
          entries := Some {| path := Some "${homeDir}/diary//${year}";
                             file := Some "${day}.${ext}" |} |} ]}.

(** Settings with a scope that brings its own note template. *)
Definition workNote : InlineTemplate :=
  {| scoped := {| name := Some "note"; scope := Some "work";
                  template := Some "## ${input}"; value := None |};
     after := Some "" |}.

Definition scopedNoteTemplates : Config :=
  {[ "scopes" := SScopes
       [ {| sd_name := "work";
            sd_base := "${homeDir}/Work";
            sd_patterns := None;
            sd_templates := Some [ workNote ] |} ] ]}.

(** Settings with a scope that brings its own note patterns. *)
Definition scopedPatterns : Config :=
  {[ "ext" := SString ".md";
     "scopes" := SScopes
       [ {| sd_name := "work";
            sd_base := "${homeDir}/Work";
            sd_patterns := Some
              {| notes := Some {| path := Some "${homeDir}/${base}/${year}";
                                  file := Some "${input}-${day}.${ext}" |};
                 entries := Some {| path := Some ""; file := None |} |};
            sd_templates := None |} ] ]}.

(** Settings with the scopes setting as it ships: the empty object. *)
Definition noScopes : Config :=
  {[ "ext" := SString "md";
     "scopes" := SPatterns {| notes := None; entries := None |} ]}.

(** Settings whose path patterns double a separator. *)
Definition doubled : Config :=
  {[ "pattern" := SPatterns
       {| notes := Some {| path := Some "${base}//notes"; file := None |};
          entries := None |};
     "patterns" := SPatterns
       {| notes := None;
          entries := Some {| path := Some "${base}//entries"; file := None |} |} ]}.

Definition legacyNote : Config :=
  {[ "tpl-note" := SString "Title: {content}" ]}.

Definition noteInput (t : string) : Input.t :=
  {| Input.text := t; Input.tags := ["garden"; "todo"]; Input.scope := None |}.

End Sample.

(** ** Scopes, locale and the texts of the quick picker

    The remaining methods of the configuration layer. *)

Module Scopes.


End Scopes.

Module Locale.

(** A code unit given by its number, for the letters beyond ASCII. *)
Definition unit (n : nat) : string := String (ascii_of_nat n) "".

(** [getLocale()] *)
Definition getLocale (config : Config) : string :=
  match getString config "locale" with
  | Some locale => if (String.length locale =? 0)%nat then "en-US" else locale
  | None => "en-US"
  end.

(** An element of a template literal: an undefined value prints as the
    word undefined. *)
Definition interpolate (v : option string) : string := default "undefined" v.

(** [labels[i]]: an index past the end, or a hole of [new Array(4)], is
    undefined. *)
Definition label (labels : list (option string)) (i : nat) : option string :=
  labels !! i ≫= id.

Record CalendarFormat : Type := {
  sameDay : string;
  nextDay : string;
  nextWeek : string;
  lastDay : string;
  lastWeek : string;
  sameElse : string;
}.

(** The labels [getInputDetailsTimeFormat] picks for a locale. *)
Definition labelsFor (locale : string) : list (option string) :=
  if JS.startsWith "en" locale then
    [Some "for today"; Some "for tomorrow"; Some "for yesterday"; Some "last"]
  else if JS.startsWith "de" locale then
    [Some ("f" +:+ unit 252 +:+ "r heute"); Some ("f" +:+ unit 252 +:+ "r morgen");
     Some (" f" +:+ unit 252 +:+ "r gestern"); Some "letzten"]
  else if JS.startsWith "fr" locale then
    [Some "pour aujourd'hui"; Some "pour demain"; Some "d'hier"]
  else if JS.startsWith "es" locale then
    [Some "para hoy"; Some ("de ma" +:+ unit 241 +:+ "ana"); Some "de ayer";
     Some ("del " +:+ unit 250 +:+ "ltimo")]
  else replicate 4 None.

(** [getInputDetailsTimeFormat()] *)
Definition getInputDetailsTimeFormat (config : Config) : CalendarFormat :=
  let labels := labelsFor (getLocale config) in
  {| sameDay := "[" +:+ interpolate (label labels 0) +:+ "]";
     nextDay := "[" +:+ interpolate (label labels 1) +:+ "]";
     nextWeek := "dddd";
     lastDay := "[" +:+ interpolate (label labels 2) +:+ "]";
     lastWeek := "[" +:+ interpolate (label labels 3) +:+ "] dddd";
     sameElse := "DD/MM/YYYY" |}.

(** [getInputDetailsStringForEntry(dayAsString)] *)
Definition getInputDetailsStringForEntry (dayAsString : string) (config : Config) : string :=
  let locale := getLocale config in
  if JS.startsWith "en" locale then "Create or open entry " +:+ dayAsString
  else if JS.startsWith "de" locale then
    "Eintrag f" +:+ unit 252 +:+ "r " +:+ dayAsString +:+ " erstellen oder "
    +:+ unit 246 +:+ "ffnen"
  else if JS.startsWith "fr" locale then
    "Cr" +:+ unit 233 +:+ "er ou ouvrir une entr" +:+ unit 233 +:+ "e " +:+ dayAsString
  else if JS.startsWith "es" locale then "Crear o abrir una entrada  " +:+ dayAsString
  else "Create or open entry " +:+ dayAsString.

(** The two maps of translations the configuration object keeps; both are
    filled on first use. *)
Record Translations : Type := {
  labelTranslations : gmap string string;
  descTranslations : gmap string string;
}.

Definition fresh : Translations :=
  {| labelTranslations := ∅; descTranslations := ∅ |}.

Definition englishLabels : gmap string string :=
  <["en6" := "Select attachement"]>
    (<["en5" := "Select/Create a note"]>
       (<["en4" := "Select entry"]>
          (<["en3" := "Tomorrow"]>
             (<["en2" := "Yesterday"]>
                (<["en1" := "Today"]> ∅))))).

Definition englishDescriptions : gmap string string :=
  <["en6" := "Select from the list of recently added attachements."]>
    (<["en5" := "Create a new note or select from recently created or updated notes."]>
       (<["en4" := "Select from the last journal entries."]>
          (<["en3" := "Jump to tomorrow's entry."]>
             (<["en2" := "Jump to yesterday's entry."]>
                (<["en1" := "Jump to today's entry."]> ∅))))).

(** The key of a translation: the first two code units of the locale and
    the code, a whole number, in decimal. *)
Definition translationKey (config : Config) (code : Z) : string :=
  JS.substring 0 2 (getLocale config) +:+ pretty code.

(** [getInputLabelTranslation(code)], with the maps before and after. *)
Definition getInputLabelTranslation (code : Z) (config : Config) (st : Translations)
  : option string * Translations :=
  let labels :=
    if (size (labelTranslations st) =? 0)%nat then englishLabels
    else labelTranslations st in
  let val := labels !! translationKey config code in
  let val := match val with
             | None => labels !! ("en" +:+ pretty code)
             | Some _ => val
             end in
  (val, {| labelTranslations := labels; descTranslations := descTranslations st |}).

(** [getInputDetailsTranslation(code)]: the fall-back reads the map of
    the labels. *)
Definition getInputDetailsTranslation (code : Z) (config : Config) (st : Translations)
  : option string * Translations :=
  let descs :=
    if (size (descTranslations st) =? 0)%nat then englishDescriptions
    else descTranslations st in
  let val := descs !! translationKey config code in
  let val := match val with
             | None => labelTranslations st !! ("en" +:+ pretty code)
             | Some _ => val
             end in
  (val, {| labelTranslations := labelTranslations st; descTranslations := descs |}).

End Locale.

(** ** The journal class of the first versions

    The text [injectContent] inserts and the file name [createNote] builds;
    the memo templates and the date folders they use are not among the
    sources and stay parameters. *)

Module Journal.

(** The loop of [injectContent] that puts line feeds in front of the
    content: it runs while the counter differs from 0 and counts upwards.
    [fuel] bounds the number of rounds looked at; [None] means the loop has
    not come to its end within them. *)
Fixpoint prependLineBreaks (fuel : nat) (c : Z) (content : string) : option string :=
  if c =? 0 then Some content
  else match fuel with
       | O => None
       | S fuel' => prependLineBreaks fuel' (c + 1) (JS.LF +:+ content)
       end.

(** The text [injectContent(doc, pos, input)] hands to the edit, for the
    prepared content of the input. *)
Definition injectContentText (fuel : nat) (doc : TextDocument.t) (pos : Position.t)
    (content : string) : option string :=
  let c := Z.of_nat (Position.line pos) - Z.of_nat (TextDocument.lineCount doc) in
  content' ← (if 0 <? c then prependLineBreaks fuel c content else Some content);
  Some (content' +:+ JS.LF).

(** White space of a regular expression, among the code units up to 255. *)
Definition isWhiteSpace (c : ascii) : bool :=
  bool_decide (nat_of_ascii c ∈ [9; 10; 11; 12; 13; 32; 160]%nat).

(** The characters the second replacement of [createNote] turns into a
    dash: backslash, slash, angle brackets, colon, line feed, bar,
    question mark and star. *)
Definition isInvalidChar (c : ascii) : bool :=
  bool_decide (c ∈ ["\"; "/"; "<"; ">"; ":"; ascii_of_nat 10; "|"; "?"; "*"]%char).

(** [s.replace(pattern, by)] for a global pattern that matches single
    characters. *)
Fixpoint replaceEach (matches : ascii -> bool) (by_ : ascii) (s : string) : string :=
  match s with
  | EmptyString => ""
  | String c s' => String (if matches c then by_ else c) (replaceEach matches by_ s')
  end.

Definition isAlphaNum (c : ascii) : bool :=
  let n := nat_of_ascii c in
  ((48 <=? n) && (n <=? 57) || (65 <=? n) && (n <=? 90) || (97 <=? n) && (n <=? 122))%nat.

(** The characters [encodeURIComponent] leaves as they are. *)
Definition isUnreserved (c : ascii) : bool :=
  isAlphaNum c || bool_decide (c ∈ ["-"; "_"; "."; "!"; "~"; "*"; "'"; "("; ")"]%char).

Definition hexDigit (n : nat) : ascii :=
  ascii_of_nat (if (n <? 10)%nat then 48 + n else 55 + n).

Definition percent (byte : nat) : string :=
  String "%" (String (hexDigit (byte / 16)) (String (hexDigit (byte mod 16)) "")).

(** The escape of one code unit up to 255: its UTF-8 bytes, one below 128
    and two from there on. *)
Definition encodeUnit (c : ascii) : string :=
  let n := nat_of_ascii c in
  if isUnreserved c then String c ""
  else if (n <? 128)%nat then percent n
  else percent (192 + n / 64) +:+ percent (128 + n mod 64).

(** [encodeURIComponent(s)] *)
Fixpoint encodeURIComponent (s : string) : string :=
  match s with
  | EmptyString => ""
  | String c s' => encodeUnit c +:+ encodeURIComponent s'
  end.

(** The three statements of [createNote] that turn the entered name into
    the file name. *)
Definition cleanFileName (filename : string) : string :=
  let filename := replaceEach isWhiteSpace "_" filename in
  let filename := replaceEach isInvalidChar "-" filename in
  encodeURIComponent filename.

(** The characters a cleaned file name is made of. *)
Definition isFileNameChar (c : ascii) : bool :=
  isAlphaNum c || bool_decide (c ∈ ["-"; "_"; "."; "!"; "~"; "'"; "("; ")"; "%"]%char).

Fixpoint allChars (p : ascii -> bool) (s : string) : bool :=
  match s with
  | EmptyString => true
  | String c s' => p c && allChars p s'
  end.

End Journal.

(** ** Further sample settings *)

Module MoreSamples.

Definition office : ScopeDefinition :=
  {| sd_name := "work";
     sd_base := "${homeDir}/Office";
     sd_patterns := Some {| notes := None;
                            entries := Some {| path := Some "${base}/log";
                                               file := Some "${day}.${ext}" |} |};
     sd_templates := None |}.

Definition lab : ScopeDefinition :=
  {| sd_name := "work";
     sd_base := "${homeDir}/Lab";
     sd_patterns := Some {| notes := None;
                            entries := Some {| path := Some "${base}/${year}";
                                               file := Some "${month}-${day}.${ext}" |} |};
     sd_templates := None |}.

Definition home : ScopeDefinition :=
  {| sd_name := "private";
     sd_base := "${homeDir}/Diary";
     sd_patterns := None;
     sd_templates := None |}.

(** Two scope definitions of one name, and a third scope. *)
Definition twice : Config :=
  {[ "ext" := SString "md"; "scopes" := SScopes [office; home; lab] ]}.

Definition french : Config := {[ "locale" := SString "fr-FR" ]}.

Definition german : Config := {[ "locale" := SString "de-DE" ]}.

End MoreSamples.

(** * Properties *)

(** ** Strings *)

Section StringFacts.

Implicit Types s t u p : string.

Lemma app_nil_r s : s +:+ "" = s.
Proof. induction s as [|c s IH]; simpl; [done | by rewrite IH]. Qed.

Lemma app_assoc s t u : (s +:+ t) +:+ u = s +:+ (t +:+ u).
Proof. induction s as [|c s IH]; simpl; [done | by rewrite IH]. Qed.

Lemma length_app s t :
  String.length (s +:+ t) = (String.length s + String.length t)%nat.
Proof. induction s as [|c s IH]; simpl; [done | by rewrite IH]. Qed.

Lemma take_app s t : JS.take (String.length s) (s +:+ t) = s.
Proof. induction s as [|c s IH]; simpl; [by destruct t | by rewrite IH]. Qed.

Lemma drop_app s t : JS.drop (String.length s) (s +:+ t) = t.
Proof. induction s as [|c s IH]; simpl; [by destruct t | done]. Qed.

Lemma drop_add n s t :
  JS.drop (String.length s + n) (s +:+ t) = JS.drop n t.
Proof. induction s as [|c s IH]; simpl; done. Qed.

Lemma take_drop n s : JS.take n s +:+ JS.drop n s = s.
Proof.
  revert s; induction n as [|n IH]; intros [|c s]; simpl; try done.
  by rewrite IH.
Qed.

Lemma take_all s : JS.take (String.length s) s = s.
Proof. induction s as [|c s IH]; simpl; [done | by rewrite IH]. Qed.

Lemma startsWith_app p s : JS.startsWith p (p +:+ s) = true.
Proof.
  induction p as [|c p IH]; simpl; [done|].
  by rewrite decide_True.
Qed.

Lemma startsWith_inv p s :
  JS.startsWith p s = true -> s = p +:+ JS.drop (String.length p) s.
Proof.
  revert s; induction p as [|c p IH]; intros s H; simpl in *.
  - by destruct s.
  - destruct s as [|d s]; [done|].
    destruct (decide (c = d)) as [->|]; [|done].
    simpl. f_equal. by apply IH.
Qed.

(** A needle found at index [i] sits there, and nowhere before. *)
Lemma find_Some needle s i :
  JS.find needle s = Some i ->
  s = JS.take i s +:+ needle +:+ JS.drop (i + String.length needle) s.
Proof.
  revert i; induction s as [|c s IH]; intros i; simpl.
  - destruct (JS.startsWith needle "") eqn:E; [|done].
    intros [= <-]. destruct needle; [done | simpl in E; done].
  - destruct (JS.startsWith needle (String c s)) eqn:E.
    + intros [= <-]. simpl. by apply startsWith_inv in E.
    + destruct (JS.find needle s) as [j|] eqn:F; [|done].
      intros [= <-]. simpl. f_equal. by apply IH.
Qed.

Lemma find_startsWith needle s :
  JS.startsWith needle s = true -> JS.find needle s = Some 0%nat.
Proof. intros H. destruct s; simpl; by rewrite H. Qed.

Lemma indexOf_startsWith needle s :
  JS.startsWith needle s = true -> JS.indexOf needle s = 0.
Proof. intros H. unfold JS.indexOf. by rewrite find_startsWith. Qed.

(** A text without dollars is its own expansion as a replacement. *)
Lemma expand_dollarFree m b a r :
  JS.dollarFree r = true -> JS.expand m b a r = r.
Proof.
  induction r as [|c r IH]; simpl; [done|].
  destruct (decide (c = "$"%char)); [done|].
  intros H. by rewrite IH.
Qed.

Lemma dollarFree_app s t :
  JS.dollarFree (s +:+ t) = JS.dollarFree s && JS.dollarFree t.
Proof.
  induction s as [|c s IH]; simpl; [done|].
  by destruct (decide (c = "$"%char)).
Qed.

(** A needle that starts with a dollar is not found in dollar-free text,
    and is looked for behind such a text. *)
Lemma startsWith_dollar n s t c :
  JS.dollarFree (String c s) = true ->
  JS.startsWith (String "$" n) (String c s +:+ t) = false.
Proof.
  simpl. destruct (decide (c = "$"%char)) as [->|Hc]; [done|].
  intros _. rewrite decide_False; [done | congruence].
Qed.

Lemma find_behind n s t :
  JS.dollarFree s = true ->
  JS.find (String "$" n) (s +:+ t)
  = (fun i => (String.length s + i)%nat) <$> JS.find (String "$" n) t.
Proof.
  induction s as [|c s IH]; intros H.
  - simpl. by destruct (JS.find _ t).
  - pose proof (startsWith_dollar n s t c H) as E.
    change (String c s +:+ t) with (String c (s +:+ t)) in *.
    cbn [JS.find]. rewrite E.
    simpl in H. destruct (decide (c = "$"%char)); [done|].
    rewrite IH by done. by destruct (JS.find _ t).
Qed.

Lemma find_dollarFree n s :
  JS.dollarFree s = true -> JS.find (String "$" n) s = None.
Proof.
  intros H. rewrite <- (app_nil_r s), find_behind by done. done.
Qed.

Lemma replace_absent pat r s : JS.find pat s = None -> JS.replace pat r s = s.
Proof. unfold JS.replace. by intros ->. Qed.

Lemma replace_at pat r pre post :
  JS.find pat (pre +:+ pat +:+ post) = Some (String.length pre) ->
  JS.dollarFree r = true ->
  JS.replace pat r (pre +:+ pat +:+ post) = pre +:+ r +:+ post.
Proof.
  intros F D. unfold JS.replace. rewrite F.
  rewrite take_app, expand_dollarFree by done.
  by rewrite drop_add, drop_app.
Qed.

End StringFacts.

(** ** Anchors: [buildInlineString] *)

Lemma indexOf_range needle s : -1 <= JS.indexOf needle s.
Proof. unfold JS.indexOf. destruct (JS.find needle s); lia. Qed.

(** The place [buildInlineString] inserts at, when it resolves. *)
Lemma buildInlineString_position doc (tpl : InlineTemplate) values v anchor :
  value tpl = Some v ->
  after tpl = Some anchor ->
  exists content,
    Inject.buildInlineString doc tpl values
    = Ok {| InlineString.position :=
              Some (if (0 <? String.length anchor)%nat
                       && (0 <? JS.indexOf anchor (TextDocument.text doc))
                    then Position.translate 1
                           (TextDocument.validatePosition doc
                              (TextDocument.positionAt doc
                                 (JS.indexOf anchor (TextDocument.text doc))))
                    else Inject.line1);
            InlineString.value := content;
            InlineString.document := doc |}.
Proof.
  intros Hv Ha. unfold Inject.buildInlineString. rewrite Hv, Ha.
  destruct anchor as [|c anchor]; simpl; eauto.
Qed.

(** C6: a template with a non-empty anchor that does not occur in the
    document resolves, without any rejection, to an insertion at line 1,
    column 0 of the document, with the content built as usual (the values
    replaced in the template's value, a line feed put first when the
    anchor starts with a hash). *)
Theorem buildInlineString_anchor_absent doc (tpl : InlineTemplate) values v anchor :
  value tpl = Some v ->
  after tpl = Some anchor ->
  anchor <> "" ->
  JS.indexOf anchor (TextDocument.text doc) = -1 ->
  Inject.buildInlineString doc tpl values
  = Ok {| InlineString.position :=
            Some {| Position.line := 1; Position.character := 0 |};
          InlineString.value :=
            (if JS.startsWith "#" anchor then JS.LF else "")
            +:+ Inject.replaceValues v values;
          InlineString.document := doc |}.
Proof.
  intros Hv Ha Hne Hoff. unfold Inject.buildInlineString.
  rewrite Hv, Ha, Hoff.
  destruct anchor as [|c anchor]; [done|].
  cbn [String.length Nat.eqb negb Z.ltb Z.compare].
  by destruct (JS.startsWith "#" (String c anchor)).
Qed.

Lemma buildInlineString_anchor_absent_witness :
  Inject.buildInlineString Sample.journalPage
    (Sample.mkTemplate "- [ ] ${input}" "## Memos") [("${input}", "call the plumber")]
  = Ok {| InlineString.position :=
            Some {| Position.line := 1; Position.character := 0 |};
          InlineString.value := JS.LF +:+ "- [ ] call the plumber";
          InlineString.document := Sample.journalPage |}.
Proof.
  apply (buildInlineString_anchor_absent Sample.journalPage
           (Sample.mkTemplate "- [ ] ${input}" "## Memos")
           [("${input}", "call the plumber")] "- [ ] ${input}" "## Memos"
           eq_refl eq_refl); [done | vm_compute; reflexivity].
Defined.

(** C10: when the document begins with the anchor text, so that the first
    occurrence of the anchor is at offset 0, the insertion stays at line 1,
    column 0; the line below the anchor is taken only for an offset that
    is strictly positive. *)
Theorem buildInlineString_anchor_at_start doc (tpl : InlineTemplate) values v anchor :
  value tpl = Some v ->
  after tpl = Some anchor ->
  anchor <> "" ->
  JS.startsWith anchor (TextDocument.text doc) = true ->
  JS.indexOf anchor (TextDocument.text doc) = 0 /\
  Inject.buildInlineString doc tpl values
  = Ok {| InlineString.position :=
            Some {| Position.line := 1; Position.character := 0 |};
          InlineString.value :=
            (if JS.startsWith "#" anchor then JS.LF else "")
            +:+ Inject.replaceValues v values;
          InlineString.document := doc |}.
Proof.
  intros Hv Ha Hne Hst.
  pose proof (indexOf_startsWith _ _ Hst) as Hoff. split; [done|].
  unfold Inject.buildInlineString. rewrite Hv, Ha, Hoff.
  destruct anchor as [|c anchor]; [done|].
  cbn [String.length Nat.eqb negb Z.ltb Z.compare].
  by destruct (JS.startsWith "#" (String c anchor)).
Qed.

Lemma buildInlineString_anchor_at_start_witness :
  JS.indexOf "# Monday" (TextDocument.text Sample.journalPage) = 0 /\
  Inject.buildInlineString Sample.journalPage
    (Sample.mkTemplate "- [ ] ${input}" "# Monday") [("${input}", "call the plumber")]
  = Ok {| InlineString.position :=
            Some {| Position.line := 1; Position.character := 0 |};
          InlineString.value := JS.LF +:+ "- [ ] call the plumber";
          InlineString.document := Sample.journalPage |}.
Proof.
  apply (buildInlineString_anchor_at_start Sample.journalPage
           (Sample.mkTemplate "- [ ] ${input}" "# Monday")
           [("${input}", "call the plumber")] "- [ ] ${input}" "# Monday"
           eq_refl eq_refl); [done | vm_compute; reflexivity].
Defined.

(** An anchor found further down puts the insertion one line below it. *)
Example buildInlineString_anchor_found :
  InlineString.position <$>
    (match Inject.buildInlineString Sample.journalPage
             (Sample.mkTemplate "- [ ] ${input}" "## Tasks") [] with
     | Ok r => Some r | Err _ => None end)
  = Some (Some {| Position.line := 3; Position.character := 0 |}).
Proof. vm_compute. reflexivity. Qed.

(** ** Literal variables: [replaceVariableValue] *)

Section LiteralKeys.

Implicit Types key s t : string.

Lemma plain_char c :
  RegExp.isSyntaxChar c = false ->
  c <> "\"%char /\ c <> "."%char /\ c <> "*"%char /\ c <> "+"%char /\ c <> "?"%char.
Proof.
  unfold RegExp.isSyntaxChar. intros H%bool_decide_eq_false.
  repeat split; intros ->; apply H; set_solver.
Qed.

Lemma lex_plain key rest :
  RegExp.plain key = true ->
  RegExp.lex false (key +:+ rest)
  = (fun ts => RegExp.atoms key ++ ts) <$> RegExp.lex false rest.
Proof.
  induction key as [|c key IH]; intros H.
  - simpl. by destruct (RegExp.lex false rest).
  - simpl in H. apply andb_true_iff in H as [Hc Hk].
    apply negb_true_iff in Hc.
    destruct (plain_char c Hc) as (H1 & H2 & H3 & H4 & H5).
    simpl. rewrite !decide_False, Hc, IH by done.
    by destruct (RegExp.lex false rest).
Qed.

Lemma atoms_app s t : RegExp.atoms (s +:+ t) = RegExp.atoms s ++ RegExp.atoms t.
Proof. induction s as [|c s IH]; simpl; [done | by rewrite IH]. Qed.

Lemma group_atoms s : RegExp.group (RegExp.atoms s) = Some (RegExp.literal s).
Proof.
  induction s as [|c s IH]; [done|].
  cbn [RegExp.atoms RegExp.group RegExp.literal].
  destruct s as [|d s]; [done|].
  cbn [RegExp.atoms] in *. by rewrite IH.
Qed.

Lemma compile_key key :
  RegExp.plain key = true ->
  RegExp.compile ("\$\{" +:+ key +:+ "\}")
  = Some (RegExp.literal ("${" +:+ key +:+ "}")).
Proof.
  intros H. unfold RegExp.compile.
  assert (RegExp.lex false ("\$\{" +:+ key +:+ "\}")
          = Some (RegExp.atoms ("${" +:+ key +:+ "}"))) as ->.
  { change (RegExp.lex false ("\$\{" +:+ key +:+ "\}"))
      with ((fun ts => RegExp.TAtom (RegExp.AChar "$") :: ts) <$>
            ((fun ts => RegExp.TAtom (RegExp.AChar "{") :: ts) <$>
             RegExp.lex false (key +:+ "\}"))).
    rewrite lex_plain by done. simpl.
    by rewrite atoms_app. }
  cbn [mbind option_bind]. apply group_atoms.
Qed.

Lemma matchHere_literal s t :
  RegExp.matchHere (RegExp.literal s) t = JS.startsWith s t.
Proof.
  revert t; induction s as [|c s IH]; intros t; [done|].
  cbn [RegExp.literal RegExp.matchHere JS.startsWith].
  destruct t as [|d t]; [done|].
  rewrite IH. unfold RegExp.atomMatches.
  destruct (decide (c = d)) as [->|Hne].
  - by rewrite bool_decide_eq_true_2.
  - by rewrite bool_decide_eq_false_2 by congruence.
Qed.

Lemma searchFrom_literal s t :
  RegExp.searchFrom (RegExp.literal s) t = JS.find s t.
Proof.
  induction t as [|d t IH]; simpl; rewrite matchHere_literal; [done|].
  by rewrite IH.
Qed.

Lemma search_key key t :
  RegExp.plain key = true ->
  RegExp.search ("\$\{" +:+ key +:+ "\}") t
  = Some (JS.indexOf ("${" +:+ key +:+ "}") t).
Proof.
  intros H. unfold RegExp.search. rewrite compile_key by done.
  cbn [mbind option_bind]. by rewrite searchFrom_literal.
Qed.

(** For a name of ordinary characters the guard and the replacement look
    for the same text. *)
Lemma replaceVariableValue_plain key value template :
  RegExp.plain key = true ->
  Conf.replaceVariableValue key value template
  = Ok (JS.replace ("${" +:+ key +:+ "}") value template).
Proof.
  intros H. unfold Conf.replaceVariableValue. rewrite search_key by done.
  unfold JS.indexOf, JS.replace.
  destruct (JS.find _ template) as [i|]; [|done].
  by rewrite (proj2 (Z.leb_le 0 (Z.of_nat i))) by lia.
Qed.

Lemma find_first needle s i :
  JS.find needle s = Some i ->
  forall j, (j < i)%nat -> JS.startsWith needle (JS.drop j s) = false.
Proof.
  revert i; induction s as [|c s IH]; intros i; simpl.
  - destruct (JS.startsWith needle ""); [|done]. intros [= <-] j Hj. lia.
  - destruct (JS.startsWith needle (String c s)) eqn:E.
    + intros [= <-] j Hj. lia.
    + destruct (JS.find needle s) as [k|] eqn:F; [|done].
      intros [= <-] [|j] Hj; simpl; [done|].
      apply (IH k eq_refl). lia.
Qed.

End LiteralKeys.

(** C5, as the code has it: for a key of ordinary characters (none that is
    special in a regular expression, as with homeDir, base, ext and input)
    and a value without a dollar sign, the substitution replaces the first
    occurrence of the variable by the value and leaves everything behind
    it, later occurrences included, as it is; a template without the
    variable is returned unchanged. *)
Theorem replaceVariableValue_first_only key value template :
  RegExp.plain key = true ->
  JS.dollarFree value = true ->
  match JS.find ("${" +:+ key +:+ "}") template with
  | Some i =>
      let before := JS.take i template in
      let behind := JS.drop (i + String.length ("${" +:+ key +:+ "}")) template in
      template = before +:+ ("${" +:+ key +:+ "}") +:+ behind /\
      (forall j, (j < i)%nat ->
         JS.startsWith ("${" +:+ key +:+ "}") (JS.drop j template) = false) /\
      Conf.replaceVariableValue key value template = Ok (before +:+ value +:+ behind)
  | None => Conf.replaceVariableValue key value template = Ok template
  end.
Proof.
  intros Hk Hv. rewrite replaceVariableValue_plain by done.
  unfold JS.replace.
  destruct (JS.find _ template) as [i|] eqn:F; [|done].
  cbn zeta. split; [by apply find_Some|]. split; [by apply find_first|].
  by rewrite expand_dollarFree.
Qed.

Lemma replaceVariableValue_first_only_witness :
  "${base}/${year}/${base}" = "" +:+ "${base}" +:+ "/${year}/${base}" /\
  (forall j, (j < 0)%nat ->
     JS.startsWith "${base}" (JS.drop j "${base}/${year}/${base}") = false) /\
  Conf.replaceVariableValue "base" "/home/ada/Journal" "${base}/${year}/${base}"
  = Ok ("" +:+ "/home/ada/Journal" +:+ "/${year}/${base}").
Proof.
  exact (replaceVariableValue_first_only "base" "/home/ada/Journal"
           "${base}/${year}/${base}" eq_refl eq_refl).
Defined.

(** The claim of C5 for every key and value fails: a key with a quantifier
    makes the guard miss the variable that is there, and a value with a
    replacement pattern is not inserted as it is. *)
Lemma replaceVariableValue_not_every_key_and_value :
  (JS.find "${a+}" "${a+}/notes" = Some 0%nat /\
   Conf.replaceVariableValue "a+" "x" "${a+}/notes" = Ok "${a+}/notes") /\
  (JS.find "${input}" "N_${input}.md" = Some 2%nat /\
   Conf.replaceVariableValue "input" "$&" "N_${input}.md" = Ok "N_${input}.md").
Proof. vm_compute. done. Qed.

(** ** Pattern resolvers *)

Section Resolvers.

Context `{P : Platform}.

Lemma orDefault_not_empty definition fallback :
  fallback <> "" -> Conf.orDefault definition fallback <> "".
Proof.
  intros H. unfold Conf.orDefault.
  destruct definition as [[|c d]|]; simpl; done.
Qed.

(** The override is used exactly when it is there and not empty. *)
Lemma orDefault_override definition fallback d :
  definition = Some d -> d <> "" -> Conf.orDefault definition fallback = d.
Proof. intros -> H. by destruct d. Qed.

Lemma notAnArray_scopes config key l :
  getScopeDefinitions config key = Some l -> notAnArray config key = false.
Proof.
  unfold getScopeDefinitions, notAnArray.
  by destruct (config !! key) as [[]|].
Qed.

Lemma notAnArray_templates config key l :
  getInlineTemplates config key = Some l -> notAnArray config key = false.
Proof.
  unfold getInlineTemplates, notAnArray.
  by destruct (config !! key) as [[]|].
Qed.

Lemma notAnArray_missing (config : Config) key :
  config !! key = None -> notAnArray config key = false.
Proof. unfold notAnArray. by intros ->. Qed.

(** The look-up of a scope goes through or raises the error of [filter];
    it goes through in the default scope and wherever the base path of
    the scope resolves. *)
Lemma scopedLookUp_cases _scopeId config :
  Conf.scopedLookUp _scopeId config = Ok tt \/
  (Conf.scopedLookUp _scopeId config = Err Conf.filterError /\
   Conf.resolveScope _scopeId <> Conf.SCOPE_DEFAULT /\
   notAnArray config "scopes" = true).
Proof.
  unfold Conf.scopedLookUp. case_bool_decide; [by left|].
  destruct (notAnArray config "scopes"); [by right | by left].
Qed.

Lemma scopedLookUp_default _scopeId config :
  Conf.resolveScope _scopeId = Conf.SCOPE_DEFAULT ->
  Conf.scopedLookUp _scopeId config = Ok tt.
Proof. intros H. unfold Conf.scopedLookUp. by rewrite bool_decide_eq_true_2. Qed.

Lemma scopedLookUp_array _scopeId config :
  notAnArray config "scopes" = false ->
  Conf.scopedLookUp _scopeId config = Ok tt.
Proof. intros H. unfold Conf.scopedLookUp. rewrite H. by case_bool_decide. Qed.

Lemma scopedLookUp_basePath _scopeId config base :
  Conf.getBasePath _scopeId config = Ok base ->
  Conf.scopedLookUp _scopeId config = Ok tt.
Proof.
  unfold Conf.getBasePath, Conf.scopedLookUp.
  destruct (decide _) as [->|Hn]; [by rewrite bool_decide_eq_true_2|].
  rewrite bool_decide_eq_false_2 by done.
  by destruct (notAnArray config "scopes").
Qed.

Lemma getNotesPathPattern_value date _scopeId config base :
  Conf.getBasePath _scopeId config = Ok base ->
  let t := Conf.orDefault (Conf.notesPathDefinition _scopeId config)
             Conf.DefaultPatternDefinition.notes.path in
  Conf.getNotesPathPattern date _scopeId config
  = Ok {| name := None;
          scope := Conf.recordedScope _scopeId;
          template := Some t;
          value := Some (Conf.replaceDateFormats
                           (JS.replace "${base}" base
                              (JS.replace "${homeDir}" homedir t)) date) |}.
Proof.
  intros Hb t. unfold Conf.getNotesPathPattern. fold t.
  rewrite (scopedLookUp_basePath _ _ _ Hb). cbn [bind].
  rewrite !replaceVariableValue_plain by reflexivity.
  cbn [bind]. rewrite Hb. cbn [bind].
  by rewrite replaceVariableValue_plain by reflexivity.
Qed.

Lemma getEntryPathPattern_value date _scopeId config base :
  Conf.getBasePath _scopeId config = Ok base ->
  let t := Conf.orDefault (Conf.entryPathDefinition _scopeId config)
             Conf.DefaultPatternDefinition.entries.path in
  Conf.getEntryPathPattern date _scopeId config
  = Ok {| name := None;
          scope := Conf.recordedScope _scopeId;
          template := Some t;
          value := Some (pathNormalize
                           (Conf.replaceDateFormats
                              (JS.replace "${base}" base t) date)) |}.
Proof.
  intros Hb t. unfold Conf.getEntryPathPattern. fold t.
  rewrite (scopedLookUp_basePath _ _ _ Hb). cbn [bind].
  rewrite Hb. cbn [bind].
  by rewrite replaceVariableValue_plain by reflexivity.
Qed.

Lemma getNotesFilePattern_value date input _scopeId config ext :
  Conf.scopedLookUp _scopeId config = Ok tt ->
  Conf.getFileExtension config = Ok ext ->
  let t := Conf.orDefault (Conf.notesFileDefinition _scopeId config)
             Conf.DefaultPatternDefinition.notes.file in
  Conf.getNotesFilePattern date input _scopeId config
  = Ok {| name := None;
          scope := Conf.recordedScope _scopeId;
          template := Some t;
          value := Some (Conf.replaceDateFormats
                           (JS.replace "${input}" input
                              (JS.replace "${ext}" ext t)) date) |}.
Proof.
  intros Hl He t. unfold Conf.getNotesFilePattern. fold t.
  rewrite Hl. cbn [bind]. rewrite He. cbn [bind].
  rewrite replaceVariableValue_plain by reflexivity. cbn [bind].
  by rewrite replaceVariableValue_plain by reflexivity.
Qed.

Lemma getEntryFilePattern_value date _scopeId config ext :
  Conf.scopedLookUp _scopeId config = Ok tt ->
  Conf.getFileExtension config = Ok ext ->
  let t := Conf.orDefault (Conf.entryFileDefinition _scopeId config)
             Conf.DefaultPatternDefinition.entries.file in
  Conf.getEntryFilePattern date _scopeId config
  = Ok {| name := None;
          scope := Conf.recordedScope _scopeId;
          template := Some t;
          value := Some (Conf.replaceDateFormats
                           (JS.replace "${ext}" ext t) date) |}.
Proof.
  intros Hl He t. unfold Conf.getEntryFilePattern. fold t.
  rewrite Hl. cbn [bind]. rewrite He. cbn [bind].
  by rewrite !replaceVariableValue_plain by reflexivity.
Qed.

(** X8: the pattern a resolver hands back is never the empty string: an
    empty or missing setting gives way to the default pattern. *)
Lemma resolved_pattern_not_empty date input _scopeId config st :
  Conf.getNotesPathPattern date _scopeId config = Ok st \/
  Conf.getNotesFilePattern date input _scopeId config = Ok st \/
  Conf.getEntryPathPattern date _scopeId config = Ok st \/
  Conf.getEntryFilePattern date _scopeId config = Ok st ->
  exists t, template st = Some t /\ t <> "".
Proof.
  destruct (scopedLookUp_cases _scopeId config) as [Hl|(Hl & _)].
  2:{ unfold Conf.getNotesPathPattern, Conf.getNotesFilePattern,
        Conf.getEntryPathPattern, Conf.getEntryFilePattern.
      rewrite Hl. cbn [bind]. by intros [H|[H|[H|H]]]. }
  intros [H|[H|[H|H]]].
  - destruct (Conf.getBasePath _scopeId config) as [base|e] eqn:Hb.
    + rewrite (getNotesPathPattern_value _ _ _ _ Hb) in H.
      injection H as <-. eexists; split; [done|]. by apply orDefault_not_empty.
    + unfold Conf.getNotesPathPattern in H. rewrite Hl in H. cbn [bind] in H.
      rewrite replaceVariableValue_plain in H by reflexivity.
      cbn [bind] in H. by rewrite Hb in H.
  - destruct (Conf.getFileExtension config) as [ext|e] eqn:He.
    + rewrite (getNotesFilePattern_value _ _ _ _ _ Hl He) in H.
      injection H as <-. eexists; split; [done|]. by apply orDefault_not_empty.
    + unfold Conf.getNotesFilePattern in H. rewrite Hl in H. cbn [bind] in H.
      by rewrite He in H.
  - destruct (Conf.getBasePath _scopeId config) as [base|e] eqn:Hb.
    + rewrite (getEntryPathPattern_value _ _ _ _ Hb) in H.
      injection H as <-. eexists; split; [done|]. by apply orDefault_not_empty.
    + unfold Conf.getEntryPathPattern in H. rewrite Hl in H. cbn [bind] in H.
      by rewrite Hb in H.
  - destruct (Conf.getFileExtension config) as [ext|e] eqn:He.
    + rewrite (getEntryFilePattern_value _ _ _ _ Hl He) in H.
      injection H as <-. eexists; split; [done|]. by apply orDefault_not_empty.
    + unfold Conf.getEntryFilePattern in H. rewrite Hl in H. cbn [bind] in H.
      by rewrite He in H.
Qed.

(** The base path resolves in the default scope, and in any scope once
    the scopes setting is there. *)
Lemma getBasePath_default _scopeId config :
  Conf.resolveScope _scopeId = Conf.SCOPE_DEFAULT ->
  Conf.getBasePath _scopeId config = Ok (Conf.defaultBasePath config).
Proof. intros H. unfold Conf.getBasePath. by rewrite H, decide_True. Qed.

Lemma getBasePath_scoped _scopeId config scopes :
  getScopeDefinitions config "scopes" = Some scopes ->
  exists base, Conf.getBasePath _scopeId config = Ok base.
Proof.
  intros H. unfold Conf.getBasePath. rewrite (notAnArray_scopes _ _ _ H), H.
  destruct (decide _); [eauto|].
  destruct (_ <$> _); eauto.
Qed.

End Resolvers.

(** C1, where the code departs from it: in the default scope the two note
    resolvers read the setting named pattern, while the entry resolvers
    and the scope definitions hold the patterns under patterns.  With no
    setting named pattern, the note path and the note file resolve to the
    built-in patterns whatever patterns the settings configure. *)
Theorem notes_patterns_not_read `{P : Platform} date input _scopeId (config : Config) :
  Conf.resolveScope _scopeId = Conf.SCOPE_DEFAULT ->
  config !! "pattern" = None ->
  (exists st,
     Conf.getNotesPathPattern date _scopeId config = Ok st /\
     template st = Some "${base}/notes") /\
  (forall ext, Conf.getFileExtension config = Ok ext ->
     exists st,
       Conf.getNotesFilePattern date input _scopeId config = Ok st /\
       template st = Some "N${year}${month}${day}_${input}.${ext}").
Proof.
  intros Hs Hp.
  assert (Conf.notesPathDefinition _scopeId config = None) as Hpath.
  { unfold Conf.notesPathDefinition, getPatternDefinition.
    by rewrite Hs, Hp. }
  assert (Conf.notesFileDefinition _scopeId config = None) as Hfile.
  { unfold Conf.notesFileDefinition, getPatternDefinition.
    by rewrite Hs, Hp. }
  split.
  - eexists. split.
    + apply getNotesPathPattern_value, getBasePath_default, Hs.
    + by rewrite Hpath.
  - intros ext He. eexists. split.
    + by apply getNotesFilePattern_value; [apply scopedLookUp_default|].
    + by rewrite Hfile.
Qed.

Lemma notes_patterns_not_read_witness :
  ((getPatternDefinition Sample.overridden "patterns" ≫= notes) ≫= path
   = Some "${base}/my-notes" /\
   (getPatternDefinition Sample.overridden "patterns" ≫= notes) ≫= file
   = Some "${input}.${ext}") /\
  (exists st,
     Conf.getNotesPathPattern (P := Sample.posix) Sample.today None Sample.overridden = Ok st /\
     template st = Some "${base}/notes") /\
  (forall ext, Conf.getFileExtension Sample.overridden = Ok ext ->
     exists st,
       Conf.getNotesFilePattern (P := Sample.posix) Sample.today "ideas" None
         Sample.overridden = Ok st /\
       template st = Some "N${year}${month}${day}_${input}.${ext}").
Proof.
  split; [by vm_compute|].
  apply (notes_patterns_not_read (P := Sample.posix) Sample.today "ideas" None
           Sample.overridden); [reflexivity | by vm_compute].
Defined.

(** The entry resolvers do honour the patterns of the same settings. *)
Example entry_patterns_read :
  template <$> (match Conf.getEntryPathPattern (P := Sample.posix) Sample.today None
                        Sample.overridden with Ok st => Some st | Err _ => None end)
  = Some (Some "${homeDir}/diary//${year}") /\
  template <$> (match Conf.getEntryFilePattern (P := Sample.posix) Sample.today None
                        Sample.overridden with Ok st => Some st | Err _ => None end)
  = Some (Some "${day}.${ext}").
Proof. by vm_compute. Qed.

(** In every scope the entry resolvers, and in a requested scope the note
    resolvers as well, use the configured pattern when it is there and not
    empty. *)
Lemma entry_path_override `{P : Platform} date _scopeId (config : Config) base d :
  Conf.getBasePath _scopeId config = Ok base ->
  Conf.entryPathDefinition _scopeId config = Some d ->
  d <> "" ->
  exists st,
    Conf.getEntryPathPattern date _scopeId config = Ok st /\ template st = Some d.
Proof.
  intros Hb Hd Hne. eexists. split; [by apply getEntryPathPattern_value|].
  cbn [template]. f_equal. by apply orDefault_override.
Qed.

Lemma notes_path_override `{P : Platform} date _scopeId (config : Config) base d :
  Conf.getBasePath _scopeId config = Ok base ->
  Conf.notesPathDefinition _scopeId config = Some d ->
  d <> "" ->
  exists st,
    Conf.getNotesPathPattern date _scopeId config = Ok st /\ template st = Some d.
Proof.
  intros Hb Hd Hne. eexists. split; [by apply getNotesPathPattern_value|].
  cbn [template]. f_equal. by apply orDefault_override.
Qed.

(** C7, as the code has it: the note path substitutes homeDir, then base,
    then the date tokens; the entry path substitutes base, then the date
    tokens (and normalizes), without homeDir; the note file substitutes
    ext, then input, then the date tokens; the entry file substitutes ext,
    then the date tokens, without input. *)
Theorem substitution_order `{P : Platform} date input _scopeId (config : Config) base ext :
  Conf.getBasePath _scopeId config = Ok base ->
  Conf.getFileExtension config = Ok ext ->
  let notePath := Conf.orDefault (Conf.notesPathDefinition _scopeId config) "${base}/notes" in
  let entryPath := Conf.orDefault (Conf.entryPathDefinition _scopeId config) "${base}/entries" in
  let noteFile :=
    Conf.orDefault (Conf.notesFileDefinition _scopeId config)
      "N${year}${month}${day}_${input}.${ext}" in
  let entryFile :=
    Conf.orDefault (Conf.entryFileDefinition _scopeId config)
      "${year}-${month}-${day} ${weekday}.${ext}" in
  Conf.getNotesPathPattern date _scopeId config
  = Ok {| name := None; scope := Conf.recordedScope _scopeId;
          template := Some notePath;
          value := Some (Conf.replaceDateFormats
                           (JS.replace "${base}" base
                              (JS.replace "${homeDir}" homedir notePath)) date) |} /\
  Conf.getEntryPathPattern date _scopeId config
  = Ok {| name := None; scope := Conf.recordedScope _scopeId;
          template := Some entryPath;
          value := Some (pathNormalize
                           (Conf.replaceDateFormats
                              (JS.replace "${base}" base entryPath) date)) |} /\
  Conf.getNotesFilePattern date input _scopeId config
  = Ok {| name := None; scope := Conf.recordedScope _scopeId;
          template := Some noteFile;
          value := Some (Conf.replaceDateFormats
                           (JS.replace "${input}" input
                              (JS.replace "${ext}" ext noteFile)) date) |} /\
  Conf.getEntryFilePattern date _scopeId config
  = Ok {| name := None; scope := Conf.recordedScope _scopeId;
          template := Some entryFile;
          value := Some (Conf.replaceDateFormats
                           (JS.replace "${ext}" ext entryFile) date) |}.
Proof.
  intros Hb He. cbn zeta. repeat split.
  - by apply getNotesPathPattern_value.
  - by apply getEntryPathPattern_value.
  - apply getNotesFilePattern_value; [by eapply scopedLookUp_basePath | done].
  - apply getEntryFilePattern_value; [by eapply scopedLookUp_basePath | done].
Qed.

Lemma substitution_order_witness :
  Conf.getNotesPathPattern (P := Sample.posix) Sample.today (Some "work") Sample.scopedPatterns
  = Ok {| name := None; scope := Some "work";
          template := Some "${homeDir}/${base}/${year}";
          value := Some "/home/ada//home/ada/Work/2026" |} /\
  Conf.getEntryPathPattern (P := Sample.posix) Sample.today (Some "work") Sample.scopedPatterns
  = Ok {| name := None; scope := Some "work";
          template := Some "${base}/entries";
          value := Some "/home/ada/Work/entries" |} /\
  Conf.getNotesFilePattern (P := Sample.posix) Sample.today "ideas" (Some "work")
    Sample.scopedPatterns
  = Ok {| name := None; scope := Some "work";
          template := Some "${input}-${day}.${ext}";
          value := Some "ideas-02.md" |} /\
  Conf.getEntryFilePattern (P := Sample.posix) Sample.today (Some "work") Sample.scopedPatterns
  = Ok {| name := None; scope := Some "work";
          template := Some "${year}-${month}-${day} ${weekday}.${ext}";
          value := Some "2026-11-02 Monday.md" |}.
Proof.
  exact (substitution_order (P := Sample.posix) Sample.today "ideas" (Some "work")
           Sample.scopedPatterns "/home/ada/Work" "md" eq_refl eq_refl).
Defined.

(** The claim of C7 for every path resolver fails: the entry path leaves
    the homeDir variable of its pattern as it is, where substituting
    homeDir, base and the date tokens would have resolved it. *)
Lemma entry_path_leaves_homeDir :
  exists st,
    Conf.getEntryPathPattern (P := Sample.posix) Sample.today None Sample.overridden = Ok st /\
    template st = Some "${homeDir}/diary//${year}" /\
    value st = Some "${homeDir}/diary/2026" /\
    value st <>
      Some (Sample.collapse
              (Conf.replaceDateFormats (P := Sample.posix)
                 (JS.replace "${base}" "/home/ada/Journal"
                    (JS.replace "${homeDir}" "/home/ada" "${homeDir}/diary//${year}"))
                 Sample.today)).
Proof. eexists. split; [by vm_compute|]. by vm_compute. Qed.

(** C9: once the base path is resolved, the entry path is the normalized
    form of the substituted pattern, and the note path is the substituted
    pattern itself, not normalized. *)
Theorem entry_path_normalized_note_path_not `{P : Platform} date _scopeId
    (config : Config) base :
  Conf.getBasePath _scopeId config = Ok base ->
  let entryPath := Conf.orDefault (Conf.entryPathDefinition _scopeId config) "${base}/entries" in
  let notePath := Conf.orDefault (Conf.notesPathDefinition _scopeId config) "${base}/notes" in
  Conf.getEntryPathPattern date _scopeId config
  = Ok {| name := None; scope := Conf.recordedScope _scopeId;
          template := Some entryPath;
          value := Some (pathNormalize
                           (Conf.replaceDateFormats
                              (JS.replace "${base}" base entryPath) date)) |} /\
  Conf.getNotesPathPattern date _scopeId config
  = Ok {| name := None; scope := Conf.recordedScope _scopeId;
          template := Some notePath;
          value := Some (Conf.replaceDateFormats
                           (JS.replace "${base}" base
                              (JS.replace "${homeDir}" homedir notePath)) date) |}.
Proof.
  intros Hb. cbn zeta. split.
  - by apply getEntryPathPattern_value.
  - by apply getNotesPathPattern_value.
Qed.

(** With a separator doubled in both patterns, the entry path comes out
    with a single separator and the note path keeps the two. *)
Lemma entry_path_normalized_note_path_not_witness :
  Conf.getEntryPathPattern (P := Sample.posix) Sample.today None Sample.doubled
  = Ok {| name := None; scope := Some "default";
          template := Some "${base}//entries";
          value := Some "/home/ada/Journal/entries" |} /\
  Conf.getNotesPathPattern (P := Sample.posix) Sample.today None Sample.doubled
  = Ok {| name := None; scope := Some "default";
          template := Some "${base}//notes";
          value := Some "/home/ada/Journal//notes" |}.
Proof.
  exact (entry_path_normalized_note_path_not (P := Sample.posix) Sample.today None
           Sample.doubled "/home/ada/Journal" eq_refl).
Defined.

(** ** Inline templates *)

(** The first tier: a legacy setting that is a non-empty string. *)
Lemma getInlineTemplate_legacy _id _defaultValue _scopeId (config : Config) t :
  getString config ("tpl-" +:+ _id) = Some t ->
  t <> "" ->
  exists tpl,
    Conf.getInlineTemplate _id _defaultValue _scopeId config = Ok tpl /\
    template tpl = Some t.
Proof.
  intros Ht Hne. unfold Conf.getInlineTemplate. rewrite Ht.
  destruct t as [|c t]; [done|]. simpl. eauto.
Qed.

(** The second tier in the default scope: the last template of that name
    in the templates setting. *)
Lemma getInlineTemplate_named _id _defaultValue _scopeId (config : Config) l tpl :
  stringIsNotEmpty (getString config ("tpl-" +:+ _id)) = false ->
  Conf.resolveScope (Some _scopeId) = Conf.SCOPE_DEFAULT ->
  getInlineTemplates config "templates" = Some l ->
  last (filter (fun tpl : InlineTemplate => name tpl = Some _id) l) = Some tpl ->
  exists r,
    Conf.getInlineTemplate _id _defaultValue _scopeId config = Ok r /\
    scoped r = scoped tpl.
Proof.
  intros Hl Hs Ht Hlast. unfold Conf.getInlineTemplate, Conf.namedTemplate.
  rewrite Hl, Hs, decide_True, (notAnArray_templates _ _ _ Ht), Ht by done.
  cbn [mbind option_bind bind]. rewrite Hlast. eauto.
Qed.

(** The third tier in the default scope. *)
Lemma getInlineTemplate_fallback _id _defaultValue _scopeId (config : Config) :
  stringIsNotEmpty (getString config ("tpl-" +:+ _id)) = false ->
  Conf.resolveScope (Some _scopeId) = Conf.SCOPE_DEFAULT ->
  notAnArray config "templates" = false ->
  getInlineTemplates config "templates" ≫=
    (fun l => last (filter (fun tpl : InlineTemplate => name tpl = Some _id) l)) = None ->
  Conf.getInlineTemplate _id _defaultValue _scopeId config
  = Ok (Conf.hardCoded _id _defaultValue).
Proof.
  intros Hl Hs Ha Hn. unfold Conf.getInlineTemplate, Conf.namedTemplate.
  by rewrite Hl, Hs, decide_True, Ha, Hn by done.
Qed.

(** C2, where the code departs from it: for a requested scope other than
    the default one, and no legacy setting, what the look-up in the
    template list of the scope finds is not used; the result is the
    hard-coded default body whatever templates the scope defines.  (The
    look-up is still made: on a scopes setting that is not an array it
    raises, and the request is rejected.) *)
Theorem getInlineTemplate_scope_list_not_read _id _defaultValue _scopeId (config : Config) :
  Conf.resolveScope (Some _scopeId) <> Conf.SCOPE_DEFAULT ->
  stringIsNotEmpty (getString config ("tpl-" +:+ _id)) = false ->
  Conf.getInlineTemplate _id _defaultValue _scopeId config
  = if notAnArray config "scopes" then Err Conf.filterError
    else Ok (Conf.hardCoded _id _defaultValue).
Proof.
  intros Hs Hl. unfold Conf.getInlineTemplate, Conf.scopedTemplate.
  rewrite Hl, decide_False by done.
  by destruct (notAnArray config "scopes").
Qed.

Lemma getInlineTemplate_scope_list_not_read_witness :
  (Conf.scopeDefinition Sample.scopedNoteTemplates (Some "work") ≫= sd_templates) ≫=
    (fun l => last (filter (fun tpl : InlineTemplate => name tpl = Some "note") l))
  = Some Sample.workNote /\
  Conf.getInlineTemplate "note" ("# ${input}" +:+ JS.LF +:+ "${tags}" +:+ JS.LF) "work"
    Sample.scopedNoteTemplates
  = Ok (Conf.hardCoded "note" ("# ${input}" +:+ JS.LF +:+ "${tags}" +:+ JS.LF)).
Proof.
  split; [by vm_compute|].
  apply (getInlineTemplate_scope_list_not_read "note"
           ("# ${input}" +:+ JS.LF +:+ "${tags}" +:+ JS.LF) "work"
           Sample.scopedNoteTemplates); [by vm_compute | reflexivity].
Defined.

(** What the look-up finds and drops in those settings, and the rejection
    when the scopes setting is the empty object it ships as. *)
Example scopedTemplate_dropped :
  Conf.scopedTemplate "note" Sample.scopedNoteTemplates = Ok (Some Sample.workNote) /\
  Conf.getInlineTemplate "note" "# ${input}" "work" Sample.noScopes
  = Err Conf.filterError.
Proof. by vm_compute. Qed.

(** ** Note content *)

(** C8, as the code has it: with the legacy setting tpl-note set to the
    title template, the content placeholder becomes the input variable
    before any substitution, and the note content built for a user input
    without a dollar sign is the title followed by that input. *)
Theorem legacy_note_title `{P : Platform} (config : Config) text tags scope :
  getString config "tpl-note" = Some "Title: {content}" ->
  JS.dollarFree text = true ->
  (exists tpl,
     Conf.getNotesTemplate scope config = Ok tpl /\
     template tpl = Some "Title: ${input}") /\
  Inject.buildNoteContent
    {| Input.text := text; Input.tags := tags; Input.scope := scope |} config
  = Ok ("Title: " +:+ text).
Proof.
  intros Hc Ht.
  assert (Conf.getNotesTemplate scope config
          = Ok {| scoped := {| name := Some "note"; scope := Some "default";
                               template := Some "Title: ${input}";
                               value := Some "Title: ${input}" |};
                  after := if stringIsNotEmpty (getString config "note-after")
                           then getString config "note-after" else Some "" |}) as Hn.
  { unfold Conf.getNotesTemplate, Conf.getInlineTemplate.
    change ("tpl-" +:+ "note") with "tpl-note". rewrite Hc. reflexivity. }
  split; [rewrite Hn; eauto|].
  unfold Inject.buildNoteContent. cbn [Input.scope Input.text Input.tags].
  rewrite Hn. cbn [bind value scoped].
  assert (JS.replace "${input}" text "Title: ${input}" = "Title: " +:+ text) as ->.
  { change "Title: ${input}" with ("Title: " +:+ "${input}" +:+ "").
    rewrite replace_at by done. by rewrite app_nil_r. }
  rewrite replace_absent; [done|].
  apply find_dollarFree. by rewrite dollarFree_app, Ht.
Qed.

Lemma legacy_note_title_witness :
  (exists tpl,
     Conf.getNotesTemplate (P := Sample.posix) None Sample.legacyNote = Ok tpl /\
     template tpl = Some "Title: ${input}") /\
  Inject.buildNoteContent (P := Sample.posix) (Sample.noteInput "Seeds to order")
    Sample.legacyNote
  = Ok "Title: Seeds to order".
Proof.
  exact (legacy_note_title (P := Sample.posix) Sample.legacyNote "Seeds to order"
           ["garden"; "todo"] None eq_refl eq_refl).
Defined.

(** The claim of C8 for every user input fails: an input that names the
    tags variable is itself substituted by the tags, and an input that is
    a replacement pattern brings the variable back. *)
Lemma note_input_naming_tags_is_substituted :
  Inject.buildNoteContent (P := Sample.posix) (Sample.noteInput "${tags}")
    Sample.legacyNote
  = Ok ("Title: garden todo" +:+ JS.LF) /\
  Inject.buildNoteContent (P := Sample.posix) (Sample.noteInput "${tags}")
    Sample.legacyNote
  <> Ok "Title: ${tags}" /\
  Inject.buildNoteContent (P := Sample.posix) (Sample.noteInput "$&")
    Sample.legacyNote
  = Ok "Title: ${input}".
Proof. split; [by vm_compute|]. split; [by vm_compute|]. by vm_compute. Qed.

(** ** Documents and edits *)

Section Documents.

Implicit Types s t v : string.
Implicit Types doc : TextDocument.t.

Lemma includes_intro a sub b : JS.includes sub (a +:+ sub +:+ b) = true.
Proof.
  unfold JS.includes. induction a as [|c a IH].
  - simpl. by rewrite find_startsWith by apply startsWith_app.
  - change (String c a +:+ sub +:+ b) with (String c (a +:+ sub +:+ b)).
    cbn [JS.find]. destruct (JS.startsWith sub _); [done|].
    by destruct (JS.find sub (a +:+ sub +:+ b)).
Qed.

Lemma splitLines_total s :
  sum_list ((fun x => String.length x + 1)%nat <$> TextDocument.splitLines s)
  = (String.length s + 1)%nat.
Proof.
  induction s as [|c s IH]; [done|].
  cbn [TextDocument.splitLines]. destruct (TextDocument.isLF c).
  - cbn [fmap list_fmap sum_list String.length]. rewrite IH. unfold id. lia.
  - destruct (TextDocument.splitLines s) as [|l ls];
      cbn [fmap list_fmap sum_list String.length] in *; unfold id in *; lia.
Qed.

Lemma splitLines_not_nil s : TextDocument.splitLines s <> [].
Proof.
  intros H. pose proof (splitLines_total s) as T. rewrite H in T. cbn in T. lia.
Qed.

Lemma offsetIn_le (ls : list string) l c x :
  ls !! l = Some x ->
  (c <= String.length x)%nat ->
  (TextDocument.offsetIn ls l c + 1
   <= sum_list ((fun x => String.length x + 1)%nat <$> ls))%nat.
Proof.
  revert l; induction ls as [|y ls IH]; intros [|l] Hl Hc; try done.
  - injection Hl as ->. cbn. lia.
  - cbn in Hl. specialize (IH l Hl Hc). cbn. lia.
Qed.

(** A validated position lies on a line of the document, within it. *)
Lemma validatePosition_valid doc p :
  exists x,
    TextDocument.lines doc !! Position.line (TextDocument.validatePosition doc p) = Some x /\
    (Position.character (TextDocument.validatePosition doc p) <= String.length x)%nat.
Proof.
  unfold TextDocument.validatePosition.
  destruct (TextDocument.lines doc !! Position.line p) as [x|] eqn:E.
  - exists x. cbn. split; [done | lia].
  - cbn. unfold TextDocument.lineCount.
    destruct (last (TextDocument.lines doc)) as [x|] eqn:L.
    + exists x. split; [|done].
      rewrite last_lookup in L. by rewrite Nat.sub_1_r.
    + apply last_None in L. by apply splitLines_not_nil in L.
Qed.

Lemma offsetAt_le doc p :
  (TextDocument.offsetAt doc p <= String.length (TextDocument.text doc))%nat.
Proof.
  unfold TextDocument.offsetAt.
  destruct (validatePosition_valid doc p) as (x & Hx & Hc).
  pose proof (offsetIn_le _ _ _ _ Hx Hc) as H.
  unfold TextDocument.lines in H. rewrite splitLines_total in H.
  unfold TextDocument.lines. lia.
Qed.

Lemma lineAt_validated doc p :
  exists x,
    TextDocument.lineAt doc (Position.line (TextDocument.validatePosition doc p)) = Ok x.
Proof.
  destruct (validatePosition_valid doc p) as (x & Hx & _).
  exists x. unfold TextDocument.lineAt. by rewrite Hx.
Qed.

Lemma endOfDocument_ok doc : exists e, TextDocument.endOfDocument doc = Ok e.
Proof.
  unfold TextDocument.endOfDocument, TextDocument.lineAt, TextDocument.lineCount.
  destruct (TextDocument.lines doc !! (length (TextDocument.lines doc) - 1)%nat)
    as [x|] eqn:E; [cbn; eauto|].
  apply lookup_ge_None in E.
  pose proof (splitLines_not_nil (TextDocument.text doc)) as N.
  unfold TextDocument.lines in E.
  destruct (TextDocument.splitLines (TextDocument.text doc)); [done | cbn in E; lia].
Qed.

(** The first stage never fails, validates the position and keeps the
    value inside the text it inserts. *)
Lemma prepare_ok (content : InlineString.t) :
  exists v a b,
    Inject.prepare content
    = Ok (TextDocument.validatePosition (InlineString.document content)
            (default Inject.line1 (InlineString.position content)), v) /\
    v = a +:+ InlineString.value content +:+ b.
Proof.
  unfold Inject.prepare.
  set (doc := InlineString.document content).
  set (p0 := default Inject.line1 (InlineString.position content)).
  destruct (lineAt_validated doc p0) as (x & ->). cbn [bind].
  destruct (endOfDocument_ok doc) as (e & ->). cbn [bind].
  set (v0 := InlineString.value content).
  assert (exists v1 a b,
            (if (Position.character p0 =? 0)%nat && negb (TextDocument.isEmptyOrWhitespace x)
             then Ok ((if Position.isAfterOrEqual (TextDocument.validatePosition doc p0) e
                       then JS.LF +:+ v0 else v0) +:+ JS.LF)
             else Ok v0) = Ok v1 /\ v1 = a +:+ v0 +:+ b) as (v1 & a & b & -> & Hv1).
  { destruct (_ && _).
    - destruct (Position.isAfterOrEqual _ _).
      + exists (JS.LF +:+ v0 +:+ JS.LF), JS.LF, JS.LF. by rewrite app_assoc.
      + exists (v0 +:+ JS.LF), "", JS.LF. done.
    - exists v0, "", "". by rewrite app_nil_r. }
  cbn [bind].
  destruct (_ && _) eqn:G; [|by exists v1, a, b].
  apply andb_true_iff in G as [_ G]. apply Nat.ltb_lt in G.
  unfold Position.translate in G. cbn [Position.line] in G.
  unfold TextDocument.lineAt at 1.
  destruct (TextDocument.lines doc !! _) as [next|] eqn:El.
  - cbn [bind]. destruct (TextDocument.isHeader next).
    + exists (v1 +:+ JS.LF), a, (b +:+ JS.LF). split; [done|].
      by rewrite Hv1, !app_assoc.
    + by exists v1, a, b.
  - apply lookup_ge_None in El. unfold TextDocument.lineCount in G. lia.
Qed.

(** The insertion made for a further entry. *)
Lemma furtherInsertions_ok (other : list InlineString.t) :
  Forall (fun o => is_Some (InlineString.position o)) other ->
  exists rest,
    Inject.furtherInsertions other = Ok rest /\
    Forall2 (fun o i =>
               WorkspaceEdit.target i = TextDocument.uri (InlineString.document o) /\
               InlineString.position o = Some (WorkspaceEdit.at_ i) /\
               WorkspaceEdit.newText i = InlineString.value o +:+ JS.LF) other rest.
Proof.
  induction 1 as [|o other [p Hp] _ (rest & IH & Hall)].
  - exists []. split; [done | constructor].
  - cbn [Inject.furtherInsertions]. rewrite Hp, IH. cbn [bind].
    eexists. split; [done|]. by constructor.
Qed.

Lemma textsAt_includes (edits : list (nat * string)) o v :
  (o, v) ∈ edits -> exists a b, WorkspaceEdit.textsAt edits o = a +:+ v +:+ b.
Proof.
  induction edits as [|[o' v'] edits IH]; intros H; [by apply elem_of_nil in H|].
  apply elem_of_cons in H as [[= <- <-]|H].
  - cbn [WorkspaceEdit.textsAt]. rewrite Nat.eqb_refl. by exists "", (WorkspaceEdit.textsAt edits o).
  - destruct (IH H) as (a & b & E). cbn [WorkspaceEdit.textsAt].
    destruct (o' =? o)%nat; [|by exists a, b].
    exists (v' +:+ a), b. by rewrite E, !app_assoc.
Qed.

(** Every insertion whose offset lies in the text is part of the result. *)
Lemma weave_includes (edits : list (nat * string)) o v s offset :
  (o, v) ∈ edits ->
  (offset <= o <= offset + String.length s)%nat ->
  exists a b, WorkspaceEdit.weave edits offset s = a +:+ v +:+ b.
Proof.
  intros Hin. revert offset; induction s as [|c s IH]; intros offset Ho.
  - cbn in Ho. assert (o = offset) as -> by lia.
    destruct (textsAt_includes _ _ _ Hin) as (a & b & E).
    exists a, b. cbn [WorkspaceEdit.weave]. by rewrite E, app_nil_r.
  - cbn [WorkspaceEdit.weave].
    destruct (decide (o = offset)) as [->|Hne].
    + destruct (textsAt_includes _ _ _ Hin) as (a & b & E).
      exists a, (b +:+ String c (WorkspaceEdit.weave edits (S offset) s)).
      by rewrite E, !app_assoc.
    + destruct (IH (S offset)) as (a & b & E); [cbn in Ho; lia|].
      exists (WorkspaceEdit.textsAt edits offset +:+ String c a), b.
      rewrite E, !app_assoc. done.
Qed.

(** The texts inserted at an offset come right in front of the character
    the original text has at that offset, whatever is inserted before. *)
Lemma weave_in_front (edits : list (nat * string)) s o c t offset :
  JS.drop o s = String c t ->
  exists front back,
    WorkspaceEdit.weave edits offset s
    = front +:+ WorkspaceEdit.textsAt edits (offset + o) +:+ String c back.
Proof.
  revert s offset; induction o as [|o IH]; intros s offset Hd.
  - destruct s as [|d s]; [done|]. cbn in Hd. injection Hd as -> ->.
    exists "", (WorkspaceEdit.weave edits (S offset) t).
    cbn [WorkspaceEdit.weave]. by rewrite Nat.add_0_r.
  - destruct s as [|d s]; [done|]. cbn [JS.drop] in Hd.
    destruct (IH s (S offset) Hd) as (front & back & E).
    exists (WorkspaceEdit.textsAt edits offset +:+ String d front), back.
    cbn [WorkspaceEdit.weave]. rewrite E, !app_assoc.
    by replace (S offset + o)%nat with (offset + S o)%nat by lia.
Qed.

Lemma applyTo_includes doc (edit : WorkspaceEdit.t) i :
  i ∈ edit ->
  WorkspaceEdit.target i = TextDocument.uri doc ->
  JS.includes (WorkspaceEdit.newText i)
    (TextDocument.text (WorkspaceEdit.applyTo doc edit)) = true.
Proof.
  intros Hin Ht. cbn [WorkspaceEdit.applyTo TextDocument.text].
  destruct (weave_includes (WorkspaceEdit.insertionsFor doc edit)
              (TextDocument.offsetAt doc (WorkspaceEdit.at_ i))
              (WorkspaceEdit.newText i) (TextDocument.text doc) 0%nat) as (a & b & ->).
  - unfold WorkspaceEdit.insertionsFor.
    apply (list_elem_of_fmap_2 (fun i => (TextDocument.offsetAt doc (WorkspaceEdit.at_ i),
                                          WorkspaceEdit.newText i))).
    by apply list_elem_of_filter.
  - pose proof (offsetAt_le doc (WorkspaceEdit.at_ i)). lia.
  - apply includes_intro.
Qed.

End Documents.

(** The edit of [injectInlineString], for entries of any documents and
    at any columns: when every further entry has a position and the editor
    applies the edit, all insertions go into a single edit that is applied
    once: the leading one at the validated position of the leading entry,
    and one per further entry at the position of that entry, its value
    followed by a line feed.  The resulting text holds the leading value
    and, for every further entry of the same document, its value followed
    by a line feed. *)
Lemma injectInlineString_single_edit `{E : Editor}
    (content : InlineString.t) (other : list InlineString.t) :
  Forall (fun o => is_Some (InlineString.position o)) other ->
  (forall edit, Inject.collect content other = Ok edit -> applyEditSucceeds edit = true) ->
  let doc := InlineString.document content in
  exists first rest,
    Inject.collect content other = Ok (first :: rest) /\
    (WorkspaceEdit.target first = TextDocument.uri doc /\
     WorkspaceEdit.at_ first
     = TextDocument.validatePosition doc
         (default Inject.line1 (InlineString.position content)) /\
     JS.includes (InlineString.value content) (WorkspaceEdit.newText first) = true) /\
    Forall2 (fun o i =>
               WorkspaceEdit.target i = TextDocument.uri (InlineString.document o) /\
               InlineString.position o = Some (WorkspaceEdit.at_ i) /\
               WorkspaceEdit.newText i = InlineString.value o +:+ JS.LF) other rest /\
    Inject.injectInlineString content other
    = Ok (WorkspaceEdit.applyTo doc (first :: rest)) /\
    JS.includes (InlineString.value content)
      (TextDocument.text (WorkspaceEdit.applyTo doc (first :: rest))) = true /\
    Forall (fun o =>
              TextDocument.uri (InlineString.document o) = TextDocument.uri doc ->
              JS.includes (InlineString.value o +:+ JS.LF)
                (TextDocument.text (WorkspaceEdit.applyTo doc (first :: rest)))
              = true) other.
Proof.
  intros Hpos Happly doc.
  destruct (prepare_ok content) as (v & a & b & Hprep & Hv).
  destruct (furtherInsertions_ok other Hpos) as (rest & Hrest & Hall).
  fold doc in Hprep.
  set (first := {| WorkspaceEdit.target := TextDocument.uri doc;
                   WorkspaceEdit.at_ :=
                     TextDocument.validatePosition doc
                       (default Inject.line1 (InlineString.position content));
                   WorkspaceEdit.newText := v |}).
  assert (Inject.collect content other = Ok (first :: rest)) as Hcollect.
  { unfold Inject.collect. by rewrite Hprep, Hrest. }
  assert (JS.includes (InlineString.value content) v = true) as Hfirst.
  { rewrite Hv. apply includes_intro. }
  exists first, rest. split; [exact Hcollect|].
  split; [by repeat split|]. split; [exact Hall|].
  split; [|split].
  - unfold Inject.injectInlineString. rewrite Hcollect. cbn [bind].
    by rewrite (Happly _ Hcollect).
  - pose proof (applyTo_includes doc (first :: rest) first
                  (list_elem_of_here _ _) eq_refl) as Hin.
    cbn [WorkspaceEdit.newText first] in Hin.
    unfold JS.includes in Hin.
    destruct (JS.find v _) as [i|] eqn:F; [|done].
    rewrite (find_Some _ _ _ F), Hv, !app_assoc, <- (app_assoc (JS.take i _)).
    apply includes_intro.
  - assert (Forall (fun o => exists i,
                      i ∈ rest /\
                      WorkspaceEdit.target i = TextDocument.uri (InlineString.document o) /\
                      WorkspaceEdit.newText i = InlineString.value o +:+ JS.LF) other)
      as Hmem.
    { clear -Hall. induction Hall as [|o i other rest (Ht & _ & Hn) _ IH].
      - constructor.
      - constructor; [exists i; split; [by left | done]|].
        eapply Forall_impl; [exact IH|]. cbn beta.
        intros o' (i' & Hi' & H'). exists i'. split; [by right | done]. }
    eapply Forall_impl; [exact Hmem|]. cbn beta.
    intros o (i & Hi & Ht & Hn) Huri. rewrite <- Hn.
    apply applyTo_includes; [by right | congruence].
Qed.

Lemma injectInlineString_single_edit_example :
  exists first rest,
    Inject.collect (Sample.entry (Sample.at_ 1 0) "- [ ] call the plumber" Sample.journalPage)
      [Sample.entry (Sample.at_ 3 0) "- [ ] pay the rent" Sample.journalPage]
    = Ok (first :: rest) /\
    (WorkspaceEdit.target first = TextDocument.uri Sample.journalPage /\
     WorkspaceEdit.at_ first = {| Position.line := 1; Position.character := 0 |} /\
     JS.includes "- [ ] call the plumber" (WorkspaceEdit.newText first) = true) /\
    Forall2 (fun o i =>
               WorkspaceEdit.target i = TextDocument.uri (InlineString.document o) /\
               InlineString.position o = Some (WorkspaceEdit.at_ i) /\
               WorkspaceEdit.newText i = InlineString.value o +:+ JS.LF)
      [Sample.entry (Sample.at_ 3 0) "- [ ] pay the rent" Sample.journalPage] rest /\
    Inject.injectInlineString (E := Sample.editor)
      (Sample.entry (Sample.at_ 1 0) "- [ ] call the plumber" Sample.journalPage)
      [Sample.entry (Sample.at_ 3 0) "- [ ] pay the rent" Sample.journalPage]
    = Ok (WorkspaceEdit.applyTo Sample.journalPage (first :: rest)) /\
    JS.includes "- [ ] call the plumber"
      (TextDocument.text (WorkspaceEdit.applyTo Sample.journalPage (first :: rest))) = true /\
    Forall (fun o =>
              TextDocument.uri (InlineString.document o)
              = TextDocument.uri Sample.journalPage ->
              JS.includes (InlineString.value o +:+ JS.LF)
                (TextDocument.text (WorkspaceEdit.applyTo Sample.journalPage (first :: rest)))
              = true)
      [Sample.entry (Sample.at_ 3 0) "- [ ] pay the rent" Sample.journalPage].
Proof.
  apply (injectInlineString_single_edit (E := Sample.editor)
           (Sample.entry (Sample.at_ 1 0) "- [ ] call the plumber" Sample.journalPage)
           [Sample.entry (Sample.at_ 3 0) "- [ ] pay the rent" Sample.journalPage]).
  - repeat constructor. by eexists.
  - reflexivity.
Qed.

(** The two entries of the example above, each on a line of its own. *)
Example injectInlineString_two_tasks :
  TextDocument.lines <$>
    (match Inject.injectInlineString (E := Sample.editor)
             (Sample.entry (Sample.at_ 1 0) "- [ ] call the plumber" Sample.journalPage)
             [Sample.entry (Sample.at_ 3 0) "- [ ] pay the rent" Sample.journalPage]
     with Ok d => Some d | Err _ => None end)
  = Some ["# Monday"; "- [ ] call the plumber"; ""; "## Tasks"; "- [ ] pay the rent";
          "- [ ] water the plants"].
Proof. by vm_compute. Qed.

(** A header put in front of a first line that is not empty stands on a
    line of its own, with the first line intact below it. *)
Example injectHeader_own_line :
  TextDocument.lines <$>
    (match Inject.injectHeader (E := Sample.editor) Sample.oneLine "# Notes"
     with Ok d => Some d | Err _ => None end)
  = Some ["# Notes"; "abc"].
Proof. by vm_compute. Qed.


(** ** Date tokens: [replaceDateFormats] *)

Section DateTokens.

Context `{P : Platform}.

Implicit Types s t name spec rest : string.
Implicit Types seg : Segments.segment.
Implicit Types segs pre : list Segments.segment.

Lemma replaceDateFormats_no_token template date :
  Conf.matchAll 0 template = [] ->
  Conf.replaceDateFormats template date = template.
Proof. unfold Conf.replaceDateFormats. by intros ->. Qed.

Lemma tokenAt_other c s : c <> "$"%char -> Conf.tokenAt (String c s) = None.
Proof.
  intros H. unfold Conf.tokenAt. cbn [JS.startsWith].
  rewrite decide_False; [done | congruence].
Qed.

Lemma matchAll_plain s rest :
  JS.dollarFree s = true -> Conf.matchAll 0 (s +:+ rest) = Conf.matchAll 0 rest.
Proof.
  induction s as [|c s IH]; [done|]. cbn [JS.dollarFree].
  destruct (decide (c = "$"%char)); [done|]. intros H.
  change (String c s +:+ rest) with (String c (s +:+ rest)).
  cbn [Conf.matchAll]. rewrite tokenAt_other by done. by apply IH.
Qed.

Lemma matchAll_skip s rest :
  Conf.matchAll (String.length s) (s +:+ rest) = Conf.matchAll 0 rest.
Proof.
  induction s as [|c s IH]; [by destruct rest|].
  change (String c s +:+ rest) with (String c (s +:+ rest)). by cbn.
Qed.

Lemma untilBrace_app s rest :
  Segments.braceFree s = true -> Conf.untilBrace (s +:+ "}" +:+ rest) = Some s.
Proof.
  induction s as [|c s IH]; [done|]. cbn [Segments.braceFree].
  destruct (decide (c = "}"%char)) as [|Hc]; [done|]. intros H.
  change (String c s +:+ "}" +:+ rest) with (String c (s +:+ "}" +:+ rest)).
  cbn [Conf.untilBrace]. rewrite decide_False by done. by rewrite IH.
Qed.

(** Two names closed by a brace: one starts the other only if they are
    the same name. *)
Lemma startsWith_closed n name rest :
  Segments.braceFree n = true ->
  Segments.braceFree name = true ->
  JS.startsWith (n +:+ "}") (name +:+ "}" +:+ rest) = true ->
  n = name.
Proof.
  revert name; induction n as [|a n IH]; intros [|b name]; cbn [Segments.braceFree].
  - done.
  - destruct (decide (b = "}"%char)); [done|]. intros _ _.
    change (JS.startsWith ("" +:+ "}") (String b name +:+ "}" +:+ rest))
      with (if decide ("}"%char = b) then true else false).
    rewrite decide_False; [done | congruence].
  - destruct (decide (a = "}"%char)); [done|]. intros _ _.
    change (JS.startsWith (String a n +:+ "}") ("" +:+ "}" +:+ rest))
      with (if decide (a = "}"%char) then JS.startsWith (n +:+ "}") rest else false).
    by rewrite decide_False.
  - destruct (decide (a = "}"%char)); [done|].
    destruct (decide (b = "}"%char)); [done|]. intros Hn Hname.
    change (JS.startsWith (String a n +:+ "}") (String b name +:+ "}" +:+ rest))
      with (if decide (a = b) then JS.startsWith (n +:+ "}") (name +:+ "}" +:+ rest)
            else false).
    destruct (decide (a = b)) as [->|]; [|done].
    intros H. f_equal. by apply IH.
Qed.

Lemma firstName_none names name rest :
  Forall (fun n => Segments.braceFree n = true) names ->
  Segments.braceFree name = true ->
  name ∉ names ->
  Conf.firstName names (name +:+ "}" +:+ rest) = None.
Proof.
  induction 1 as [|n names Hn _ IH]; intros Hname Hnot; [done|].
  apply not_elem_of_cons in Hnot as [Hne Hnot].
  cbn [Conf.firstName].
  destruct (JS.startsWith _ _) eqn:E; [|by apply IH].
  by apply startsWith_closed in E.
Qed.

Lemma names_braceFree :
  Forall (fun n => Segments.braceFree n = true) Conf.dateTokenNames.
Proof. repeat constructor. Qed.

Lemma tokenAt_fixed name rest :
  name ∈ Conf.dateTokenNames ->
  Conf.tokenAt ("${" +:+ name +:+ "}" +:+ rest) = Some ("${" +:+ name +:+ "}").
Proof.
  unfold Conf.dateTokenNames. rewrite !elem_of_cons, elem_of_nil.
  intros [->|[->|[->|[->|[->|[->|[]]]]]]]; reflexivity.
Qed.

Lemma tokenAt_custom spec rest :
  Segments.wellFormed (Segments.Custom spec) = true ->
  Conf.tokenAt ("${d:" +:+ spec +:+ "}" +:+ rest) = Some ("${d:" +:+ spec +:+ "}").
Proof.
  cbn [Segments.wellFormed]. intros [Hne Hb]%andb_true_iff.
  destruct spec as [|c x]; [done|].
  cbn [Segments.braceFree] in Hb. destruct (decide (c = "}"%char)); [done|].
  unfold Conf.tokenAt.
  change (JS.startsWith "${" ("${d:" +:+ String c x +:+ "}" +:+ rest)) with true.
  change (JS.drop 2 ("${d:" +:+ String c x +:+ "}" +:+ rest))
    with (String "d" (String ":" (String c (x +:+ "}" +:+ rest)))).
  cbn -[Conf.untilBrace String.append].
  by rewrite untilBrace_app.
Qed.

Lemma startsWith_d_colon name rest :
  Segments.braceFree name = true ->
  JS.startsWith "d:" name = false ->
  JS.startsWith "d:" (name +:+ "}" +:+ rest) = false.
Proof.
  destruct name as [|a [|b name]]; cbn; by repeat case_decide.
Qed.

Lemma tokenAt_unknown name rest :
  Segments.wellFormed (Segments.Unknown name) = true ->
  Conf.tokenAt ("${" +:+ name +:+ "}" +:+ rest) = None.
Proof.
  cbn [Segments.wellFormed].
  intros [[[_ Hb]%andb_true_iff Hn%negb_true_iff]%andb_true_iff Hd%negb_true_iff]%andb_true_iff.
  apply bool_decide_eq_false in Hn.
  unfold Conf.tokenAt.
  change (JS.startsWith "${" ("${" +:+ name +:+ "}" +:+ rest)) with true.
  change (JS.drop 2 ("${" +:+ name +:+ "}" +:+ rest)) with (name +:+ "}" +:+ rest).
  cbn match. rewrite firstName_none by (done || apply names_braceFree).
  by rewrite startsWith_d_colon.
Qed.

End DateTokens.

Section Substitution.

Context `{P : Platform}.

Implicit Types s t name spec rest : string.
Implicit Types seg : Segments.segment.
Implicit Types segs pre : list Segments.segment.

Lemma render_app pre segs :
  Segments.render (pre ++ segs) = Segments.render pre +:+ Segments.render segs.
Proof.
  induction pre as [|seg pre IH]; [done|].
  cbn [app Segments.render]. by rewrite IH, app_assoc.
Qed.

(** A date token starts with a dollar and is found by the scanner. *)
Lemma token_source seg :
  Segments.isToken seg = true ->
  Segments.wellFormed seg = true ->
  exists body,
    Segments.source seg = "${" +:+ body +:+ "}" /\
    Segments.braceFree body = true /\
    (body ∈ Conf.dateTokenNames \/ JS.startsWith "d:" body = true) /\
    forall rest, Conf.tokenAt (Segments.source seg +:+ rest) = Some (Segments.source seg).
Proof.
  destruct seg as [s|name|name|spec]; try done; intros _ Hwf.
  - exists name. cbn [Segments.wellFormed] in Hwf. apply bool_decide_eq_true in Hwf.
    split; [done|]. split.
    { pose proof names_braceFree as F. rewrite Forall_forall in F. by apply F. }
    split; [by left|].
    intros rest. cbn [Segments.source]. rewrite !app_assoc. by apply tokenAt_fixed.
  - exists ("d:" +:+ spec). split; [done|]. split.
    { cbn [Segments.wellFormed] in Hwf. by apply andb_true_iff in Hwf as [_ Hb]. }
    split; [by right|].
    intros rest. cbn [Segments.source]. rewrite !app_assoc. by apply tokenAt_custom.
Qed.

Lemma matchAll_token seg rest :
  Segments.isToken seg = true ->
  Segments.wellFormed seg = true ->
  Conf.matchAll 0 (Segments.source seg +:+ rest)
  = Segments.source seg :: Conf.matchAll 0 rest.
Proof.
  intros Ht Hwf. destruct (token_source seg Ht Hwf) as (body & E & _ & _ & Hat).
  specialize (Hat rest). rewrite E in *.
  change ("${" +:+ body +:+ "}") with (String "$" ("{" +:+ body +:+ "}")) in *.
  change (String "$" ("{" +:+ body +:+ "}") +:+ rest)
    with (String "$" (("{" +:+ body +:+ "}") +:+ rest)) in *.
  cbn [Conf.matchAll]. rewrite Hat. f_equal.
  cbn [String.length Nat.sub]. rewrite Nat.sub_0_r. apply matchAll_skip.
Qed.

Lemma matchAll_unknown name rest :
  Segments.wellFormed (Segments.Unknown name) = true ->
  Conf.matchAll 0 ("${" +:+ name +:+ "}" +:+ rest) = Conf.matchAll 0 rest.
Proof.
  intros Hwf. pose proof (tokenAt_unknown name rest Hwf) as Hat.
  assert ("${" +:+ name +:+ "}" +:+ rest
          = String "$" (("{" +:+ name +:+ "}") +:+ rest)) as E
    by (by rewrite !app_assoc).
  rewrite E in *. cbn [Conf.matchAll]. rewrite Hat.
  apply matchAll_plain.
  cbn [Segments.wellFormed] in Hwf.
  apply andb_true_iff in Hwf as [[[Hd _]%andb_true_iff _]%andb_true_iff _].
  change ("{" +:+ name +:+ "}") with (String "{" (name +:+ "}")).
  cbn [JS.dollarFree]. rewrite decide_False by done.
  by rewrite dollarFree_app, Hd.
Qed.

(** The scanner finds exactly the date tokens of a well-formed template. *)
Lemma matchAll_render segs :
  forallb Segments.wellFormed segs = true ->
  Conf.matchAll 0 (Segments.render segs) = Segments.tokens segs.
Proof.
  induction segs as [|seg segs IH]; [done|].
  cbn [forallb]. intros [Hwf Hall]%andb_true_iff.
  cbn [Segments.render Segments.tokens].
  destruct (Segments.isToken seg) eqn:Ht.
  - rewrite matchAll_token by done. by rewrite IH.
  - destruct seg as [s|name|name|spec]; try done; cbn [Segments.source].
    + rewrite matchAll_plain by done. by apply IH.
    + rewrite !app_assoc, matchAll_unknown by done. by apply IH.
Qed.

Lemma substring_middle a b c :
  JS.substring (Z.of_nat (String.length a))
    (Z.of_nat (String.length (a +:+ b +:+ c)) - Z.of_nat (String.length c))
    (a +:+ b +:+ c) = b.
Proof.
  unfold JS.substring. rewrite !length_app.
  set (la := String.length a). set (lb := String.length b). set (lc := String.length c).
  replace (Z.to_nat (Z.min _ _)) with la by lia.
  replace (Z.to_nat (Z.max _ _) - la)%nat with lb by lia.
  subst la lb. by rewrite drop_app, take_app.
Qed.

(** The step of the loop on a date token: the first occurrence of the
    token is replaced by its formatted text. *)
Lemma replaceDateFormat_token seg date t :
  Segments.isToken seg = true ->
  Segments.wellFormed seg = true ->
  Conf.replaceDateFormat date t (Segments.source seg)
  = JS.replace (Segments.source seg) (Segments.resolved date seg) t.
Proof.
  destruct seg as [s|name|name|spec]; try done; intros _ Hwf.
  - cbn [Segments.wellFormed] in Hwf. apply bool_decide_eq_true in Hwf.
    unfold Conf.dateTokenNames in Hwf. rewrite !elem_of_cons, elem_of_nil in Hwf.
    destruct Hwf as [->|[->|[->|[->|[->|[->|[]]]]]]]; reflexivity.
  - cbn [Segments.source Segments.resolved]. unfold Conf.replaceDateFormat.
    cbn [Segments.wellFormed] in Hwf. apply andb_true_iff in Hwf as [Hne _].
    destruct spec as [|c x]; [done|].
    repeat (destruct (decide _) as [E|_]; [discriminate E|]).
    change (JS.startsWith "${d:" ("${d:" +:+ String c x +:+ "}")) with true.
    cbn match.
    change (JS.indexOf "d:" ("${d:" +:+ String c x +:+ "}") + 2)
      with (Z.of_nat (String.length "${d:")).
    change (Z.of_nat (String.length ("${d:" +:+ String c x +:+ "}")) - 1)
      with (Z.of_nat (String.length ("${d:" +:+ String c x +:+ "}"))
            - Z.of_nat (String.length "}")).
    by rewrite substring_middle.
Qed.

(** A date token does not start where a variable that is no date token
    starts. *)
Lemma startsWith_token_unknown body name rest :
  Segments.braceFree body = true ->
  body ∈ Conf.dateTokenNames \/ JS.startsWith "d:" body = true ->
  Segments.wellFormed (Segments.Unknown name) = true ->
  JS.startsWith ("${" +:+ body +:+ "}") ("${" +:+ name +:+ "}" +:+ rest) = false.
Proof.
  intros Hb Hbody Hwf. cbn [Segments.wellFormed] in Hwf.
  apply andb_true_iff in Hwf as [[[_ Hn]%andb_true_iff Hnot%negb_true_iff]%andb_true_iff
                                   Hd%negb_true_iff].
  apply bool_decide_eq_false in Hnot.
  destruct (JS.startsWith ("${" +:+ body +:+ "}") _) eqn:E; [|done].
  change (JS.startsWith (body +:+ "}") (name +:+ "}" +:+ rest) = true) in E.
  apply startsWith_closed in E as ->; [|done..].
  destruct Hbody as [Hin|Hd']; [done | congruence].
Qed.

(** Behind text and variables that are no date tokens, the first
    occurrence of a date token is the one that follows them. *)
Lemma find_token_behind pre body rest :
  forallb Segments.wellFormed pre = true ->
  forallb (fun seg => negb (Segments.isToken seg)) pre = true ->
  Segments.braceFree body = true ->
  body ∈ Conf.dateTokenNames \/ JS.startsWith "d:" body = true ->
  JS.find ("${" +:+ body +:+ "}") (Segments.render pre +:+ ("${" +:+ body +:+ "}") +:+ rest)
  = Some (String.length (Segments.render pre)).
Proof.
  intros Hwf Hnt Hb Hbody. induction pre as [|seg pre IH].
  - change (JS.find ("${" +:+ body +:+ "}") (("${" +:+ body +:+ "}") +:+ rest)
            = Some 0%nat).
    apply find_startsWith, startsWith_app.
  - cbn [forallb] in Hwf, Hnt.
    apply andb_true_iff in Hwf as [Hseg Hwf]. apply andb_true_iff in Hnt as [Hns Hnt].
    specialize (IH Hwf Hnt).
    cbn [Segments.render]. rewrite app_assoc, length_app.
    set (z := Segments.render pre +:+ ("${" +:+ body +:+ "}") +:+ rest) in *.
    assert ("${" +:+ body +:+ "}" = String "$" ("{" +:+ body +:+ "}")) as Hm by done.
    destruct seg as [s|name|name|spec]; try done; cbn [Segments.source].
    + rewrite Hm, find_behind by done. by rewrite <- Hm, IH.
    + cbn [Segments.wellFormed] in Hseg.
      assert (JS.dollarFree ("{" +:+ name +:+ "}") = true) as Hd.
      { apply andb_true_iff in Hseg as [[[Hd _]%andb_true_iff _]%andb_true_iff _].
        change ("{" +:+ name +:+ "}") with (String "{" (name +:+ "}")).
        cbn [JS.dollarFree]. rewrite decide_False by done.
        by rewrite dollarFree_app, Hd. }
      assert (JS.startsWith ("${" +:+ body +:+ "}")
                (String "$" (("{" +:+ name +:+ "}") +:+ z)) = false) as Hno.
      { change (String "$" (("{" +:+ name +:+ "}") +:+ z))
          with ("${" +:+ (name +:+ "}") +:+ z).
        rewrite app_assoc. by apply startsWith_token_unknown. }
      change (("${" +:+ name +:+ "}") +:+ z)
        with (String "$" (("{" +:+ name +:+ "}") +:+ z)).
      cbn [JS.find]. rewrite Hno.
      rewrite Hm, find_behind by done. rewrite <- Hm, IH.
      cbn [fmap option_fmap option_map].
      f_equal;
        change ("${" +:+ name +:+ "}") with (String "$" ("{" +:+ name +:+ "}"));
        cbn [String.length]; lia.
Qed.

End Substitution.

Section TokenLoop.

Context `{P : Platform}.

Implicit Types seg : Segments.segment.
Implicit Types segs pre : list Segments.segment.

(** The loop over the matches, with the part of the template that is
    already resolved in front. *)
Lemma replaceDateFormat_loop date segs pre :
  forallb Segments.wellFormed segs = true ->
  Segments.inert date segs = true ->
  forallb Segments.wellFormed pre = true ->
  forallb (fun seg => negb (Segments.isToken seg)) pre = true ->
  fold_left (Conf.replaceDateFormat date) (Segments.tokens segs)
    (Segments.render pre +:+ Segments.render segs)
  = Segments.render pre +:+ Segments.renderResolved date segs.
Proof.
  revert pre; induction segs as [|seg segs IH]; intros pre Hwf Hin Hpre Hnt; [done|].
  cbn [forallb] in Hwf. apply andb_true_iff in Hwf as [Hseg Hwf].
  unfold Segments.inert in Hin. cbn [forallb] in Hin.
  apply andb_true_iff in Hin as [Hv Hin].
  assert (forall seg',
            Segments.wellFormed seg' = true ->
            Segments.isToken seg' = false ->
            forallb Segments.wellFormed (pre ++ [seg']) = true /\
            forallb (fun seg => negb (Segments.isToken seg)) (pre ++ [seg']) = true) as Hext.
  { intros seg' Hw Ht. rewrite !forallb_app, Hpre, Hnt. cbn. by rewrite Hw, Ht. }
  cbn [Segments.tokens Segments.render Segments.renderResolved].
  destruct (Segments.isToken seg) eqn:Ht.
  - cbn [negb orb] in Hv.
    destruct (token_source seg Ht Hseg) as (body & E & Hb & Hbody & _).
    cbn [fold_left]. rewrite replaceDateFormat_token by done.
    rewrite E at 1 2. rewrite replace_at; [|rewrite <- E|done].
    + destruct (Hext (Segments.Plain (Segments.resolved date seg)) Hv eq_refl) as [H1 H2].
      specialize (IH _ Hwf Hin H1 H2).
      rewrite render_app in IH. cbn [Segments.render Segments.source] in IH.
      by rewrite !app_assoc in IH.
    + rewrite E. by apply find_token_behind.
  - destruct (Hext seg Hseg Ht) as [H1 H2].
    specialize (IH _ Hwf Hin H1 H2).
    rewrite render_app in IH. cbn [Segments.render] in IH.
    rewrite !app_assoc in IH. cbn [String.append] in IH.
    rewrite IH. do 2 f_equal. by destruct seg.
Qed.

End TokenLoop.

(** C4, as the code has it: a template without any date token is returned
    unchanged; and in a template made of text without dollar signs, of
    date tokens, and of variables in braces that are no date tokens, every
    occurrence of every date token is replaced by its formatted text while
    the variables and the text stay as they are, provided the formatted
    texts hold no dollar sign. *)
Theorem replaceDateFormats_tokens `{P : Platform} date template
    (segs : list Segments.segment) :
  (Conf.matchAll 0 template = [] ->
   Conf.replaceDateFormats template date = template) /\
  (forallb Segments.wellFormed segs = true ->
   Segments.inert date segs = true ->
   Conf.replaceDateFormats (Segments.render segs) date
   = Segments.renderResolved date segs).
Proof.
  split; [apply replaceDateFormats_no_token|].
  intros Hwf Hin. unfold Conf.replaceDateFormats.
  rewrite matchAll_render by done.
  exact (replaceDateFormat_loop date segs [] Hwf Hin eq_refl eq_refl).
Qed.

Lemma replaceDateFormats_tokens_witness :
  Conf.replaceDateFormats (P := Sample.posix) "${base}/notes/${input}.${ext}" Sample.today
  = "${base}/notes/${input}.${ext}" /\
  Conf.replaceDateFormats (P := Sample.posix)
    "${base}/${year}/${d:MM}-${day} ${weekday} ${year}_${input}.${ext}" Sample.today
  = "${base}/2026/11-02 Monday 2026_${input}.${ext}".
Proof.
  split.
  - exact (proj1 (replaceDateFormats_tokens (P := Sample.posix) Sample.today
                    "${base}/notes/${input}.${ext}" []) eq_refl).
  - exact (proj2 (replaceDateFormats_tokens (P := Sample.posix) Sample.today ""
                    [Segments.Unknown "base"; Segments.Plain "/"; Segments.Fixed "year";
                     Segments.Plain "/"; Segments.Custom "MM"; Segments.Plain "-";
                     Segments.Fixed "day"; Segments.Plain " "; Segments.Fixed "weekday";
                     Segments.Plain " "; Segments.Fixed "year"; Segments.Plain "_";
                     Segments.Unknown "input"; Segments.Plain "."; Segments.Unknown "ext"])
             eq_refl eq_refl).
Defined.

(** The claim of C4 for every template fails.  A custom token whose text
    completes a broken token in front of a later one makes the loop
    replace the completed text and leave the later token in the result;
    a custom token whose text is a replacement pattern is put back. *)
Lemma replaceDateFormats_not_every_template :
  (Conf.matchAll 0 "${y${d:[ea]}r}${year}" = ["${d:[ea]}"; "${year}"] /\
   Conf.replaceDateFormats (P := Sample.posix) "${y${d:[ea]}r}${year}" Sample.today
   = "2026${year}" /\
   Conf.matchAll 0 "2026${year}" = ["${year}"]) /\
  (Conf.matchAll 0 "${d:[$&]}" = ["${d:[$&]}"] /\
   Conf.replaceDateFormats (P := Sample.posix) "${d:[$&]}" Sample.today = "${d:[$&]}").
Proof. by vm_compute. Qed.

(** * Further properties of the configuration layer *)

(** ** Scopes and base paths *)

(** X1: a resolved scope is never the empty string, and resolving it once
    more changes nothing. *)
Theorem resolveScope_stable (_scopeId : option string) :
  Conf.resolveScope _scopeId <> "" /\
  Conf.resolveScope (Some (Conf.resolveScope _scopeId)) = Conf.resolveScope _scopeId.
Proof. by destruct _scopeId as [[|c s]|]. Qed.

(** X2: the base path, by what the scopes setting holds.  It is resolved
    in the default scope and, for a requested scope, when the settings
    hold a list of scopes.  For a requested scope it is rejected with the
    error of the last line of [getBasePath] when there is no scopes
    setting, and with the TypeError of [filter] when the setting is not an
    array, as the empty object it ships as. *)
Theorem getBasePath_by_scopes `{P : Platform} _scopeId (config : Config) :
  (Conf.resolveScope _scopeId = Conf.SCOPE_DEFAULT \/
   is_Some (getScopeDefinitions config "scopes") ->
   exists base, Conf.getBasePath _scopeId config = Ok base) /\
  (Conf.resolveScope _scopeId <> Conf.SCOPE_DEFAULT ->
   config !! "scopes" = None ->
   Conf.getBasePath _scopeId config = Err "Failed to resolve base path") /\
  (Conf.resolveScope _scopeId <> Conf.SCOPE_DEFAULT ->
   notAnArray config "scopes" = true ->
   Conf.getBasePath _scopeId config
   = Err "TypeError: scopes.filter is not a function").
Proof.
  split; [|split].
  - intros [Hd|[scopes Hs]].
    + rewrite getBasePath_default by done. eauto.
    + by eapply getBasePath_scoped.
  - intros Hd Hn. unfold Conf.getBasePath, getScopeDefinitions.
    by rewrite decide_False, (notAnArray_missing _ _ Hn), Hn by done.
  - intros Hd Hn. unfold Conf.getBasePath.
    by rewrite decide_False, Hn by done.
Qed.

Lemma getBasePath_by_scopes_witness :
  (exists base, Conf.getBasePath (P := Sample.posix) (Some "work") Sample.scopedPatterns
                = Ok base) /\
  Conf.getBasePath (P := Sample.posix) (Some "work") Sample.overridden
  = Err "Failed to resolve base path" /\
  Conf.getBasePath (P := Sample.posix) (Some "work") Sample.noScopes
  = Err "TypeError: scopes.filter is not a function".
Proof.
  split; [|split].
  - apply (getBasePath_by_scopes (P := Sample.posix) (Some "work") Sample.scopedPatterns).
    right. by eexists.
  - apply (getBasePath_by_scopes (P := Sample.posix) (Some "work") Sample.overridden);
      [by vm_compute | reflexivity].
  - apply (getBasePath_by_scopes (P := Sample.posix) (Some "work") Sample.noScopes);
      [by vm_compute | reflexivity].
Defined.

Lemma filter_no_scope (scopes : list ScopeDefinition) s :
  Forall (fun sd => sd_name sd <> s) scopes ->
  filter (fun v => sd_name v = s) scopes = [].
Proof.
  induction 1 as [|sd scopes Hne _ IH]; [done|].
  by rewrite filter_cons_False.
Qed.

(** X3: with a list of scopes that has no scope of the requested name, the
    base path is the one of the default scope. *)
Theorem getBasePath_unknown_scope `{P : Platform} _scopeId (config : Config) scopes :
  getScopeDefinitions config "scopes" = Some scopes ->
  Forall (fun sd => sd_name sd <> Conf.resolveScope _scopeId) scopes ->
  Conf.getBasePath _scopeId config = Conf.getBasePath None config.
Proof.
  intros Hs Hno. unfold Conf.getBasePath at 1.
  rewrite (notAnArray_scopes _ _ _ Hs), Hs, filter_no_scope by done.
  rewrite getBasePath_default by done. by destruct (decide _).
Qed.

Lemma getBasePath_unknown_scope_witness :
  Conf.getBasePath (P := Sample.posix) (Some "travel") MoreSamples.twice
  = Conf.getBasePath (P := Sample.posix) None MoreSamples.twice.
Proof.
  apply (getBasePath_unknown_scope (P := Sample.posix) (Some "travel") MoreSamples.twice
           [MoreSamples.office; MoreSamples.home; MoreSamples.lab] eq_refl).
  repeat constructor; by vm_compute.
Defined.

(** X4: when several scope definitions share the requested name, the base
    path is taken from the first of them and the patterns from the last. *)
Theorem duplicate_scope_first_base_last_patterns `{P : Platform} s (config : Config)
    scopes first more final :
  Conf.resolveScope (Some s) = s ->
  s <> Conf.SCOPE_DEFAULT ->
  getScopeDefinitions config "scopes" = Some scopes ->
  filter (fun sd => sd_name sd = s) scopes = first :: more ->
  last (first :: more) = Some final ->
  Conf.getBasePath (Some s) config
  = Ok (pathFormatParse (pathNormalize (JS.replace "${homeDir}" homedir (sd_base first)))) /\
  Conf.scopeDefinition config (Some s) = Some final /\
  Conf.entryPathDefinition (Some s) config = (sd_patterns final ≫= entries) ≫= path /\
  Conf.entryFileDefinition (Some s) config = (sd_patterns final ≫= entries) ≫= file /\
  Conf.notesPathDefinition (Some s) config = (sd_patterns final ≫= notes) ≫= path /\
  Conf.notesFileDefinition (Some s) config = (sd_patterns final ≫= notes) ≫= file.
Proof.
  intros Hr Hs Hc Hf Hl.
  assert (Conf.scopeDefinition config (Some s) = Some final) as Hsd.
  { unfold Conf.scopeDefinition. rewrite Hc. cbn [mbind option_bind].
    rewrite <- Hl, <- Hf. f_equal. apply list_filter_iff. intros sd. split; congruence. }
  split.
  - unfold Conf.getBasePath.
    rewrite Hr, decide_False, (notAnArray_scopes _ _ _ Hc), Hc, Hf by done. done.
  - split; [done|].
    unfold Conf.entryPathDefinition, Conf.entryFileDefinition,
      Conf.notesPathDefinition, Conf.notesFileDefinition.
    rewrite Hr, bool_decide_eq_false_2, Hsd by done. done.
Qed.

Lemma duplicate_scope_first_base_last_patterns_witness :
  Conf.getBasePath (P := Sample.posix) (Some "work") MoreSamples.twice
  = Ok "/home/ada/Office" /\
  Conf.scopeDefinition MoreSamples.twice (Some "work") = Some MoreSamples.lab /\
  Conf.entryPathDefinition (Some "work") MoreSamples.twice = Some "${base}/${year}" /\
  Conf.entryFileDefinition (Some "work") MoreSamples.twice = Some "${month}-${day}.${ext}" /\
  Conf.notesPathDefinition (Some "work") MoreSamples.twice = None /\
  Conf.notesFileDefinition (Some "work") MoreSamples.twice = None.
Proof.
  exact (duplicate_scope_first_base_last_patterns (P := Sample.posix) "work"
           MoreSamples.twice [MoreSamples.office; MoreSamples.home; MoreSamples.lab]
           MoreSamples.office [MoreSamples.lab] MoreSamples.lab
           eq_refl ltac:(done) eq_refl eq_refl eq_refl).
Defined.


(** ** File extension and file names *)

Lemma substring_tail c e :
  JS.substring 1 (Z.of_nat (String.length (String c e))) (String c e) = e.
Proof.
  pose proof (substring_middle (String c "") e "") as H.
  rewrite app_nil_r in H. cbn [String.length] in H.
  change (String c "" +:+ e) with (String c e) in H.
  by rewrite Z.sub_0_r in H.
Qed.

(** What [getFileExtension] answers: one leading dot is dropped. *)
Lemma getFileExtension_dot (config : Config) e :
  getString config "ext" = Some ("." +:+ e) -> Conf.getFileExtension config = Ok e.
Proof.
  unfold getString, Conf.getFileExtension.
  destruct (config !! "ext") as [[]|]; try done. intros [= ->].
  change ("." +:+ e) with (String "." e). cbn [JS.startsWith].
  rewrite decide_True by done. by rewrite substring_tail.
Qed.

Lemma getFileExtension_plain (config : Config) e :
  getString config "ext" = Some e ->
  JS.startsWith "." e = false ->
  Conf.getFileExtension config = Ok e.
Proof.
  unfold getString, Conf.getFileExtension.
  destruct (config !! "ext") as [[]|]; try done. by intros [= ->] ->.
Qed.

Lemma getFileExtension_missing (config : Config) :
  getString config "ext" = None ->
  exists e, Conf.getFileExtension config = Err e.
Proof.
  unfold getString, Conf.getFileExtension.
  destruct (config !! "ext") as [[]|]; try done; eauto.
Qed.

Section ExtSetting.

Context `{P : Platform}.

Implicit Types config : Config.

Lemma getString_ext config v : getString (<["ext" := SString v]> config) "ext" = Some v.
Proof. unfold getString. by rewrite lookup_insert_eq. Qed.

Lemma fileDefinitions_ext config v _scopeId :
  Conf.entryFileDefinition _scopeId (<["ext" := v]> config)
  = Conf.entryFileDefinition _scopeId config /\
  Conf.notesFileDefinition _scopeId (<["ext" := v]> config)
  = Conf.notesFileDefinition _scopeId config.
Proof.
  unfold Conf.entryFileDefinition, Conf.notesFileDefinition, Conf.scopeDefinition,
    getPatternDefinition, getScopeDefinitions.
  by rewrite !lookup_insert_ne by done.
Qed.

Lemma scopedLookUp_ext config v _scopeId :
  Conf.scopedLookUp _scopeId (<["ext" := v]> config) = Conf.scopedLookUp _scopeId config.
Proof.
  unfold Conf.scopedLookUp, notAnArray. by rewrite !lookup_insert_ne by done.
Qed.

(** X6: an extension written with a leading dot and the same extension
    written without it give the same file patterns and file names, for
    entries and for notes. *)
Theorem extension_dot_makes_no_difference date input _scopeId config e :
  JS.startsWith "." e = false ->
  Conf.getEntryFilePattern date _scopeId (<["ext" := SString ("." +:+ e)]> config)
  = Conf.getEntryFilePattern date _scopeId (<["ext" := SString e]> config) /\
  Conf.getNotesFilePattern date input _scopeId (<["ext" := SString ("." +:+ e)]> config)
  = Conf.getNotesFilePattern date input _scopeId (<["ext" := SString e]> config).
Proof.
  intros Hd.
  unfold Conf.getEntryFilePattern, Conf.getNotesFilePattern.
  rewrite !scopedLookUp_ext.
  rewrite (getFileExtension_dot _ e) by apply getString_ext.
  rewrite (getFileExtension_plain _ e) by (apply getString_ext || done).
  destruct (fileDefinitions_ext config (SString ("." +:+ e)) _scopeId) as [-> ->].
  by destruct (fileDefinitions_ext config (SString e) _scopeId) as [-> ->].
Qed.

(** X7: without an ext setting that is a string the file extension is not
    resolved (on a missing setting the test of [getFileExtension] reads
    the length of the undefined value), and both file patterns are
    rejected, whatever pattern is configured: with the error of
    [getFileExtension] where the look-up of the scope goes through, and
    with the error of that look-up where it raises first. *)
Theorem extension_missing_rejects date input _scopeId config :
  getString config "ext" = None ->
  exists e,
    Conf.getFileExtension config = Err e /\
    let e' := match Conf.scopedLookUp _scopeId config with
              | Ok _ => e
              | Err raised => raised
              end in
    Conf.getEntryFilePattern date _scopeId config = Err e' /\
    Conf.getNotesFilePattern date input _scopeId config = Err e'.
Proof.
  intros H. destruct (getFileExtension_missing config H) as [e He].
  exists e. split; [done|].
  unfold Conf.getEntryFilePattern, Conf.getNotesFilePattern. rewrite He.
  by destruct (Conf.scopedLookUp _scopeId config).
Qed.

End ExtSetting.

Lemma extension_dot_makes_no_difference_witness :
  Conf.getEntryFilePattern (P := Sample.posix) Sample.today None
    (<["ext" := SString ("." +:+ "txt")]> Sample.overridden)
  = Conf.getEntryFilePattern (P := Sample.posix) Sample.today None
      (<["ext" := SString "txt"]> Sample.overridden) /\
  Conf.getNotesFilePattern (P := Sample.posix) Sample.today "ideas" None
    (<["ext" := SString ("." +:+ "txt")]> Sample.overridden)
  = Conf.getNotesFilePattern (P := Sample.posix) Sample.today "ideas" None
      (<["ext" := SString "txt"]> Sample.overridden).
Proof.
  exact (extension_dot_makes_no_difference (P := Sample.posix) Sample.today "ideas" None
           Sample.overridden "txt" eq_refl).
Defined.

Lemma extension_missing_rejects_witness :
  exists e, Conf.getFileExtension Sample.doubled = Err e /\
            Conf.getEntryFilePattern (P := Sample.posix) Sample.today None Sample.doubled
            = Err e /\
            Conf.getNotesFilePattern (P := Sample.posix) Sample.today "ideas" None
              Sample.doubled = Err e.
Proof.
  exact (extension_missing_rejects (P := Sample.posix) Sample.today "ideas" None
           Sample.doubled eq_refl).
Defined.

(** With the scopes setting as it ships and a requested scope, the look-up
    of the scope raises before the extension is read. *)
Example scoped_file_patterns_rejected :
  Conf.getEntryFilePattern (P := Sample.posix) Sample.today (Some "work") Sample.noScopes
  = Err Conf.filterError /\
  Conf.getNotesFilePattern (P := Sample.posix) Sample.today "ideas" (Some "work")
    Sample.noScopes = Err Conf.filterError /\
  Conf.getEntryPathPattern (P := Sample.posix) Sample.today (Some "work") Sample.noScopes
  = Err Conf.filterError /\
  Conf.getNotesPathPattern (P := Sample.posix) Sample.today (Some "work") Sample.noScopes
  = Err Conf.filterError.
Proof. by vm_compute. Qed.

Lemma resolved_pattern_not_empty_witness :
  exists t,
    template {| name := None; scope := Some "default";
                template := Some "${homeDir}/diary//${year}";
                value := Some "${homeDir}/diary/2026" |} = Some t /\ t <> "".
Proof.
  apply (resolved_pattern_not_empty (P := Sample.posix) Sample.today "ideas" None
           Sample.overridden).
  right. right. left. by vm_compute.
Defined.

(** ** Resolved templates *)

Section ResolvedTemplates.

Context `{P : Platform}.

Implicit Types segs : list Segments.segment.

(** The date tokens of a template of segments, resolved. *)
Lemma replaceDateFormats_render date segs :
  forallb Segments.wellFormed segs = true ->
  Segments.inert date segs = true ->
  Conf.replaceDateFormats (Segments.render segs) date = Segments.renderResolved date segs.
Proof.
  intros Hwf Hin. unfold Conf.replaceDateFormats.
  rewrite matchAll_render by done.
  exact (replaceDateFormat_loop date segs [] Hwf Hin eq_refl eq_refl).
Qed.

Lemma matchAll_renderResolved date segs rest :
  forallb Segments.wellFormed segs = true ->
  Segments.inert date segs = true ->
  Conf.matchAll 0 (Segments.renderResolved date segs +:+ rest) = Conf.matchAll 0 rest.
Proof.
  induction segs as [|seg segs IH]; [done|].
  cbn [forallb]. intros [Hwf Hall]%andb_true_iff.
  unfold Segments.inert. cbn [forallb]. intros [Hv Hin]%andb_true_iff.
  cbn [Segments.renderResolved]. rewrite app_assoc.
  destruct seg as [s|name|name|spec]; cbn [Segments.resolved Segments.isToken negb orb] in *.
  - rewrite matchAll_plain by done. by apply IH.
  - rewrite !app_assoc, matchAll_unknown by done. by apply IH.
  - rewrite matchAll_plain by done. by apply IH.
  - rewrite matchAll_plain by done. by apply IH.
Qed.

(** X9: once the date tokens of a template are resolved no date token is
    left, and resolving the result again changes nothing, for a template
    of text, date tokens and other variables whose formatted texts hold no
    dollar sign. *)
Theorem replaceDateFormats_idempotent date segs :
  forallb Segments.wellFormed segs = true ->
  Segments.inert date segs = true ->
  Conf.matchAll 0 (Conf.replaceDateFormats (Segments.render segs) date) = [] /\
  Conf.replaceDateFormats (Conf.replaceDateFormats (Segments.render segs) date) date
  = Conf.replaceDateFormats (Segments.render segs) date.
Proof.
  intros Hwf Hin. rewrite replaceDateFormats_render by done.
  assert (Conf.matchAll 0 (Segments.renderResolved date segs) = []) as Hno.
  { rewrite <- (app_nil_r (Segments.renderResolved date segs)).
    by rewrite matchAll_renderResolved. }
  split; [done|]. by apply replaceDateFormats_no_token.
Qed.

(** X10: where the look-up of the scope goes through (the default scope,
    or a scopes setting that is missing or an array) and finds no file
    pattern, with an extension and an input without dollar signs, and
    formatted texts without dollar signs, the entry file is named
    year-month-day, the weekday and the extension, and the note file N,
    year, month, day, the input and the extension. *)
Theorem default_file_names date input _scopeId (config : Config) ext :
  Conf.scopedLookUp _scopeId config = Ok tt ->
  Conf.entryFileDefinition _scopeId config = None ->
  Conf.notesFileDefinition _scopeId config = None ->
  Conf.getFileExtension config = Ok ext ->
  JS.dollarFree ext = true ->
  JS.dollarFree input = true ->
  Forall (fun code => JS.dollarFree (momentFormat date code) = true)
    ["YYYY"; "MM"; "DD"; "dddd"] ->
  (exists st,
     Conf.getEntryFilePattern date _scopeId config = Ok st /\
     value st = Some (momentFormat date "YYYY" +:+ "-" +:+ momentFormat date "MM" +:+ "-"
                      +:+ momentFormat date "DD" +:+ " " +:+ momentFormat date "dddd"
                      +:+ "." +:+ ext)) /\
  (exists st,
     Conf.getNotesFilePattern date input _scopeId config = Ok st /\
     value st = Some ("N" +:+ momentFormat date "YYYY" +:+ momentFormat date "MM"
                      +:+ momentFormat date "DD" +:+ "_" +:+ input +:+ "." +:+ ext)).
Proof.
  intros Hl He Hn Hext Hd Hi Hf.
  apply Forall_cons in Hf as [Hy Hf]. apply Forall_cons in Hf as [Hm Hf].
  apply Forall_cons in Hf as [Hday Hf]. apply Forall_cons in Hf as [Hw _].
  split; eexists; (split; [by (apply getEntryFilePattern_value
                               || apply getNotesFilePattern_value)|]);
    cbn [value]; f_equal.
  - rewrite He. cbn [Conf.orDefault].
    change Conf.DefaultPatternDefinition.entries.file
      with ("${year}-${month}-${day} ${weekday}." +:+ "${ext}" +:+ "").
    rewrite replace_at by done. rewrite app_nil_r.
    pose proof (replaceDateFormats_render date
                  [Segments.Fixed "year"; Segments.Plain "-"; Segments.Fixed "month";
                   Segments.Plain "-"; Segments.Fixed "day"; Segments.Plain " ";
                   Segments.Fixed "weekday"; Segments.Plain ("." +:+ ext)]) as H.
    cbn [Segments.render Segments.source Segments.renderResolved Segments.resolved] in H.
    rewrite !app_nil_r in H. rewrite !app_assoc in H.
    change (Segments.codeOf "year") with "YYYY" in H.
    change (Segments.codeOf "month") with "MM" in H.
    change (Segments.codeOf "day") with "DD" in H.
    change (Segments.codeOf "weekday") with "dddd" in H.
    rewrite <- H; [done| |].
    + cbn. change ("." +:+ ext) with (String "." ext). cbn. by rewrite Hd.
    + unfold Segments.inert. cbn.
      change (Segments.codeOf "year") with "YYYY".
      change (Segments.codeOf "month") with "MM".
      change (Segments.codeOf "day") with "DD".
      change (Segments.codeOf "weekday") with "dddd".
      by rewrite Hy, Hm, Hday, Hw.
  - rewrite Hn. cbn [Conf.orDefault].
    change Conf.DefaultPatternDefinition.notes.file
      with ("N${year}${month}${day}_${input}." +:+ "${ext}" +:+ "").
    rewrite replace_at by done. rewrite app_nil_r.
    change ("N${year}${month}${day}_${input}." +:+ ext)
      with ("N${year}${month}${day}_" +:+ "${input}" +:+ ("." +:+ ext)).
    rewrite replace_at by done.
    pose proof (replaceDateFormats_render date
                  [Segments.Plain "N"; Segments.Fixed "year"; Segments.Fixed "month";
                   Segments.Fixed "day"; Segments.Plain ("_" +:+ input +:+ "." +:+ ext)]) as H.
    cbn [Segments.render Segments.source Segments.renderResolved Segments.resolved] in H.
    rewrite !app_nil_r in H. rewrite !app_assoc in H.
    change (Segments.codeOf "year") with "YYYY" in H.
    change (Segments.codeOf "month") with "MM" in H.
    change (Segments.codeOf "day") with "DD" in H.
    rewrite <- H; [done| |].
    + cbn. change ("_" +:+ input +:+ "." +:+ ext) with (String "_" (input +:+ String "." ext)).
      cbn. rewrite dollarFree_app, Hi. cbn. by rewrite Hd.
    + unfold Segments.inert. cbn.
      change (Segments.codeOf "year") with "YYYY".
      change (Segments.codeOf "month") with "MM".
      change (Segments.codeOf "day") with "DD".
      by rewrite Hy, Hm, Hday.
Qed.

End ResolvedTemplates.

Lemma replaceDateFormats_idempotent_witness :
  Conf.matchAll 0
    (Conf.replaceDateFormats (P := Sample.posix)
       "${base}/${year}/${d:MM}-${day} ${weekday}_${input}.${ext}" Sample.today) = [] /\
  Conf.replaceDateFormats (P := Sample.posix)
    (Conf.replaceDateFormats (P := Sample.posix)
       "${base}/${year}/${d:MM}-${day} ${weekday}_${input}.${ext}" Sample.today)
    Sample.today
  = Conf.replaceDateFormats (P := Sample.posix)
      "${base}/${year}/${d:MM}-${day} ${weekday}_${input}.${ext}" Sample.today.
Proof.
  exact (replaceDateFormats_idempotent (P := Sample.posix) Sample.today
           [Segments.Unknown "base"; Segments.Plain "/"; Segments.Fixed "year";
            Segments.Plain "/"; Segments.Custom "MM"; Segments.Plain "-";
            Segments.Fixed "day"; Segments.Plain " "; Segments.Fixed "weekday";
            Segments.Plain "_"; Segments.Unknown "input"; Segments.Plain ".";
            Segments.Unknown "ext"] eq_refl eq_refl).
Defined.

Lemma default_file_names_witness :
  (exists st,
     Conf.getEntryFilePattern (P := Sample.posix) Sample.today (Some "private")
       MoreSamples.twice = Ok st /\
     value st = Some "2026-11-02 Monday.md") /\
  (exists st,
     Conf.getNotesFilePattern (P := Sample.posix) Sample.today "ideas" (Some "private")
       MoreSamples.twice = Ok st /\
     value st = Some "N20261102_ideas.md").
Proof.
  exact (default_file_names (P := Sample.posix) Sample.today "ideas" (Some "private")
           MoreSamples.twice "md" eq_refl eq_refl eq_refl eq_refl eq_refl eq_refl
           ltac:(repeat constructor)).
Defined.

(** ** Inline templates and the content built from them *)

Lemma resolveScope_again _scopeId :
  Conf.resolveScope (Some (Conf.resolveScope _scopeId)) = Conf.resolveScope _scopeId.
Proof. by destruct _scopeId as [[|c s]|]. Qed.

(** The three tiers of [getInlineTemplate] all answer a named template
    with an anchor; behind the first tier the look-up of the second one
    raises on a setting that is not an array. *)
Lemma getInlineTemplate_tiers _id _defaultValue _scopeId (config : Config) :
  let key := if decide (Conf.resolveScope (Some _scopeId) = Conf.SCOPE_DEFAULT)
             then "templates" else "scopes" in
  if negb (stringIsNotEmpty (getString config ("tpl-" +:+ _id))) && notAnArray config key
  then Conf.getInlineTemplate _id _defaultValue _scopeId config = Err Conf.filterError
  else exists tpl : InlineTemplate,
         Conf.getInlineTemplate _id _defaultValue _scopeId config = Ok tpl /\
         name tpl = Some _id /\
         is_Some (after tpl).
Proof.
  cbv zeta. unfold Conf.getInlineTemplate, Conf.namedTemplate, Conf.scopedTemplate.
  destruct (stringIsNotEmpty (getString config ("tpl-" +:+ _id))); cbn [negb andb].
  - eexists. split; [done|]. split; [done|]. cbn [after].
    by destruct (getString config (_id +:+ "-after")) as [[|c s]|].
  - destruct (decide _).
    + destruct (notAnArray config "templates"); [done|]. cbn [bind].
      destruct (getInlineTemplates config "templates") as [l|]; [|by eexists].
      cbn [mbind option_bind].
      destruct (last _) as [p|] eqn:Hl; [|by eexists].
      apply last_Some_elem_of, list_elem_of_filter in Hl as [Hname _].
      eexists. split; [done|]. split; [done|]. cbn [after].
      destruct (template p), (after p); done.
    + destruct (notAnArray config "scopes"); [done|]. by eexists.
Qed.

(** X11: [getInlineTemplate] rejects only where its look-up raises: with
    no legacy setting, on a templates setting (in the default scope) or a
    scopes setting (for a requested scope) that is not an array, as the
    empty object the scopes setting ships as.  In every other case it
    resolves, and the template carries the requested name and a defined
    anchor, from whichever of the three tiers it comes. *)
Theorem getInlineTemplate_invariant _id _defaultValue _scopeId (config : Config) :
  let key := if decide (Conf.resolveScope (Some _scopeId) = Conf.SCOPE_DEFAULT)
             then "templates" else "scopes" in
  if negb (stringIsNotEmpty (getString config ("tpl-" +:+ _id))) && notAnArray config key
  then Conf.getInlineTemplate _id _defaultValue _scopeId config = Err Conf.filterError
  else exists tpl : InlineTemplate,
         Conf.getInlineTemplate _id _defaultValue _scopeId config = Ok tpl /\
         name tpl = Some _id /\
         is_Some (after tpl).
Proof. apply getInlineTemplate_tiers. Qed.

Lemma getInlineTemplate_invariant_witness :
  Conf.getInlineTemplate "note" "# ${input}" "work" Sample.noScopes
  = Err Conf.filterError /\
  exists tpl : InlineTemplate,
    Conf.getInlineTemplate "note" "# ${input}" "work" Sample.scopedNoteTemplates = Ok tpl /\
    name tpl = Some "note" /\
    is_Some (after tpl).
Proof.
  split.
  - exact (getInlineTemplate_invariant "note" "# ${input}" "work" Sample.noScopes).
  - exact (getInlineTemplate_invariant "note" "# ${input}" "work"
             Sample.scopedNoteTemplates).
Defined.

(** A template that [getInlineTemplate] resolves to has a name and an
    anchor. *)
Lemma getInlineTemplate_resolved _id _defaultValue _scopeId (config : Config) r :
  Conf.getInlineTemplate _id _defaultValue _scopeId config = Ok r ->
  name r = Some _id /\ is_Some (after r).
Proof.
  intros H. pose proof (getInlineTemplate_tiers _id _defaultValue _scopeId config) as T.
  cbv zeta in T. destruct (_ && _); [congruence|].
  destruct T as (tpl & Ht & Hn & Ha). rewrite H in Ht. by injection Ht as <-.
Qed.

(** The templates the two content resolvers answer are resolved ones. *)
Lemma getNotesTemplate_resolved `{P : Platform} _scopeId (config : Config) tpl :
  Conf.getNotesTemplate _scopeId config = Ok tpl ->
  is_Some (value tpl) /\ is_Some (after tpl) /\ name tpl = Some "note".
Proof.
  unfold Conf.getNotesTemplate.
  destruct (Conf.getInlineTemplate "note" _ (Conf.resolveScope _scopeId) config)
    as [r|e] eqn:Hr; [|done].
  apply getInlineTemplate_resolved in Hr as [Hn Ha].
  cbn [bind]. destruct (template r); [|done]. by intros [= <-].
Qed.

Lemma getEntryTemplate_resolved `{P : Platform} date _scopeId (config : Config) tpl :
  Conf.getEntryTemplate date _scopeId config = Ok tpl ->
  is_Some (value tpl) /\ is_Some (after tpl) /\ name tpl = Some "entry".
Proof.
  unfold Conf.getEntryTemplate.
  destruct (Conf.getInlineTemplate "entry" _ (Conf.resolveScope _scopeId) config)
    as [r|e] eqn:Hr; [|done].
  apply getInlineTemplate_resolved in Hr as [Hn Ha].
  cbn [bind]. destruct (template r); [|done].
  destruct (Conf.getBasePath _scopeId config); [|done]. cbn [bind].
  rewrite replaceVariableValue_plain by reflexivity. cbn [bind]. by intros [= <-].
Qed.

(** X12: for a resolved template, [buildInlineString] never rejects, and
    the line it inserts at is at least 1, never the first line, and at most
    the number of lines of the document. *)
Theorem buildInlineString_line_bounds doc (tpl : InlineTemplate) values :
  is_Some (value tpl) ->
  is_Some (after tpl) ->
  exists r p,
    Inject.buildInlineString doc tpl values = Ok r /\
    InlineString.position r = Some p /\
    InlineString.document r = doc /\
    (1 <= Position.line p <= TextDocument.lineCount doc)%nat.
Proof.
  intros [v Hv] [anchor Ha].
  assert (1 <= TextDocument.lineCount doc)%nat as Hcount.
  { unfold TextDocument.lineCount, TextDocument.lines.
    pose proof (splitLines_not_nil (TextDocument.text doc)).
    destruct (TextDocument.splitLines _); [done | cbn; lia]. }
  destruct (buildInlineString_position doc tpl values v anchor Hv Ha) as (content & ->).
  do 2 eexists. split; [done|]. split; [done|]. split; [done|].
  destruct (_ && _); [|cbn; lia].
  cbn [Position.translate Position.line].
  match goal with |- context [TextDocument.validatePosition doc ?q] =>
    destruct (validatePosition_valid doc q) as (x & Hx & _) end.
  apply lookup_lt_Some in Hx. unfold TextDocument.lineCount. lia.
Qed.

Lemma buildInlineString_line_bounds_witness :
  exists r p,
    Inject.buildInlineString Sample.journalPage
      (Sample.mkTemplate "- [ ] ${input}" "water the plants") [] = Ok r /\
    InlineString.position r = Some p /\
    InlineString.document r = Sample.journalPage /\
    (1 <= Position.line p <= 4)%nat.
Proof.
  apply (buildInlineString_line_bounds Sample.journalPage
           (Sample.mkTemplate "- [ ] ${input}" "water the plants") []); by eexists.
Defined.

(** X13: whatever the entry and the note template resolve to can be handed
    to [buildInlineString]: the call does not reject. *)
Theorem resolved_templates_build `{P : Platform} date _scopeId (config : Config)
    doc (tpl : InlineTemplate) values :
  Conf.getEntryTemplate date _scopeId config = Ok tpl \/
  Conf.getNotesTemplate _scopeId config = Ok tpl ->
  exists r, Inject.buildInlineString doc tpl values = Ok r.
Proof.
  intros [H|H].
  - apply getEntryTemplate_resolved in H as ([v Hv] & [anchor Ha] & _).
    destruct (buildInlineString_position doc tpl values v anchor Hv Ha) as (content & ->).
    eauto.
  - apply getNotesTemplate_resolved in H as ([v Hv] & [anchor Ha] & _).
    destruct (buildInlineString_position doc tpl values v anchor Hv Ha) as (content & ->).
    eauto.
Qed.

Lemma resolved_templates_build_witness :
  exists r,
    Inject.buildInlineString Sample.journalPage
      {| scoped := {| name := Some "note"; scope := Some "default";
                      template := Some "Title: ${input}";
                      value := Some "Title: ${input}" |};
         after := Some "" |} [("${input}", "Seeds")] = Ok r.
Proof.
  apply (resolved_templates_build (P := Sample.posix) Sample.today None Sample.legacyNote).
  right. by vm_compute.
Defined.

(** X14: with no legacy setting, no templates setting, and, for a
    requested scope, no template brought by any scope definition (so that
    the look-up of the scope, which the code makes and whose result it
    drops, has nothing to find), the content of a note is a header with
    the input, a line with the tags joined by spaces, and an empty line,
    for an input and tags without dollar signs. *)
Theorem default_note_content `{P : Platform} (config : Config) text tags scope :
  stringIsNotEmpty (getString config "tpl-note") = false ->
  config !! "templates" = None ->
  (Conf.resolveScope scope = Conf.SCOPE_DEFAULT \/
   config !! "scopes" = None \/
   exists scopes, getScopeDefinitions config "scopes" = Some scopes /\
                  Forall (fun sd => sd_templates sd = None) scopes) ->
  JS.dollarFree text = true ->
  JS.dollarFree (JS.join " " tags) = true ->
  Inject.buildNoteContent
    {| Input.text := text; Input.tags := tags; Input.scope := scope |} config
  = Ok ("# " +:+ text +:+ JS.LF +:+ JS.join " " tags +:+ JS.LF +:+ JS.LF).
Proof.
  intros Hl Ht Hs Hd Htags.
  assert (Conf.getInlineTemplate "note" ("# ${input}" +:+ JS.LF +:+ "${tags}" +:+ JS.LF)
            (Conf.resolveScope scope) config
          = Ok (Conf.hardCoded "note" ("# ${input}" +:+ JS.LF +:+ "${tags}" +:+ JS.LF)))
    as Hi.
  { unfold Conf.getInlineTemplate, Conf.namedTemplate, Conf.scopedTemplate.
    change ("tpl-" +:+ "note") with "tpl-note".
    rewrite Hl, resolveScope_again.
    destruct (decide _) as [Hdef|Hdef].
    - unfold getInlineTemplates. by rewrite (notAnArray_missing _ _ Ht), Ht.
    - destruct Hs as [Hs|[Hs|(scopes & Hs & _)]]; [done| |].
      + by rewrite (notAnArray_missing _ _ Hs).
      + by rewrite (notAnArray_scopes _ _ _ Hs). }
  unfold Inject.buildNoteContent, Conf.getNotesTemplate.
  cbn [Input.scope Input.text Input.tags]. rewrite Hi.
  cbn [bind Conf.hardCoded template scoped].
  change (JS.replace "{content}" "${input}"
            ("# ${input}" +:+ JS.LF +:+ "${tags}" +:+ JS.LF))
    with ("# " +:+ "${input}" +:+ (JS.LF +:+ "${tags}" +:+ JS.LF)).
  cbn [value scoped].
  change (Conf.replaceDateFormats ("# " +:+ "${input}" +:+ JS.LF +:+ "${tags}" +:+ JS.LF)
            currentDate)
    with ("# " +:+ "${input}" +:+ (JS.LF +:+ "${tags}" +:+ JS.LF)).
  rewrite replace_at by done. f_equal.
  assert ("# " +:+ text +:+ JS.LF +:+ "${tags}" +:+ JS.LF
          = ("# " +:+ text +:+ JS.LF) +:+ "${tags}" +:+ JS.LF) as -> by by rewrite !app_assoc.
  rewrite replace_at.
  - by rewrite !app_assoc.
  - change "${tags}" with (String "$" "{tags}").
    rewrite find_behind by (by rewrite !dollarFree_app, Hd).
    rewrite find_startsWith by done.
    cbn [fmap option_fmap option_map]. f_equal. lia.
  - by rewrite dollarFree_app, Htags.
Qed.

Lemma default_note_content_witness :
  Inject.buildNoteContent (P := Sample.posix)
    {| Input.text := "Seeds to order"; Input.tags := ["garden"; "todo"];
       Input.scope := Some "private" |} MoreSamples.twice
  = Ok ("# Seeds to order" +:+ JS.LF +:+ "garden todo" +:+ JS.LF +:+ JS.LF).
Proof.
  apply (default_note_content (P := Sample.posix) MoreSamples.twice "Seeds to order"
           ["garden"; "todo"] (Some "private")); try reflexivity.
  right. right. eexists. split; [reflexivity|]. by repeat constructor.
Defined.

(** * Further properties of the injection layer *)

Section Insertions.

Implicit Types s v : string.
Implicit Types edits : list (nat * string).
Implicit Types doc : TextDocument.t.

Lemma list_ascii_app s t :
  list_ascii_of_string (s +:+ t) = list_ascii_of_string s ++ list_ascii_of_string t.
Proof. induction s as [|c s IH]; [done|]. cbn. by rewrite IH. Qed.

(** The characters of the original text, in their order, are among those
    of the text with the insertions made. *)
Lemma weave_sublist edits offset s :
  sublist (list_ascii_of_string s)
    (list_ascii_of_string (WorkspaceEdit.weave edits offset s)).
Proof.
  revert offset; induction s as [|c s IH]; intros offset.
  - apply sublist_nil_l.
  - cbn [WorkspaceEdit.weave]. rewrite list_ascii_app.
    apply sublist_inserts_l. cbn. by apply sublist_skip.
Qed.

Lemma textsAt_length edits offset :
  String.length (WorkspaceEdit.textsAt edits offset)
  = sum_list ((fun e => if (e.1 =? offset)%nat then String.length e.2 else 0%nat) <$> edits).
Proof.
  induction edits as [|[o v] edits IH]; [done|].
  cbn [WorkspaceEdit.textsAt fmap list_fmap sum_list fst snd].
  destruct (o =? offset)%nat; [|done]. by rewrite length_app, IH.
Qed.

Lemma sum_within_split edits offset n :
  (sum_list ((fun e => if (e.1 =? offset)%nat then String.length e.2 else 0) <$> edits)
   + sum_list ((fun e => if (S offset <=? e.1) && (e.1 <=? S offset + n)
                         then String.length e.2 else 0) <$> edits)
   = sum_list ((fun e => if (offset <=? e.1) && (e.1 <=? offset + S n)
                         then String.length e.2 else 0) <$> edits))%nat.
Proof.
  induction edits as [|[o v] edits IH]; [done|].
  cbn [fmap list_fmap sum_list fst snd].
  destruct (Nat.eqb_spec o offset), (Nat.leb_spec (S offset) o),
    (Nat.leb_spec o (S offset + n)), (Nat.leb_spec offset o),
    (Nat.leb_spec o (offset + S n)); cbn [andb]; unfold id in *; lia.
Qed.

Lemma weave_length_within edits offset s :
  String.length (WorkspaceEdit.weave edits offset s)
  = (String.length s
     + sum_list ((fun e => if (offset <=? e.1) && (e.1 <=? offset + String.length s)
                           then String.length e.2 else 0) <$> edits))%nat.
Proof.
  revert offset; induction s as [|c s IH]; intros offset.
  - cbn [WorkspaceEdit.weave String.length]. rewrite app_nil_r, textsAt_length.
    cbn [Nat.add]. f_equal. apply list_fmap_ext. intros _ [o v] _. cbn [fst snd].
    destruct (Nat.eqb_spec o offset), (Nat.leb_spec offset o),
      (Nat.leb_spec o (offset + 0)); cbn [andb]; unfold id in *; (done || lia).
  - cbn [WorkspaceEdit.weave]. rewrite length_app. cbn [String.length].
    rewrite IH, textsAt_length, <- sum_within_split. lia.
Qed.

(** The length grows by the lengths of the insertions, all of which are
    made. *)
Lemma weave_length edits s :
  Forall (fun e => e.1 <= String.length s)%nat edits ->
  String.length (WorkspaceEdit.weave edits 0 s)
  = (String.length s + sum_list ((fun e => String.length e.2) <$> edits))%nat.
Proof.
  intros H. rewrite weave_length_within. f_equal.
  induction H as [|[o v] edits Ho _ IH]; [done|].
  cbn [fmap list_fmap sum_list fst snd] in *. rewrite IH. f_equal.
  cbn [Nat.add Nat.leb andb]. by rewrite (proj2 (Nat.leb_le _ _) Ho).
Qed.

(** A single insertion splits the text at its offset. *)
Lemma weave_single o v s offset :
  (o <= String.length s)%nat ->
  WorkspaceEdit.weave [(offset + o, v)%nat] offset s = JS.take o s +:+ v +:+ JS.drop o s.
Proof.
  revert s offset; induction o as [|o IH]; intros s offset Ho.
  - rewrite Nat.add_0_r.
    assert (JS.take 0 s = "") as -> by by destruct s.
    assert (JS.drop 0 s = s) as -> by by destruct s.
    assert (forall t k, WorkspaceEdit.weave [(offset, v)] (S offset + k) t = t) as Hrest.
    { induction t as [|d t IHt]; intros k; cbn [WorkspaceEdit.weave WorkspaceEdit.textsAt].
      - by rewrite (proj2 (Nat.eqb_neq _ _)) by lia.
      - rewrite (proj2 (Nat.eqb_neq _ _)) by lia. cbn. f_equal.
        specialize (IHt (S k)). by rewrite <- plus_n_Sm in IHt. }
    destruct s as [|d s]; cbn [WorkspaceEdit.weave WorkspaceEdit.textsAt];
      rewrite Nat.eqb_refl, ?app_nil_r; [done|].
    cbn. do 2 f_equal. rewrite <- (Nat.add_0_r (S offset)). apply Hrest.
  - destruct s as [|d s]; [cbn in Ho; lia|].
    cbn [WorkspaceEdit.weave WorkspaceEdit.textsAt JS.take JS.drop].
    rewrite (proj2 (Nat.eqb_neq _ _)) by lia. cbn. f_equal.
    replace (offset + S o)%nat with (S offset + o)%nat by lia.
    apply IH. cbn in Ho. lia.
Qed.

Lemma offsetIn_end s :
  TextDocument.offsetIn (TextDocument.splitLines s)
    (length (TextDocument.splitLines s) - 1)
    (String.length (default "" (last (TextDocument.splitLines s))))
  = String.length s.
Proof.
  induction s as [|c s IH]; [done|].
  pose proof (splitLines_not_nil s) as Hne.
  cbn [TextDocument.splitLines]. destruct (TextDocument.isLF c).
  - destruct (TextDocument.splitLines s) as [|l ls] eqn:E; [done|].
    change (last ("" :: l :: ls)) with (last (l :: ls)).
    cbn [length Nat.sub] in *. rewrite ?Nat.sub_0_r in *.
    change (String.length (String c s)) with (S (String.length s)).
    rewrite <- IH. cbn [TextDocument.offsetIn String.length]. lia.
  - destruct (TextDocument.splitLines s) as [|l ls] eqn:E; [done|].
    destruct ls as [|l' ls].
    + cbn in *. by rewrite IH.
    + change (last (String c l :: l' :: ls)) with (last (l :: l' :: ls)).
      cbn [length Nat.sub] in *. rewrite ?Nat.sub_0_r in *.
      change (String.length (String c s)) with (S (String.length s)).
      rewrite <- IH. cbn [TextDocument.offsetIn String.length]. lia.
Qed.

(** Past the last line a position means the end of the text; the first
    position means its start. *)
Lemma offsetAt_past_end doc p :
  (TextDocument.lineCount doc <= Position.line p)%nat ->
  TextDocument.validatePosition doc p
  = {| Position.line := TextDocument.lineCount doc - 1;
       Position.character :=
         String.length (default "" (last (TextDocument.lines doc))) |} /\
  TextDocument.offsetAt doc p = String.length (TextDocument.text doc).
Proof.
  intros Hl.
  assert (forall q, (TextDocument.lineCount doc <= Position.line q)%nat ->
            TextDocument.validatePosition doc q
            = {| Position.line := TextDocument.lineCount doc - 1;
                 Position.character :=
                   String.length (default "" (last (TextDocument.lines doc))) |}) as Hv.
  { intros q Hq. unfold TextDocument.validatePosition.
    by rewrite (proj2 (lookup_ge_None _ _) Hq). }
  split; [by apply Hv|].
  unfold TextDocument.offsetAt. rewrite Hv by done.
  cbn [Position.line Position.character]. apply offsetIn_end.
Qed.

End Insertions.

Section SingleInjection.

Context `{E : Editor}.

Implicit Types doc : TextDocument.t.

Lemma validatePosition_idem doc p :
  TextDocument.validatePosition doc (TextDocument.validatePosition doc p)
  = TextDocument.validatePosition doc p.
Proof.
  destruct (validatePosition_valid doc p) as (x & Hx & Hc).
  unfold TextDocument.validatePosition at 1. rewrite Hx.
  destruct (TextDocument.validatePosition doc p) as [l c]. cbn in *.
  f_equal. lia.
Qed.

Lemma offsetAt_validated doc p :
  TextDocument.offsetAt doc (TextDocument.validatePosition doc p)
  = TextDocument.offsetAt doc p.
Proof. unfold TextDocument.offsetAt. by rewrite validatePosition_idem. Qed.

(** What the first stage adds around the value is line feeds only: at
    most one in front and at most two behind. *)
Lemma prepare_line_feeds (content : InlineString.t) :
  exists a b,
    (a = "" \/ a = JS.LF) /\
    (b = "" \/ b = JS.LF \/ b = JS.LF +:+ JS.LF) /\
    Inject.prepare content
    = Ok (TextDocument.validatePosition (InlineString.document content)
            (default Inject.line1 (InlineString.position content)),
          a +:+ InlineString.value content +:+ b).
Proof.
  unfold Inject.prepare.
  set (doc := InlineString.document content).
  set (p0 := default Inject.line1 (InlineString.position content)).
  destruct (lineAt_validated doc p0) as (x & ->). cbn [bind].
  destruct (endOfDocument_ok doc) as (e & ->). cbn [bind].
  set (v0 := InlineString.value content).
  set (first := (_ && negb _)).
  set (second := (_ && (_ <? _)%nat)).
  assert (forall a b,
            (a = "" \/ a = JS.LF) -> (b = "" \/ b = JS.LF) ->
            exists a' b',
              (a' = "" \/ a' = JS.LF) /\
              (b' = "" \/ b' = JS.LF \/ b' = JS.LF +:+ JS.LF) /\
              (if second
               then next <- TextDocument.lineAt doc
                              (Position.line (TextDocument.validatePosition doc p0) + 1) ;;
                    Ok (TextDocument.validatePosition doc p0,
                        if TextDocument.isHeader next
                        then (a +:+ v0 +:+ b) +:+ JS.LF else a +:+ v0 +:+ b)
               else Ok (TextDocument.validatePosition doc p0, a +:+ v0 +:+ b))
              = Ok (TextDocument.validatePosition doc p0, a' +:+ v0 +:+ b')) as Hsecond.
  { intros a b Ha Hb. destruct second eqn:S2.
    - subst second. apply andb_prop in S2 as [_ S2]. apply Nat.ltb_lt in S2.
      unfold TextDocument.lineAt.
      destruct (TextDocument.lines doc !! _) as [next|] eqn:L.
      + cbn [bind]. destruct (TextDocument.isHeader next).
        * exists a, (b +:+ JS.LF). rewrite !app_assoc.
          split; [done|]. split; [|done].
          destruct Hb as [-> | ->]; [right; left | right; right]; done.
        * exists a, b. split; [done|]. split; [|done].
          destruct Hb as [-> | ->]; [left | right; left]; done.
      + apply lookup_ge_None in L. unfold TextDocument.lineCount in S2.
        cbn [Position.translate Position.line] in S2. lia.
    - exists a, b. split; [done|]. split; [|done].
      destruct Hb as [-> | ->]; [left | right; left]; done. }
  destruct first.
  - cbn [bind]. destruct (Position.isAfterOrEqual _ e).
    + destruct (Hsecond JS.LF JS.LF) as (a' & b' & Ha' & Hb' & Heq); [by right..|].
      exists a', b'. split; [done|]. split; [done|].
      rewrite <- Heq. by rewrite !app_assoc.
    + destruct (Hsecond "" JS.LF) as (a' & b' & Ha' & Hb' & Heq); [by left | by right|].
      exists a', b'. split; [done|]. split; [done|].
      rewrite <- Heq. done.
  - cbn [bind].
    destruct (Hsecond "" "") as (a' & b' & Ha' & Hb' & Heq); [by left..|].
    exists a', b'. split; [done|]. split; [done|].
    rewrite <- Heq. by rewrite !app_nil_r.
Qed.

Lemma insertionsFor_single doc p v :
  WorkspaceEdit.insertionsFor doc
    [ {| WorkspaceEdit.target := TextDocument.uri doc;
         WorkspaceEdit.at_ := p;
         WorkspaceEdit.newText := v |} ]
  = [ (TextDocument.offsetAt doc p, v) ].
Proof.
  unfold WorkspaceEdit.insertionsFor.
  cbn [filter list_filter]. by rewrite decide_True by done.
Qed.

(** X15: a single injection never rejects a position and never alters
    what is there: whatever the position, the document's text is cut at
    the offset of the validated position and the content is put between
    the two parts, with at most one line feed in front of it and at most
    two behind; the only failure is the editor's refusal of the edit. *)
Theorem injectString_splices doc content position :
  exists a b,
    (a = "" \/ a = JS.LF) /\
    (b = "" \/ b = JS.LF \/ b = JS.LF +:+ JS.LF) /\
    Inject.injectString doc content position
    = let o := TextDocument.offsetAt doc position in
      if applyEditSucceeds
           [ {| WorkspaceEdit.target := TextDocument.uri doc;
                WorkspaceEdit.at_ := TextDocument.validatePosition doc position;
                WorkspaceEdit.newText := a +:+ content +:+ b |} ]
      then Ok {| TextDocument.uri := TextDocument.uri doc;
                 TextDocument.text :=
                   JS.take o (TextDocument.text doc)
                   +:+ (a +:+ content +:+ b)
                   +:+ JS.drop o (TextDocument.text doc) |}
      else Err "Failed to applied edit".
Proof.
  destruct (prepare_line_feeds
              {| InlineString.document := doc;
                 InlineString.position := Some position;
                 InlineString.value := content |}) as (a & b & Ha & Hb & Hp).
  exists a, b. split; [done|]. split; [done|].
  unfold Inject.injectString, Inject.injectInlineString, Inject.collect.
  rewrite Hp. cbn [bind Inject.furtherInsertions fst snd InlineString.document
                   InlineString.position InlineString.value default].
  cbv zeta.
  destruct (applyEditSucceeds _); [|done].
  unfold WorkspaceEdit.applyTo. rewrite insertionsFor_single, offsetAt_validated.
  do 2 f_equal.
  apply (weave_single (TextDocument.offsetAt doc position) _ _ 0%nat).
  apply offsetAt_le.
Qed.

End SingleInjection.

Section HeadersAndEnds.

Context `{E : Editor}.

Implicit Types doc : TextDocument.t.


Lemma drop_all s : JS.drop (String.length s) s = "".
Proof. induction s as [|c s IH]; [done | by cbn]. Qed.

Lemma weave_back v s :
  WorkspaceEdit.weave [(String.length s, v)] 0 s = s +:+ v.
Proof.
  pose proof (weave_single (String.length s) v s 0 ltac:(lia)) as H.
  cbn [Nat.add] in H. by rewrite H, take_all, drop_all, app_nil_r.
Qed.


(** X17: a position on a line past the last one appends to the text.  At
    character 0, when the last line is not blank, the content goes on a
    line of its own (a line feed on either side); otherwise it follows the
    last character as it is. *)
Theorem injectString_past_end doc content p :
  (TextDocument.lineCount doc <= Position.line p)%nat ->
  Inject.injectString doc content p
  = let end_ := default "" (last (TextDocument.lines doc)) in
    let v := if (Position.character p =? 0)%nat
                && negb (TextDocument.isEmptyOrWhitespace end_)
             then JS.LF +:+ content +:+ JS.LF else content in
    if applyEditSucceeds
         [ {| WorkspaceEdit.target := TextDocument.uri doc;
              WorkspaceEdit.at_ :=
                {| Position.line := TextDocument.lineCount doc - 1;
                   Position.character := String.length end_ |};
              WorkspaceEdit.newText := v |} ]
    then Ok {| TextDocument.uri := TextDocument.uri doc;
               TextDocument.text := TextDocument.text doc +:+ v |}
    else Err "Failed to applied edit".
Proof.
  intros Hp. destruct (offsetAt_past_end doc p Hp) as [Hv Ho].
  set (end_ := default "" (last (TextDocument.lines doc))) in *.
  assert (TextDocument.lines doc !! (TextDocument.lineCount doc - 1)%nat = Some end_) as Hl.
  { unfold end_, TextDocument.lineCount.
    destruct (last (TextDocument.lines doc)) as [l|] eqn:L.
    - rewrite last_lookup in L. by rewrite Nat.sub_1_r.
    - apply last_None in L. by apply splitLines_not_nil in L. }
  assert (1 <= TextDocument.lineCount doc)%nat as Hc.
  { apply lookup_lt_Some in Hl. unfold TextDocument.lineCount in *. lia. }
  unfold Inject.injectString, Inject.injectInlineString, Inject.collect, Inject.prepare.
  cbn [InlineString.document InlineString.position InlineString.value default
       from_option id Inject.furtherInsertions].
  rewrite Hv. unfold TextDocument.endOfDocument, TextDocument.lineAt.
  cbn [Position.line Position.translate]. rewrite Hl. cbn [bind].
  assert ((TextDocument.lineCount doc - 1 + 1 <? TextDocument.lineCount doc)%nat = false)
    as -> by (apply Nat.ltb_ge; lia).
  rewrite andb_false_r.
  assert (Position.isAfterOrEqual
            {| Position.line := TextDocument.lineCount doc - 1;
               Position.character := String.length end_ |}
            {| Position.line := TextDocument.lineCount doc - 1;
               Position.character := String.length end_ |} = true) as ->.
  { unfold Position.isAfterOrEqual. cbn [Position.line Position.character].
    by rewrite Nat.eqb_refl, Nat.leb_refl, orb_true_r. }
  cbv zeta.
  assert (forall v,
            (if applyEditSucceeds
                  [ {| WorkspaceEdit.target := TextDocument.uri doc;
                       WorkspaceEdit.at_ := TextDocument.validatePosition doc p;
                       WorkspaceEdit.newText := v |} ]
             then Ok (WorkspaceEdit.applyTo doc
                        [ {| WorkspaceEdit.target := TextDocument.uri doc;
                             WorkspaceEdit.at_ := TextDocument.validatePosition doc p;
                             WorkspaceEdit.newText := v |} ])
             else Err "Failed to applied edit")
            = if applyEditSucceeds
                   [ {| WorkspaceEdit.target := TextDocument.uri doc;
                        WorkspaceEdit.at_ := TextDocument.validatePosition doc p;
                        WorkspaceEdit.newText := v |} ]
              then Ok {| TextDocument.uri := TextDocument.uri doc;
                         TextDocument.text := TextDocument.text doc +:+ v |}
              else Err "Failed to applied edit") as Happly.
  { intros v. destruct (applyEditSucceeds _); [|done].
    unfold WorkspaceEdit.applyTo.
    by rewrite insertionsFor_single, offsetAt_validated, Ho, weave_back. }
  rewrite Hv in Happly.
  destruct ((Position.character p =? 0)%nat && negb (TextDocument.isEmptyOrWhitespace end_));
    cbn [bind fst snd]; rewrite Happly; by rewrite ?app_assoc.
Qed.

End HeadersAndEnds.

(** The sampled cases: a header put in front of a page whose first line
    is a header, and a memo placed past the end of the page. *)
Lemma injectString_past_end_witness :
  (TextDocument.lineCount Sample.journalPage <= 9)%nat /\
  @Inject.injectString Sample.editor Sample.journalPage "- remember"
    {| Position.line := 9; Position.character := 0 |}
  = Ok {| TextDocument.uri := TextDocument.uri Sample.journalPage;
          TextDocument.text :=
            TextDocument.text Sample.journalPage
            +:+ JS.LF +:+ "- remember" +:+ JS.LF |}.
Proof.
  split; [vm_compute; lia|].
  etrans;
    [apply (@injectString_past_end Sample.editor Sample.journalPage "- remember"
              {| Position.line := 9; Position.character := 0 |}); vm_compute; lia
    | reflexivity].
Defined.

(** The no-break space is white space: behind a hash it makes a header,
    which gets a line feed more in front of it, and a line of nothing else
    is blank, so that what is appended behind it is appended as it is. *)
Example no_break_space :
  TextDocument.text <$>
    (match @Inject.injectHeader Sample.editor
             {| TextDocument.uri := "u";
                TextDocument.text :=
                  "a" +:+ JS.LF +:+ "#" +:+ String (ascii_of_nat 160) "T" |} "H"
     with Ok d => Some d | Err _ => None end)
  = Some ("H" +:+ JS.LF +:+ JS.LF +:+ "a" +:+ JS.LF +:+ "#" +:+ String (ascii_of_nat 160) "T") /\
  TextDocument.text <$>
    (match @Inject.injectString Sample.editor
             {| TextDocument.uri := "u";
                TextDocument.text := "abc" +:+ JS.LF +:+ String (ascii_of_nat 160) "" |} "X"
             {| Position.line := 9; Position.character := 0 |}
     with Ok d => Some d | Err _ => None end)
  = Some ("abc" +:+ JS.LF +:+ String (ascii_of_nat 160) "X").
Proof. by vm_compute. Qed.

(** X18: injection only ever inserts.  When an injection of several
    entries resolves, the characters of the leading document's old text
    are all in the new text, in their order, and the new text is longer
    by exactly the lengths of the insertions that the edit holds for that
    document: none is dropped, none overwrites another. *)
Theorem injectInlineString_only_inserts `{E : Editor}
    (content : InlineString.t) (other : list InlineString.t) (doc' : TextDocument.t) :
  Inject.injectInlineString content other = Ok doc' ->
  exists edit,
    Inject.collect content other = Ok edit /\
    sublist (list_ascii_of_string (TextDocument.text (InlineString.document content)))
            (list_ascii_of_string (TextDocument.text doc')) /\
    String.length (TextDocument.text doc')
    = (String.length (TextDocument.text (InlineString.document content))
       + sum_list ((fun i => String.length (WorkspaceEdit.newText i))
                   <$> filter (fun i => WorkspaceEdit.target i
                                        = TextDocument.uri (InlineString.document content))
                         edit))%nat.
Proof.
  unfold Inject.injectInlineString.
  destruct (Inject.collect content other) as [edit|msg]; [|done].
  cbn [bind]. destruct (applyEditSucceeds edit); [|done].
  intros [= <-]. exists edit. split; [done|].
  cbn [WorkspaceEdit.applyTo TextDocument.text]. split.
  - apply weave_sublist.
  - rewrite weave_length.
    + f_equal. unfold WorkspaceEdit.insertionsFor.
      rewrite <- list_fmap_compose. done.
    + unfold WorkspaceEdit.insertionsFor. apply Forall_fmap, Forall_forall.
      intros i _. cbn. apply offsetAt_le.
Qed.

Lemma injectInlineString_only_inserts_witness :
  exists doc',
    Inject.injectInlineString (E := Sample.editor)
      (Sample.entry (Sample.at_ 1 0) "- [ ] call the plumber" Sample.journalPage)
      [Sample.entry (Sample.at_ 3 0) "- [ ] pay the rent" Sample.journalPage;
       Sample.entry (Sample.at_ 0 0) "elsewhere" Sample.oneLine]
    = Ok doc' /\
    String.length (TextDocument.text doc')
    = (String.length (TextDocument.text Sample.journalPage) + (23 + 19))%nat.
Proof.
  eexists. split; [reflexivity|].
  destruct (injectInlineString_only_inserts (E := Sample.editor)
              (Sample.entry (Sample.at_ 1 0) "- [ ] call the plumber" Sample.journalPage)
              [Sample.entry (Sample.at_ 3 0) "- [ ] pay the rent" Sample.journalPage;
               Sample.entry (Sample.at_ 0 0) "elsewhere" Sample.oneLine]
              _ eq_refl) as (edit & Hc & _ & Hl).
  injection Hc as <-. exact Hl.
Defined.

(** * Entries on lines of their own *)

Section OwnLines.

Implicit Types s v t a b : string.
Implicit Types edits pre post : list (nat * string).
Implicit Types doc : TextDocument.t.

(** ** Lines and their offsets *)





Lemma offsetIn_character (ls : list string) l c :
  TextDocument.offsetIn ls l c = (TextDocument.offsetIn ls l 0 + c)%nat.
Proof.
  revert l; induction ls as [|x ls IH]; intros [|l]; cbn; try lia.
  rewrite IH. lia.
Qed.


(** ** Insertions and the characters around them *)









(** ** Positions at the start of a line *)







Context `{E : Editor}.




End OwnLines.


(** The lines of the text in that example: the two further entries in
    front of the line they are positioned at, the leading one, positioned
    past the end, behind the last line. *)
Example injectInlineString_three_tasks :
  TextDocument.lines <$>
    (match Inject.injectInlineString (E := Sample.editor)
             (Sample.entry (Sample.at_ 9 0) "- [ ] call the plumber" Sample.journalPage)
             [Sample.entry (Sample.at_ 3 0) "- [ ] pay the rent" Sample.journalPage;
              Sample.entry (Sample.at_ 3 0) "- [ ] feed the cat" Sample.journalPage]
     with Ok d => Some d | Err _ => None end)
  = Some ["# Monday"; ""; "## Tasks"; "- [ ] pay the rent"; "- [ ] feed the cat";
          "- [ ] water the plants"; "- [ ] call the plumber"; ""].
Proof. by vm_compute. Qed.

(** * The texts of the quick picker *)

Section QuickPicker.

Implicit Types config : Config.
Implicit Types st : Locale.Translations.

Lemma getLocale_not_empty config : Locale.getLocale config <> "".
Proof.
  unfold Locale.getLocale.
  destruct (getString config "locale") as [[|c l]|]; done.
Qed.

(** X19: the calendar format shows the word undefined for last week
    exactly for the locales that start with none of en, de and es: for
    the French ones, which bring three labels only, and for those that
    bring none. *)
Theorem lastWeek_undefined config :
  Locale.lastWeek (Locale.getInputDetailsTimeFormat config) = "[undefined] dddd"
  <-> JS.startsWith "en" (Locale.getLocale config) = false /\
      JS.startsWith "de" (Locale.getLocale config) = false /\
      JS.startsWith "es" (Locale.getLocale config) = false.
Proof.
  unfold Locale.getInputDetailsTimeFormat, Locale.labelsFor.
  cbn [Locale.lastWeek].
  destruct (JS.startsWith "en" (Locale.getLocale config));
    [split; [discriminate | by intros [? _]]|].
  destruct (JS.startsWith "de" (Locale.getLocale config));
    [split; [discriminate | by intros (_ & ? & _)]|].
  destruct (JS.startsWith "fr" (Locale.getLocale config)) eqn:Hfr.
  - destruct (JS.startsWith "es" (Locale.getLocale config)) eqn:Hes; [|by split].
    destruct (Locale.getLocale config) as [|c l]; [done|].
    cbn in Hfr, Hes.
    destruct (decide ("f"%char = c)) as [<-|]; [|done].
    by destruct (decide ("e"%char = "f"%char)).
  - destruct (JS.startsWith "es" (Locale.getLocale config));
      [split; [discriminate | by intros (_ & _ & ?)]|by split].
Qed.

Lemma pretty_N_go_not_letter x s s' :
  s <> String "n" s' -> pretty_N_go x s <> String "n" s'.
Proof.
  revert s. induction (N.lt_wf_0 x) as [x _ IH]; intros s ?.
  assert (x = 0 \/ 0 < x)%N as [->|?] by lia.
  - by rewrite pretty_N_go_0.
  - rewrite pretty_N_go_step by done. apply IH.
    { by apply N.div_lt. }
    unfold pretty_N_char. by repeat case_match.
Qed.

Lemma pretty_Z_not_letter (code : Z) s : pretty code <> String "n" s.
Proof.
  destruct code as [|p|p]; [done| |done].
  unfold pretty, pretty_Z, pretty, pretty_positive, pretty, pretty_N.
  case_decide; [done|]. by apply pretty_N_go_not_letter.
Qed.

(** The keys of the two maps. *)
Lemma english_key (m : gmap string string) k v :
  m = Locale.englishLabels \/ m = Locale.englishDescriptions ->
  m !! k = Some v ->
  exists d, k = String "e" (String "n" d).
Proof.
  intros [-> | ->] H;
    unfold Locale.englishLabels, Locale.englishDescriptions in H;
    repeat (apply lookup_insert_Some in H as [[<- _]|[_ H]]; [by eexists|]);
    by rewrite lookup_empty in H.
Qed.

Lemma take_min n s : JS.take (Nat.min n (String.length s)) s = JS.take n s.
Proof.
  revert s; induction n as [|n IH]; intros [|c s]; cbn; try done.
  by rewrite IH.
Qed.

Lemma substring_prefix n s : JS.substring 0 (Z.of_nat n) s = JS.take n s.
Proof.
  unfold JS.substring. cbv zeta.
  rewrite <- (take_min n s).
  replace (Z.to_nat _ - Z.to_nat _)%nat with (Nat.min n (String.length s)) by lia.
  replace (Z.to_nat _) with 0%nat by lia.
  by destruct s.
Qed.

(** A key made from the locale that is among the keys of a map is the
    English key of the code. *)
Lemma translationKey_english (m : gmap string string) config code v :
  m = Locale.englishLabels \/ m = Locale.englishDescriptions ->
  m !! Locale.translationKey config code = Some v ->
  Locale.translationKey config code = "en" +:+ pretty code /\
  JS.startsWith "en" (Locale.getLocale config) = true.
Proof.
  intros Hm H. destruct (english_key _ _ _ Hm H) as (d & Hk).
  revert Hk. unfold Locale.translationKey.
  pose proof (getLocale_not_empty config) as Hne.
  destruct (Locale.getLocale config) as [|c [|c' l]]; [done|..].
  - cbn. intros [= -> Hp]. by apply pretty_Z_not_letter in Hp.
  - assert (JS.substring 0 2 (String c (String c' l)) = String c (String c' "")) as ->.
    { by rewrite (substring_prefix 2). }
    cbn. intros [= -> -> _]. done.
Qed.

Lemma size_englishLabels : size Locale.englishLabels = 6%nat.
Proof. by vm_compute. Qed.

Lemma size_englishDescriptions : size Locale.englishDescriptions = 6%nat.
Proof. by vm_compute. Qed.

Lemma label_lookup_english (code : Z) config :
  match Locale.englishLabels !! Locale.translationKey config code with
  | None => Locale.englishLabels !! ("en" +:+ pretty code)
  | Some _ => Locale.englishLabels !! Locale.translationKey config code
  end = Locale.englishLabels !! ("en" +:+ pretty code).
Proof.
  destruct (Locale.englishLabels !! Locale.translationKey config code) as [v|] eqn:H;
    [|done].
  destruct (translationKey_english _ _ _ _ (or_introl eq_refl) H) as [Hk _].
  by rewrite <- Hk.
Qed.

(** X20: the labels are never translated: whatever the locale, the label
    of a code is the English one (and undefined for a code that has
    none), and the map is filled afterwards. *)
Theorem labels_are_english (code : Z) config st :
  Locale.labelTranslations st = ∅ \/
  Locale.labelTranslations st = Locale.englishLabels ->
  Locale.getInputLabelTranslation code config st
  = (Locale.englishLabels !! ("en" +:+ pretty code),
     {| Locale.labelTranslations := Locale.englishLabels;
        Locale.descTranslations := Locale.descTranslations st |}).
Proof.
  intros Hst. unfold Locale.getInputLabelTranslation.
  assert ((if (size (Locale.labelTranslations st) =? 0)%nat
           then Locale.englishLabels else Locale.labelTranslations st)
          = Locale.englishLabels) as ->.
  { destruct Hst as [-> | ->]; [done|]. by rewrite size_englishLabels. }
  cbv zeta. f_equal. apply label_lookup_english.
Qed.

Lemma labels_are_english_witness :
  Locale.getInputLabelTranslation 3 MoreSamples.german Locale.fresh
  = (Locale.englishLabels !! ("en" +:+ pretty 3),
     {| Locale.labelTranslations := Locale.englishLabels;
        Locale.descTranslations := Locale.descTranslations Locale.fresh |}).
Proof.
  apply (labels_are_english 3 MoreSamples.german Locale.fresh). by left.
Defined.

(** X21: for a locale that does not start with en, the details of a code
    are never its description: they are undefined as long as no label has
    been asked for, and the English label of the code from then on. *)
Theorem details_fall_back_on_labels (code code' : Z) config :
  JS.startsWith "en" (Locale.getLocale config) = false ->
  (Locale.getInputDetailsTranslation code config Locale.fresh).1 = None /\
  (Locale.getInputDetailsTranslation code config
     (Locale.getInputLabelTranslation code' config Locale.fresh).2).1
  = Locale.englishLabels !! ("en" +:+ pretty code).
Proof.
  intros Hl.
  assert (Locale.englishDescriptions !! Locale.translationKey config code = None) as Hd.
  { destruct (Locale.englishDescriptions !! Locale.translationKey config code)
      as [v|] eqn:H; [|done].
    destruct (translationKey_english _ _ _ _ (or_intror eq_refl) H) as [_ Hen].
    congruence. }
  split.
  - unfold Locale.getInputDetailsTranslation.
    cbn [Locale.fresh Locale.descTranslations Locale.labelTranslations fst].
    change (size (∅ : gmap string string) =? 0)%nat with true.
    cbv iota. by rewrite Hd.
  - unfold Locale.getInputLabelTranslation, Locale.getInputDetailsTranslation.
    cbn [Locale.fresh Locale.descTranslations Locale.labelTranslations fst snd].
    change (size (∅ : gmap string string) =? 0)%nat with true.
    cbv iota. by rewrite Hd.
Qed.

Lemma details_fall_back_on_labels_witness :
  (Locale.getInputDetailsTranslation 1 MoreSamples.german Locale.fresh).1 = None /\
  (Locale.getInputDetailsTranslation 1 MoreSamples.german
     (Locale.getInputLabelTranslation 4 MoreSamples.german Locale.fresh).2).1
  = Some "Today".
Proof.
  split.
  - apply (details_fall_back_on_labels 1 4 MoreSamples.german). reflexivity.
  - etrans; [apply (details_fall_back_on_labels 1 4 MoreSamples.german); reflexivity|].
    by vm_compute.
Defined.

End QuickPicker.

(** * The journal class of the first versions *)

Section FirstVersions.

Lemma prependLineBreaks_positive fuel c content :
  0 < c -> Journal.prependLineBreaks fuel c content = None.
Proof.
  revert c content; induction fuel as [|fuel IH]; intros c content Hc;
    cbn [Journal.prependLineBreaks];
    rewrite (proj2 (Z.eqb_neq c 0)) by lia; [done|].
  apply IH. lia.
Qed.

(** X22: a position on a line past the line count sends [injectContent]
    into a loop it never leaves: the counter starts above 0 and is only
    ever increased, so no number of rounds brings it to 0.  A memo, which
    goes to line 2, does so on a page of one line. *)
Theorem injectContent_past_line_count doc pos content :
  (TextDocument.lineCount doc < Position.line pos)%nat ->
  forall fuel, Journal.injectContentText fuel doc pos content = None.
Proof.
  intros Hl fuel. unfold Journal.injectContentText. cbv zeta.
  rewrite (proj2 (Z.ltb_lt 0 _)) by lia.
  rewrite prependLineBreaks_positive by lia. done.
Qed.

Lemma injectContent_past_line_count_witness :
  (TextDocument.lineCount Sample.oneLine < 2)%nat /\
  Journal.injectContentText 1000 Sample.oneLine
    {| Position.line := 2; Position.character := 0 |} "- remember" = None.
Proof.
  split; [vm_compute; lia|].
  apply (injectContent_past_line_count Sample.oneLine
           {| Position.line := 2; Position.character := 0 |} "- remember").
  vm_compute. lia.
Defined.

(** X23: on a line up to the line count the content is handed to the edit
    with one line feed behind it and none in front. *)
Theorem injectContent_within_line_count doc pos content :
  (Position.line pos <= TextDocument.lineCount doc)%nat ->
  forall fuel, Journal.injectContentText fuel doc pos content = Some (content +:+ JS.LF).
Proof.
  intros Hl fuel. unfold Journal.injectContentText. cbv zeta.
  by rewrite (proj2 (Z.ltb_ge 0 _)) by lia.
Qed.

Lemma injectContent_within_line_count_witness :
  (2 <= TextDocument.lineCount Sample.journalPage)%nat /\
  Journal.injectContentText 0 Sample.journalPage
    {| Position.line := 2; Position.character := 0 |} "- remember"
  = Some ("- remember" +:+ JS.LF).
Proof.
  split; [vm_compute; lia|].
  apply (injectContent_within_line_count Sample.journalPage
           {| Position.line := 2; Position.character := 0 |} "- remember").
  vm_compute. lia.
Defined.

Lemma allChars_app p s t :
  Journal.allChars p (s +:+ t) = Journal.allChars p s && Journal.allChars p t.
Proof.
  induction s as [|c s IH]; [done|]. cbn. by rewrite IH, andb_assoc.
Qed.

Lemma encodeUnit_cleaned (c : ascii) :
  Journal.allChars Journal.isFileNameChar
    (Journal.encodeUnit
       (let c := if Journal.isWhiteSpace c then "_"%char else c in
        if Journal.isInvalidChar c then "-"%char else c)) = true.
Proof.
  destruct c as [[] [] [] [] [] [] [] []]; vm_compute; reflexivity.
Qed.

(** X24: the file name [createNote] builds from the entered name is made
    of letters, digits and the characters - _ . ! ~ ' ( ) % only: no
    white space, no separator of a path, no star. *)
Theorem cleanFileName_characters filename :
  Journal.allChars Journal.isFileNameChar (Journal.cleanFileName filename) = true.
Proof.
  unfold Journal.cleanFileName. cbv zeta.
  induction filename as [|c s IH]; [done|].
  cbn [Journal.replaceEach Journal.encodeURIComponent].
  rewrite allChars_app, IH, andb_true_r. apply encodeUnit_cleaned.
Qed.

End FirstVersions.
